(** * SigNeedPro: placeholder scanning, mark attachment, embedding and storage

    A shallow embedding of
      - [src/services/pdfUtils.ts]       ([scanForSignatures], [embedSignatures]),
      - [src/App.tsx]                    ([confirmSignature] of the signing view),
      - [src/services/storageService.ts] ([getDocuments], [saveDocument]),
    and the properties of the specification that concern them.

    JavaScript numbers are kept abstract behind the class [Number]; the
    functions of the source are written once against that interface and
    are read at two instances: the kernel's binary64 floats, the
    arithmetic the program runs, and the rationals [Q], exact
    arithmetic.  What rounding does to a binary64 operation is derived
    from the specification of the kernel's floats.

    [async] functions are read as state-and-exception computations: an
    [await] of a rejected promise throws, and [try]/[catch] resumes on
    the state the body had reached.  The libraries the source calls
    (pdf.js, pdf-lib, the browser) enter as parameters. *)

From Stdlib Require Import List String Ascii Bool Arith ZArith Lia Sorted.
From Stdlib Require Import QArith Qminmax Qabs Qpower Lqa.
From Stdlib Require Import Floats.PrimFloat Floats.SpecFloat Floats.FloatOps.
From Stdlib Require Import Floats.FloatAxioms Numbers.Cyclic.Int63.Uint63.
Import ListNotations.

Set Implicit Arguments.
Set Default Proof Using "Type".

Local Open Scope nat_scope.
Local Open Scope string_scope.
Local Open Scope list_scope.

(* ================================================================== *)
(** ** Numbers *)

Declare Scope js_scope.
Delimit Scope js_scope with js.

(** The arithmetic the source uses on values of type [number]. *)
Class Number (num : Type) : Type := {
  lit    : Z -> num;              (* an integer literal of the source *)
  nadd   : num -> num -> num;
  nsub   : num -> num -> num;
  nmul   : num -> num -> num;
  ndiv   : num -> num -> num;
  nmin   : num -> num -> num;     (* Math.min on two arguments *)
  truthy : num -> bool;           (* ToBoolean: false on 0, -0 and NaN *)
  isNaN    : num -> bool;         (* isNaN *)
  isFinite : num -> bool          (* Number.isFinite: false on NaN and the infinities *)
}.

Infix "+" := nadd : js_scope.
Infix "-" := nsub : js_scope.
Infix "*" := nmul : js_scope.
Infix "/" := ndiv : js_scope.

(** Exact arithmetic. *)
#[export] Instance Number_Q : Number Q := {|
  lit    := inject_Z;
  nadd   := Qplus;
  nsub   := Qminus;
  nmul   := Qmult;
  ndiv   := Qdiv;
  nmin   := Qmin;
  truthy := fun q => negb (Qeq_bool q 0%Q);
  isNaN    := fun _ => false;
  isFinite := fun _ => true
|}.

(** The rational that a float given by sign, mantissa and exponent
    stands for; 0 for NaN and the infinities, which stand for none. *)
Definition pow2 (e : Z) : Q := (2 ^ e)%Q.

Definition sgn (s : bool) : Q := if s then (-1)%Q else 1%Q.

Definition SF2Q (x : spec_float) : Q :=
  match x with
  | S754_finite s m e => (sgn s * (inject_Z (Z.pos m) * pow2 e))%Q
  | _ => 0%Q
  end.

(** Zero, subnormal or normal: neither NaN nor infinite. *)
Definition SFfinite (x : spec_float) : bool :=
  match x with
  | S754_zero _ | S754_finite _ _ _ => true
  | _ => false
  end.

Definition SFzero (x : spec_float) : bool :=
  match x with
  | S754_zero _ => true
  | _ => false
  end.

(** IEEE 754 binary64, as the kernel implements it. *)
Module F64.

(** The value of a number, and whether it has one, through the kernel's
    map from its floats to sign, mantissa and exponent. *)
Definition to_Q (x : float) : Q := SF2Q (Prim2SF x).
Definition finite (x : float) : bool := SFfinite (Prim2SF x).

(** An integer literal; exact below 2^53 in magnitude, which covers the
    literals of the source. *)
Definition of_Z (z : Z) : float :=
  match z with
  | Z0 => PrimFloat.zero
  | Zpos _ => PrimFloat.of_uint63 (Uint63.of_Z z)
  | Zneg p => PrimFloat.opp (PrimFloat.of_uint63 (Uint63.of_Z (Zpos p)))
  end.

(** [Math.min(a, b)]: NaN when an argument is NaN, and -0 below +0. *)
Definition min (a b : float) : float :=
  if PrimFloat.is_nan a then a
  else if PrimFloat.is_nan b then b
  else if PrimFloat.ltb a b then a
  else if PrimFloat.ltb b a then b
  else if PrimFloat.get_sign a then a else b.

Definition to_boolean (a : float) : bool :=
  negb (PrimFloat.is_nan a || PrimFloat.is_zero a).

End F64.

#[export] Instance Number_float : Number float := {|
  lit    := F64.of_Z;
  nadd   := PrimFloat.add;
  nsub   := PrimFloat.sub;
  nmul   := PrimFloat.mul;
  ndiv   := PrimFloat.div;
  nmin   := F64.min;
  truthy := F64.to_boolean;
  isNaN    := PrimFloat.is_nan;
  isFinite := PrimFloat.is_finite
|}.

(** [a || b] on an optional number: [a] when it is defined and truthy. *)
Definition or_default {num} `{Number num} (a : option num) (b : num) : num :=
  match a with
  | Some v => if truthy v then v else b
  | None => b
  end.

(* ================================================================== *)
(** ** Completions *)

(** What the source can throw.  A rejected promise is a throw at the
    [await] that receives it. *)
Inductive js_error : Type :=
  | DocumentLoadError               (* getDocument(..).promise / PDFDocument.load reject *)
  | PageExtractionError (i : nat)   (* getPage(i) or page.getTextContent() rejects *)
  | ImageDecodeError (payload : string)  (* pdfDoc.embedPng rejects *)
  | TypeError_undefined (prop : string)  (* property read on [undefined] *)
  | TypeError_not_a_number (name : string). (* pdf-lib refuses NaN for a number *)

(** The outcome of running a function body: it returns or it throws; for
    an [async] function, its promise is fulfilled or rejected. *)
Inductive completion (A : Type) : Type :=
  | Returned (a : A)
  | Thrown (e : js_error).

Arguments Returned {A} a.
Arguments Thrown {A} e.

(** State and exceptions: a computation runs on a state, may change it,
    and returns or throws.  The state reached before a throw is kept,
    as a mutated array keeps what was pushed before the exception. *)
Definition M (S A : Type) : Type := S -> completion A * S.

Definition ret {S A} (a : A) : M S A := fun s => (Returned a, s).

Definition throw {S A} (e : js_error) : M S A := fun s => (Thrown e, s).

Definition bind {S A B} (m : M S A) (k : A -> M S B) : M S B :=
  fun s => match m s with
           | (Returned a, s') => k a s'
           | (Thrown e, s') => (Thrown e, s')
           end.

Definition get {S} : M S S := fun s => (Returned s, s).

Definition modify {S} (f : S -> S) : M S unit := fun s => (Returned tt, f s).

(** [await p]: the value of a settled promise, or its rejection thrown. *)
Definition await {S A} (p : option A) (e : js_error) : M S A :=
  match p with
  | Some a => ret a
  | None => throw e
  end.

(** A call of a function that returns or throws. *)
Definition call {S A} (c : completion A) : M S A := fun s => (c, s).

(** [try { body } catch (e) { handler e }]. *)
Definition try_catch {S A} (body : M S A) (handler : js_error -> M S A) : M S A :=
  fun s => match body s with
           | (Returned a, s') => (Returned a, s')
           | (Thrown e, s') => handler e s'
           end.

(** [for (const x of xs) { body x }]. *)
Fixpoint for_of {S A} (xs : list A) (body : A -> M S unit) : M S unit :=
  match xs with
  | [] => ret tt
  | x :: rest => bind (body x) (fun _ => for_of rest body)
  end.

Notation "x <- m ;; k" := (bind m (fun x => k))
  (at level 61, m at next level, right associativity) : js_scope.
Notation "m ;; k" := (bind m (fun _ => k))
  (at level 61, right associativity) : js_scope.

(* ================================================================== *)
(** ** Data model *)

(** Modelled from the spec: the module [types] ([SignatureLocation],
    [DocumentMetadata]) is imported by every source file but is not among
    them; the records below carry the fields the source reads and writes
    (and the spec's Placement and persistence record list). *)
Module SignatureLocation.
Record t (num : Type) : Type := mk {
  id        : string;
  pageIndex : nat;
  x         : num;
  y         : num;
  width     : num;
  height    : num;
  value     : option string    (* [value?: string], a PNG data URL *)
}.
Arguments mk {num}.
Arguments id {num}.
Arguments pageIndex {num}.
Arguments x {num}.
Arguments y {num}.
Arguments width {num}.
Arguments height {num}.
Arguments value {num}.

(** [{ ...s, value: dataUrl }] *)
Definition with_value {num} (s : t num) (dataUrl : string) : t num :=
  mk (id s) (pageIndex s) (x s) (y s) (width s) (height s) (Some dataUrl).
End SignatureLocation.

Module DocumentMetadata.
Record t (num : Type) : Type := mk {
  id              : string;
  title           : string;
  filename        : string;
  uploadDate      : string;
  status          : string;           (* 'signed' | 'unsigned' *)
  tags            : list string;
  summary         : string;
  originalPdfData : string;
  signedPdfData   : option string;
  signatures      : list (SignatureLocation.t num)
}.
Arguments mk {num}.
Arguments id {num}.
Arguments title {num}.
Arguments filename {num}.
Arguments uploadDate {num}.
Arguments status {num}.
Arguments tags {num}.
Arguments summary {num}.
Arguments originalPdfData {num}.
Arguments signedPdfData {num}.
Arguments signatures {num}.
End DocumentMetadata.

(** The text layer and page geometry that pdf.js hands to the scanner. *)
Module PdfJs.
(** [item.transform] is [[scaleX, skewX, skewY, scaleY, x, y]]. *)
Record transform (num : Type) : Type := mkTransform {
  tx0 : num; tx1 : num; tx2 : num; tx3 : num; tx4 : num; tx5 : num
}.
Arguments mkTransform {num}.
Arguments tx4 {num}.
Arguments tx5 {num}.

Record item (num : Type) : Type := mkItem {
  str     : string;
  tx      : transform num;
  iwidth  : option num;      (* [item.width], [None] when not reported *)
  iheight : option num       (* [item.height], [None] when not reported *)
}.
Arguments mkItem {num}.
Arguments str {num}.
Arguments tx {num}.
Arguments iwidth {num}.
Arguments iheight {num}.

(** [page.getViewport({ scale: 1.0 })] *)
Record viewport (num : Type) : Type := mkViewport {
  vwidth  : num;
  vheight : num
}.
Arguments mkViewport {num}.
Arguments vwidth {num}.
Arguments vheight {num}.

(** A page as [pdf.getPage(i)] resolves it; [textContent] is what
    [page.getTextContent()] settles to, [None] when it rejects. *)
Record page (num : Type) : Type := mkPage {
  getViewport : viewport num;
  textContent : option (list (item num))
}.
Arguments mkPage {num}.
Arguments getViewport {num}.
Arguments textContent {num}.

(** A loaded document: what [pdf.getPage(1)], ..., [pdf.getPage(numPages)]
    settle to, [None] for a rejection. *)
Definition document (num : Type) : Type := list (option (page num)).
End PdfJs.

(** [s.includes(search)] *)
Fixpoint includes (s search : string) : bool :=
  String.prefix search s
  || match s with
     | EmptyString => false
     | String _ rest => includes rest search
     end.

(** [s.substr(start, length)] for non-negative arguments. *)
Definition substr (s : string) (start len : nat) : string :=
  String.substring start len s.

(* ================================================================== *)
(** ** The coordinate transforms, as the source computes them *)

Section Geometry.
Context {num : Type} `{Number num}.
Local Open Scope js_scope.

(** [scanForSignatures]: [uiY = viewport.height - pdfY - h], stored as
    [y: uiY / viewport.height]. *)
Definition uiY (viewportHeight pdfY h : num) : num :=
  viewportHeight - pdfY - h.

Definition normalizedY (viewportHeight pdfY h : num) : num :=
  uiY viewportHeight pdfY h / viewportHeight.

(** [embedSignatures]: [yPos = height - (sig.y * height) - pngDims.height]. *)
Definition yPos (height sig_y imageHeight : num) : num :=
  height - (sig_y * height) - imageHeight.

(** [embedSignatures]: [xPos = sig.x * width]. *)
Definition xPos (width sig_x : num) : num := sig_x * width.
End Geometry.

(* ================================================================== *)
(** ** The placeholder scanner: [scanForSignatures] *)

Section Scanner.
Context {num : Type} `{Number num}.
Local Open Scope js_scope.

(** The document-rendering collaborator: decoding the data URL and
    [pdfjsLib.getDocument({ data }).promise], [None] when any of it
    throws or rejects. *)
Variable getDocument : string -> option (PdfJs.document num).

(** [Math.random()]: the value its k-th call of the run returns, and
    [Number.prototype.toString(36)]. *)
Variable random : nat -> num.
Variable toString36 : num -> string.

Record scan_state : Type := mkScan {
  signatureLocations : list (SignatureLocation.t num);
  randomCalls        : nat
}.

Definition math_random : M scan_state num :=
  fun s => (Returned (random (randomCalls s)),
            mkScan (signatureLocations s) (S (randomCalls s))).

(** [signatureLocations.push(loc)] *)
Definition push (loc : SignatureLocation.t num) : M scan_state unit :=
  modify (fun s => mkScan (signatureLocations s ++ [loc]) (randomCalls s)).

(** The body of [for (const item of textContent.items)] on page [i]
    (1-based). *)
Definition scan_item (i : nat) (viewport : PdfJs.viewport num)
    (item : PdfJs.item num) : M scan_state unit :=
  if includes (PdfJs.str item) "$signature" then
    let tx := PdfJs.tx item in
    let x := PdfJs.tx4 tx in
    let y := PdfJs.tx5 tx in
    let h := or_default (PdfJs.iheight item) (lit 12) in
    let w := or_default (PdfJs.iwidth item) (lit 100) in
    let boxWidth := lit 150 in
    let boxHeight := lit 60 in
    let pdfY := y in
    r <- math_random ;;
    push (SignatureLocation.mk
            (substr (toString36 r) 2 9)
            (i - 1)
            (x / PdfJs.vwidth viewport)
            (normalizedY (PdfJs.vheight viewport) pdfY h)
            (boxWidth / PdfJs.vwidth viewport)
            (boxHeight / PdfJs.vheight viewport)
            None)
  else ret tt.

(** [for (let i = 1; i <= pdf.numPages; i++)], from page [i] on. *)
Fixpoint scan_pages (pages : PdfJs.document num) (i : nat) : M scan_state unit :=
  match pages with
  | [] => ret tt
  | p :: rest =>
      page <- await p (PageExtractionError i) ;;
      items <- await (PdfJs.textContent page) (PageExtractionError i) ;;
      let viewport := PdfJs.getViewport page in
      for_of items (scan_item i viewport) ;;
      scan_pages rest (S i)
  end.

(** The function body, run on the state its first line sets up. *)
Definition scan_body (base64Data : string)
  : M scan_state (list (SignatureLocation.t num)) :=
  try_catch
    (pdf <- await (getDocument base64Data) DocumentLoadError ;;
     scan_pages pdf 1)
    (fun e => ret tt (* console.error("Signature scan failed", e) *)) ;;
  s <- get ;;
  ret (signatureLocations s).

Definition scanForSignatures (base64Data : string)
  : completion (list (SignatureLocation.t num)) :=
  fst (scan_body base64Data (mkScan [] 0)).

End Scanner.

(* ================================================================== *)
(** ** The embedding engine: [embedSignatures] *)

(** The part of pdf-lib that [embedSignatures] calls. *)
Module PdfLib.
(** [{ width, height }], as [page.getSize()] and [image.scaleToFit] return. *)
Record size (num : Type) : Type := mkSize {
  swidth  : num;
  sheight : num
}.
Arguments mkSize {num}.
Arguments swidth {num}.
Arguments sheight {num}.

(** An embedded image, as [pdfDoc.embedPng] resolves it: its payload,
    its natural dimensions and its method [scaleToFit(width, height)],
    which returns a size or throws. *)
Record image (num : Type) : Type := mkImage {
  payload    : string;
  iwidth     : num;
  iheight    : num;
  scaleToFit : num -> num -> completion (size num)
}.
Arguments mkImage {num}.
Arguments payload {num}.
Arguments iwidth {num}.
Arguments iheight {num}.
Arguments scaleToFit {num}.

(** One [page.drawImage(image, { x, y, width, height })]. *)
Record drawn (num : Type) : Type := mkDrawn {
  dimage  : image num;
  dx      : num;
  dy      : num;
  dwidth  : num;
  dheight : num
}.
Arguments mkDrawn {num}.
Arguments dimage {num}.
Arguments dx {num}.
Arguments dy {num}.
Arguments dwidth {num}.
Arguments dheight {num}.

(** A page: its size and the images drawn on it so far, oldest first. *)
Record page (num : Type) : Type := mkPage {
  getSize : size num;
  content : list (drawn num)
}.
Arguments mkPage {num}.
Arguments getSize {num}.
Arguments content {num}.

(** pdf-lib checks its number arguments with [assertIs(value, name,
    ['number'])], which throws a [TypeError] unless
    [typeof value === 'number' && !isNaN(value)].  pdf-lib is a library
    the source calls, not a file of this repository; the checks below
    are the ones of its [PDFPage.drawImage], [PDFImage.scaleToFit] and
    [PDFImage.scale]. *)
Definition assertIs_number {num} `{Number num} (value : num) (name : string)
  : completion unit :=
  if isNaN value then Thrown (TypeError_not_a_number name) else Returned tt.

(** The checks of [page.drawImage(image, { x, y, width, height })]. *)
Definition check_options {num} `{Number num} (d : drawn num) : completion unit :=
  match assertIs_number (dx d) "options.x" with
  | Thrown e => Thrown e
  | Returned _ =>
  match assertIs_number (dy d) "options.y" with
  | Thrown e => Thrown e
  | Returned _ =>
  match assertIs_number (dwidth d) "options.width" with
  | Thrown e => Thrown e
  | Returned _ => assertIs_number (dheight d) "options.height"
  end end end.

(** [page.drawImage]: the page with the image added, unless an option is
    refused. *)
Definition drawImage {num} `{Number num} (p : page num) (d : drawn num)
  : completion (page num) :=
  match check_options d with
  | Thrown e => Thrown e
  | Returned _ => Returned (mkPage (getSize p) (content p ++ [d]))
  end.

(** [image.scale(factor)]. *)
Definition scale {num} `{Number num} (imageWidth imageHeight : num) (factor : num)
  : completion (size num) :=
  match assertIs_number factor "factor" with
  | Thrown e => Thrown e
  | Returned _ =>
      Returned (mkSize (imageWidth * factor)%js (imageHeight * factor)%js)
  end.

(** Modelled from the spec: the method [scaleToFit] is pdf-lib's, not a
    file of this repository.  The spec's scaling policy (the image is
    scaled to fit fully within the box, its aspect ratio preserved) is
    realised the way pdf-lib does it, with one factor for both axes, the
    smaller of the two ratios box/image. *)
Definition scale_to_fit {num} `{Number num} (imageWidth imageHeight : num)
    (width height : num) : completion (size num) :=
  match assertIs_number width "width" with
  | Thrown e => Thrown e
  | Returned _ =>
  match assertIs_number height "height" with
  | Thrown e => Thrown e
  | Returned _ =>
      let imgWidthScale := (width / imageWidth)%js in
      let imgHeightScale := (height / imageHeight)%js in
      let scale_ := nmin imgWidthScale imgHeightScale in
      scale imageWidth imageHeight scale_
  end end.

(** The image pdf-lib makes of a PNG of the given size. *)
Definition png {num} `{Number num} (dataUrl : string) (imageWidth imageHeight : num)
  : image num :=
  mkImage dataUrl imageWidth imageHeight (scale_to_fit imageWidth imageHeight).
End PdfLib.

(** [xs[i] = v] for an index inside the array. *)
Fixpoint set_nth {A} (i : nat) (v : A) (xs : list A) : list A :=
  match xs, i with
  | [], _ => []
  | _ :: rest, O => v :: rest
  | a :: rest, S j => a :: set_nth j v rest
  end.

(** The string of [sig.value] when [!sig.value] is false: [undefined] and
    the empty string are falsy. *)
Definition mark_of {num} (sig : SignatureLocation.t num) : option string :=
  match SignatureLocation.value sig with
  | Some s => if (s =? "")%string then None else Some s
  | None => None
  end.

Section Embedding.
Context {num : Type} `{Number num}.
Local Open Scope js_scope.

(** The document-mutation collaborator: [PDFDocument.load] and
    [pdfDoc.embedPng]; [None] when the promise rejects. *)
Variable load : string -> option (list (PdfLib.page num)).
Variable embedPng : string -> option (PdfLib.image num).

(** The body of [for (const sig of signatures)], on the pages of [pdfDoc]. *)
Definition embed_one (sig : SignatureLocation.t num)
  : M (list (PdfLib.page num)) unit :=
  match mark_of sig with
  | None => ret tt                                   (* continue *)
  | Some dataUrl =>
      pages <- get ;;
      page <- await (nth_error pages (SignatureLocation.pageIndex sig))
                    (TypeError_undefined "getSize") ;;
      let width := PdfLib.swidth (PdfLib.getSize page) in
      let height := PdfLib.sheight (PdfLib.getSize page) in
      pngImage <- await (embedPng dataUrl) (ImageDecodeError dataUrl) ;;
      pngDims <- call (PdfLib.scaleToFit pngImage
                         (SignatureLocation.width sig * width)
                         (SignatureLocation.height sig * height)) ;;
      let xPos := xPos width (SignatureLocation.x sig) in
      let yPos := yPos height (SignatureLocation.y sig) (PdfLib.sheight pngDims) in
      drawnPage <- call (PdfLib.drawImage page
                           (PdfLib.mkDrawn pngImage xPos yPos
                              (PdfLib.swidth pngDims) (PdfLib.sheight pngDims))) ;;
      modify (set_nth (SignatureLocation.pageIndex sig) drawnPage)
  end.

Definition embed_body (signatures : list (SignatureLocation.t num))
  : M (list (PdfLib.page num)) (list (PdfLib.page num)) :=
  for_of signatures embed_one ;;
  get.

(** The promise of [embedSignatures]: fulfilled with the document that
    [pdfDoc.save()] serialises (the returned data URL is its base64
    text), or rejected. *)
Definition embedSignatures (originalBase64 : string)
    (signatures : list (SignatureLocation.t num))
  : completion (list (PdfLib.page num)) :=
  match load originalBase64 with
  | None => Thrown DocumentLoadError
  | Some pages => fst (embed_body signatures pages)
  end.

End Embedding.

(* ================================================================== *)
(** ** The placement store: [confirmSignature] of the signing view *)

Section Signing.
Context {num : Type}.

(** [sigPadRef.current]: whether the pad is empty and the data URL that
    [getTrimmedCanvas().toDataURL('image/png')] yields. *)
Record signature_pad : Type := mkPad {
  isEmpty   : bool;
  toDataURL : string
}.

(** The component state the handler reads and sets, and the alerts it
    has raised. *)
Record signing_state : Type := mkSigning {
  currentDoc         : DocumentMetadata.t num;
  activeSignId       : option string;
  isSigningModalOpen : bool;
  alerts             : list string
}.

(** [{ ...doc, signatures: updated }] *)
Definition with_signatures (doc : DocumentMetadata.t num)
    (updated : list (SignatureLocation.t num)) : DocumentMetadata.t num :=
  DocumentMetadata.mk
    (DocumentMetadata.id doc) (DocumentMetadata.title doc)
    (DocumentMetadata.filename doc) (DocumentMetadata.uploadDate doc)
    (DocumentMetadata.status doc) (DocumentMetadata.tags doc)
    (DocumentMetadata.summary doc) (DocumentMetadata.originalPdfData doc)
    (DocumentMetadata.signedPdfData doc) updated.

(** [signatures.map(s => s.id === activeSignId ? { ...s, value: dataUrl } : s)] *)
Definition attachMark (activeSignId dataUrl : string)
    (signatures : list (SignatureLocation.t num))
  : list (SignatureLocation.t num) :=
  map (fun s => if (SignatureLocation.id s =? activeSignId)%string
                then SignatureLocation.with_value s dataUrl
                else s)
      signatures.

(** A string in a condition: [null] and the empty string are falsy. *)
Definition truthy_id (i : option string) : option string :=
  match i with
  | Some s => if (s =? "")%string then None else Some s
  | None => None
  end.

Definition confirmSignature (sigPad : option signature_pad) (st : signing_state)
  : signing_state :=
  match sigPad, truthy_id (activeSignId st) with
  | Some pad, Some active =>
      if isEmpty pad then
        mkSigning (currentDoc st) (activeSignId st) (isSigningModalOpen st)
                  (alerts st ++ ["Please draw a signature first"])
      else
        let dataUrl := toDataURL pad in
        let updatedSignatures :=
          attachMark active dataUrl (DocumentMetadata.signatures (currentDoc st)) in
        mkSigning (with_signatures (currentDoc st) updatedSignatures)
                  None false (alerts st)
  | _, _ => st
  end.

End Signing.

(** *** The same update on objects held by reference

    The array [currentDoc.signatures] holds references to objects; the
    callback of [map] returns the reference it was given or a reference
    to a fresh object.  Objects live in a store and are addressed by
    their position in it. *)
Section SigningByReference.
Context {num : Type}.

Definition object_store : Type := list (SignatureLocation.t num).
Definition reference : Type := nat.

(** Reading a property of the object behind a reference. *)
Definition read_object (r : reference) : M object_store (SignatureLocation.t num) :=
  fun h => match nth_error h r with
           | Some o => (Returned o, h)
           | None => (Thrown (TypeError_undefined "id"), h)
           end.

(** An object literal: a fresh object, at an address not used before. *)
Definition new_object (o : SignatureLocation.t num) : M object_store reference :=
  fun h => (Returned (List.length h), h ++ [o]).

(** [xs.map(f)] on an array of references. *)
Fixpoint array_map (f : reference -> M object_store reference)
    (xs : list reference) : M object_store (list reference) :=
  match xs with
  | [] => ret []
  | r :: rest =>
      bind (f r) (fun r' =>
      bind (array_map f rest) (fun rest' =>
      ret (r' :: rest')))
  end.

(** [signatures.map(s => s.id === activeSignId ? { ...s, value: dataUrl } : s)] *)
Definition attachMark_refs (activeSignId dataUrl : string)
    (signatures : list reference) : M object_store (list reference) :=
  array_map
    (fun r =>
       bind (read_object r) (fun s =>
       if (SignatureLocation.id s =? activeSignId)%string
       then new_object (SignatureLocation.with_value s dataUrl)
       else ret r))
    signatures.

(** The objects an array of references denotes in a store. *)
Definition objects_of (h : object_store) (xs : list reference)
  : list (option (SignatureLocation.t num)) :=
  map (nth_error h) xs.

End SigningByReference.

(* ================================================================== *)
(** ** The document store: [getDocuments] and [saveDocument] *)

Section Storage.
Context {num : Type}.

(** What [localStorage] holds under [STORAGE_KEY]: the JSON text of an
    array of records (kept as the array it parses to; this module writes
    nothing else under the key), or a text that [JSON.parse] rejects. *)
Inductive stored : Type :=
  | Json (docs : list (DocumentMetadata.t num))
  | Unparseable.

Definition local_storage : Type := option stored.

(** Whether the browser accepts writing the array ([setItem] throws
    when the quota is exceeded). *)
Variable quota_ok : list (DocumentMetadata.t num) -> bool.

Definition getDocuments (ls : local_storage) : list (DocumentMetadata.t num) :=
  match ls with
  | Some (Json docs) => docs
  | Some Unparseable => []      (* catch: console.error, return [] *)
  | None => []
  end.

(** [xs.findIndex(p)], counting from [i]; [-1] when nothing matches. *)
Fixpoint findIndex_from {A} (p : A -> bool) (xs : list A) (i : Z) : Z :=
  match xs with
  | [] => (-1)%Z
  | a :: rest => if p a then i else findIndex_from p rest (i + 1)%Z
  end.

Definition findIndex {A} (p : A -> bool) (xs : list A) : Z :=
  findIndex_from p xs 0%Z.

(** The array [saveDocument] hands to [JSON.stringify]. *)
Definition updated_docs (docs : list (DocumentMetadata.t num))
    (doc : DocumentMetadata.t num) : list (DocumentMetadata.t num) :=
  let existingIndex :=
    findIndex (fun d => (DocumentMetadata.id d =? DocumentMetadata.id doc)%string)
              docs in
  if (0 <=? existingIndex)%Z
  then set_nth (Z.to_nat existingIndex) doc docs     (* docs[existingIndex] = doc *)
  else doc :: docs.                                  (* docs.unshift(doc) *)

(** The store after the call, and the alert raised if the write failed.
    The store is given by the array that was handed to [JSON.stringify];
    what [JSON.parse] makes of the text is [JSON_read_back] below, the
    same array when the numbers in it are finite and none is -0. *)
Definition saveDocument (ls : local_storage) (doc : DocumentMetadata.t num)
  : local_storage * list string :=
  let docs := updated_docs (getDocuments ls) doc in
  if quota_ok docs
  then (Some (Json docs), [])
  else (ls, ["Local storage full. Cannot save document."]).

End Storage.

(* ================================================================== *)
(** ** Notions the properties are stated with *)

(** [m] keeps the state property [P], whether it returns or throws. *)
Definition keeps {S A} (P : S -> Prop) (m : M S A) : Prop :=
  forall s, P s -> P (snd (m s)).

(** Extraction fails on a page: [getPage] or [getTextContent] rejects. *)
Definition page_fails {num} (p : option (PdfJs.page num)) : bool :=
  match p with
  | None => true
  | Some page =>
      match PdfJs.textContent page with
      | None => true
      | Some _ => false
      end
  end.

(** No fragment of the document contains the marker. *)
Definition no_markers {num} (pdf : PdfJs.document num) : bool :=
  forallb
    (fun p : option (PdfJs.page num) =>
       match p with
       | Some page =>
           match PdfJs.textContent page with
           | Some items =>
               forallb (fun item => negb (includes (PdfJs.str item) "$signature"))
                       items
           | None => true
           end
       | None => true
       end)
    pdf.

(** The identifier the scanner makes from the k-th draw of the run:
    [Math.random().toString(36).substr(2, 9)]. *)
Definition id_of_draw {num} (random : nat -> num) (toString36 : num -> string)
    (k : nat) : string :=
  substr (toString36 (random k)) 2 9.

(** The mark of a placement is absent. *)
Definition absent {num} (sig : SignatureLocation.t num) : bool :=
  match SignatureLocation.value sig with
  | None => true
  | Some _ => false
  end.

(* ================================================================== *)
(** ** Concrete documents and collaborators *)

Section Fixtures.
Context {num : Type} `{Number num}.

(** A fragment that reads ["$signature"], origin (100, 700), with the
    width and height the text layer reports for it. *)
Definition marker_item (w h : option num) : PdfJs.item num :=
  PdfJs.mkItem "$signature"
    (PdfJs.mkTransform (lit 12) (lit 0) (lit 0) (lit 12) (lit 100) (lit 700))
    w h.

Definition letter_viewport : PdfJs.viewport num :=
  PdfJs.mkViewport (lit 612) (lit 792).

(** A 612 by 792 page with the given text layer. *)
Definition letter_page (items : list (PdfJs.item num)) : option (PdfJs.page num) :=
  Some (PdfJs.mkPage letter_viewport (Some items)).

(** A 612 by 792 page whose [getTextContent] rejects. *)
Definition failing_page : option (PdfJs.page num) :=
  Some (PdfJs.mkPage letter_viewport None).

(** The rendering collaborator of the examples: four data URLs parse,
    everything else is rejected. *)
Definition sample_getDocument (base64Data : string) : option (PdfJs.document num) :=
  if (base64Data =? "data:application/pdf;base64,ONE")%string
  then Some [letter_page [marker_item None None]]
  else if (base64Data =? "data:application/pdf;base64,TWO")%string
  then Some [letter_page [marker_item None None; marker_item None None]]
  else if (base64Data =? "data:application/pdf;base64,BLANK")%string
  then Some [letter_page []]
  else if (base64Data =? "data:application/pdf;base64,BROKEN-FIRST")%string
  then Some [failing_page; letter_page [marker_item None None]]
  else None.

End Fixtures.

(** A generator that draws 0.5 every time, and one that draws 0.5 and
    then 0.25; [toString(36)] on those values. *)
Definition constant_random : nat -> float := fun _ => 0.5%float.

Definition halving_random : nat -> float :=
  fun k => match k with O => 0.5%float | _ => 0.25%float end.

Definition sample_toString36 (r : float) : string :=
  if PrimFloat.eqb r 0.5%float then "0.i"
  else if PrimFloat.eqb r 0.25%float then "0.9"
  else "0".

(** The placement that scanning [marker_item] on a 612 by 792 page gives
    in binary64, under the given identifier: x = 100/612,
    y = (792 - 700 - 12)/792, width 150/612, height 60/792, rounded. *)
Definition letter_placement_binary64 (id : string) : SignatureLocation.t float :=
  SignatureLocation.mk id 0
    0x1.4ea3f94ea3f95p-3%float     (* 0.16339869281045752 *)
    0x1.9dbcc48676f31p-4%float     (* 0.10101010101010101 *)
    0x1.f5f5f5f5f5f5fp-3%float     (* 0.24509803921568626 *)
    0x1.364d9364d9365p-4%float     (* 0.07575757575757576 *)
    None.

(** The mutation collaborator of the examples: one data URL loads, as a
    single blank 612 by 792 page; three PNG payloads decode, one four
    times as wide as high, one four times as high as wide, one 100 by
    58. *)
Definition sample_load {num} `{Number num} (originalBase64 : string)
  : option (list (PdfLib.page num)) :=
  if (originalBase64 =? "data:application/pdf;base64,ONE")%string
  then Some [PdfLib.mkPage (PdfLib.mkSize (lit 612) (lit 792)) []]
  else None.

Definition sample_embedPng {num} `{Number num} (dataUrl : string)
  : option (PdfLib.image num) :=
  if (dataUrl =? "data:image/png;base64,WIDE")%string
  then Some (PdfLib.png dataUrl (lit 400) (lit 100))
  else if (dataUrl =? "data:image/png;base64,TALL")%string
  then Some (PdfLib.png dataUrl (lit 100) (lit 400))
  else if (dataUrl =? "data:image/png;base64,STAMP")%string
  then Some (PdfLib.png dataUrl (lit 100) (lit 58))
  else None.

(** The placement the scanner makes of [marker_item] on a 612 by 792
    page, with the given identifier, page index and mark, in the
    arithmetic at hand. *)
Definition scanned_placement {num} `{Number num} (id : string) (pageIndex : nat)
    (mark : option string) : SignatureLocation.t num :=
  SignatureLocation.mk id pageIndex
    (lit 100 / lit 612)%js ((lit 792 - lit 700 - lit 12) / lit 792)%js
    (lit 150 / lit 612)%js (lit 60 / lit 792)%js
    mark.

(** The placement that scanning the one-marker document yields in exact
    arithmetic, with the given identifier, page index and mark. *)
Definition sample_placement (id : string) (pageIndex : nat) (mark : option string)
  : SignatureLocation.t Q :=
  SignatureLocation.mk id pageIndex (100 # 612) (80 # 792) (150 # 612) (60 # 792)
    mark.

(** A signing view on a document with two placements, the placement
    being signed, and a pad with a drawn signature. *)
Definition sample_document (signatures : list (SignatureLocation.t Q))
  : DocumentMetadata.t Q :=
  DocumentMetadata.mk "doc-1" "Lease" "lease.pdf" "2024-01-01T00:00:00.000Z"
    "unsigned" ["Pending"] "A lease." "data:application/pdf;base64,ONE" None
    signatures.

Definition sample_signing (active : option string) : signing_state :=
  mkSigning
    (sample_document [sample_placement "a" 0 None; sample_placement "b" 0 None])
    active true [].

Definition sample_pad : signature_pad :=
  mkPad false "data:image/png;base64,WIDE".

(** Stored records, told apart by identifier and title, and a browser
    that accepts arrays of at most three records. *)
Definition sample_record (id title : string) : DocumentMetadata.t Q :=
  DocumentMetadata.mk id title "file.pdf" "2024-01-01T00:00:00.000Z"
    "unsigned" [] "" "data:application/pdf;base64,ONE" None [].

Definition sample_quota (docs : list (DocumentMetadata.t Q)) : bool :=
  (List.length docs <=? 3)%nat.

(* ================================================================== *)
(** ** The rest of the document store: [getDocumentById], [deleteDocument] *)

Section StorageLookup.
Context {num : Type}.
Variable quota_ok : list (DocumentMetadata.t num) -> bool.

(** [getDocuments().find(d => d.id === id)], [None] for [undefined]. *)
Definition getDocumentById (ls : @local_storage num) (id : string)
  : option (DocumentMetadata.t num) :=
  find (fun d => (DocumentMetadata.id d =? id)%string) (getDocuments ls).

(** What [localStorage.setItem] throws outside a [try]. *)
Inductive storage_exception : Type := QuotaExceededError.

(** The store after the call, and the exception that escapes when the
    browser refuses the write ([deleteDocument] has no [try]). *)
Definition deleteDocument (ls : @local_storage num) (id : string)
  : @local_storage num * option storage_exception :=
  let docs :=
    filter (fun d => negb (DocumentMetadata.id d =? id)%string) (getDocuments ls) in
  if quota_ok docs
  then (Some (Json docs), None)
  else (ls, Some QuotaExceededError).

End StorageLookup.

(* ================================================================== *)
(** ** The rest of the signing view: [handleBoxClick], [handleFinalSave] *)

(** [!!sig.value], as [every(s => s.value)] and [filter(s => s.value)]
    read it. *)
Definition has_mark {num} (sig : SignatureLocation.t num) : bool :=
  match mark_of sig with
  | Some _ => true
  | None => false
  end.

(** [{ ...doc, status, signedPdfData }] *)
Definition with_status_and_signed {num} (doc : DocumentMetadata.t num)
    (status signedPdfData : string) : DocumentMetadata.t num :=
  DocumentMetadata.mk
    (DocumentMetadata.id doc) (DocumentMetadata.title doc)
    (DocumentMetadata.filename doc) (DocumentMetadata.uploadDate doc)
    status (DocumentMetadata.tags doc)
    (DocumentMetadata.summary doc) (DocumentMetadata.originalPdfData doc)
    (Some signedPdfData) (DocumentMetadata.signatures doc).

(** Clicking the box of a placement: the placement becomes the active
    one and the dialog opens. *)
Definition handleBoxClick {num} (sig : SignatureLocation.t num)
    (st : @signing_state num) : @signing_state num :=
  mkSigning (currentDoc st) (Some (SignatureLocation.id sig)) true (alerts st).

(** The header's counter: [signatures.filter(s => s.value).length]. *)
Definition signed_count {num} (signatures : list (SignatureLocation.t num)) : nat :=
  List.length (filter has_mark signatures).

Section FinalSave.
Context {num : Type} `{Number num}.

Variable load : string -> option (list (PdfLib.page num)).
Variable embedPng : string -> option (PdfLib.image num).

(** [pdfDoc.save()] followed by the base64 encoding of its bytes. *)
Variable serialize : list (PdfLib.page num) -> string.

Variable quota_ok : list (DocumentMetadata.t num) -> bool.

(** The signing view together with the flags of the save button and the
    browser's store. *)
Record save_view : Type := mkSaveView {
  signing       : @signing_state num;
  isSaving      : bool;
  showShareMenu : bool;
  storage       : @local_storage num
}.

(** The string [embedSignatures] returns for the saved document. *)
Definition signed_data_url (pages : list (PdfLib.page num)) : string :=
  ("data:application/pdf;base64," ++ serialize pages)%string.

(** [handleFinalSave]: [setIsSaving(true)], the [try] block, its [catch]
    and the [finally] that resets the flag. *)
Definition handleFinalSave (st : save_view) : save_view :=
  let currentDoc := currentDoc (signing st) in
  match embedSignatures load embedPng
          (DocumentMetadata.originalPdfData currentDoc)
          (DocumentMetadata.signatures currentDoc) with
  | Returned pages =>
      let signedPdfBase64 := signed_data_url pages in
      let isFullySigned := forallb has_mark (DocumentMetadata.signatures currentDoc) in
      let updatedDoc :=
        with_status_and_signed currentDoc
          (if isFullySigned then "signed" else "unsigned") signedPdfBase64 in
      let (ls, raised) := saveDocument quota_ok (storage st) updatedDoc in
      mkSaveView
        (mkSigning currentDoc (activeSignId (signing st))
           (isSigningModalOpen (signing st))
           (alerts (signing st) ++ raised ++ ["Document saved successfully!"]))
        false true ls
  | Thrown e =>
      mkSaveView
        (mkSigning currentDoc (activeSignId (signing st))
           (isSigningModalOpen (signing st))
           (alerts (signing st) ++ ["Error saving document."]))
        false (showShareMenu st) (storage st)
  end.

End FinalSave.

(* ================================================================== *)
(** ** What a run of the embedding engine draws, page by page *)

(** [xs.map((x, k) => f(i + k, x))] *)
Fixpoint map_indexed {A B} (f : nat -> A -> B) (i : nat) (xs : list A) : list B :=
  match xs with
  | [] => []
  | a :: rest => f i a :: map_indexed f (S i) rest
  end.

Section Drawings.
Context {num : Type} `{Number num}.
Variable embedPng : string -> option (PdfLib.image num).
Local Open Scope js_scope.

(** The image the loop body draws for a placement on a page of the
    given size, once its payload is decoded: scaled by the library, then
    positioned; or the [TypeError] with which [scaleToFit] or
    [drawImage] refuses a NaN. *)
Definition drawing (size : PdfLib.size num) (pngImage : PdfLib.image num)
    (sig : SignatureLocation.t num) : completion (PdfLib.drawn num) :=
  let width := PdfLib.swidth size in
  let height := PdfLib.sheight size in
  match PdfLib.scaleToFit pngImage (SignatureLocation.width sig * width)
                                   (SignatureLocation.height sig * height) with
  | Thrown e => Thrown e
  | Returned pngDims =>
      let d := PdfLib.mkDrawn pngImage
                 (xPos width (SignatureLocation.x sig))
                 (yPos height (SignatureLocation.y sig) (PdfLib.sheight pngDims))
                 (PdfLib.swidth pngDims) (PdfLib.sheight pngDims) in
      match PdfLib.check_options d with
      | Thrown e => Thrown e
      | Returned _ => Returned d
      end
  end.

(** The placement can be processed on a document whose pages have the
    given sizes: it has no mark, or it names an existing page, its
    payload decodes, and neither [scaleToFit] nor [drawImage] refuses
    its numbers. *)
Definition embeddable (sizes : list (PdfLib.size num)) (sig : SignatureLocation.t num)
  : bool :=
  match mark_of sig with
  | None => true
  | Some dataUrl =>
      match nth_error sizes (SignatureLocation.pageIndex sig), embedPng dataUrl with
      | Some size, Some pngImage =>
          match drawing size pngImage sig with
          | Returned _ => true
          | Thrown _ => false
          end
      | _, _ => false
      end
  end.

(** What the placement draws on a page of the given size: nothing
    without a mark, else its image, scaled and positioned. *)
Definition drawing_of (size : PdfLib.size num) (sig : SignatureLocation.t num)
  : list (PdfLib.drawn num) :=
  match mark_of sig with
  | None => []
  | Some dataUrl =>
      match embedPng dataUrl with
      | None => []
      | Some pngImage =>
          match drawing size pngImage sig with
          | Returned d => [d]
          | Thrown _ => []
          end
      end
  end.

(** The drawings of the placements that name page [k], in the order of
    the sequence. *)
Definition drawings_on (k : nat) (size : PdfLib.size num)
    (signatures : list (SignatureLocation.t num)) : list (PdfLib.drawn num) :=
  flat_map (fun sig => if (SignatureLocation.pageIndex sig =? k)%nat
                       then drawing_of size sig
                       else [])
           signatures.

(** Every page with the drawings of its placements added after what it
    held. *)
Definition with_drawings (signatures : list (SignatureLocation.t num))
    (k : nat) (p : PdfLib.page num) : PdfLib.page num :=
  PdfLib.mkPage (PdfLib.getSize p)
    (PdfLib.content p ++ drawings_on k (PdfLib.getSize p) signatures).

Definition embedded (pages : list (PdfLib.page num))
    (signatures : list (SignatureLocation.t num)) : list (PdfLib.page num) :=
  map_indexed (with_drawings signatures) 0 pages.

End Drawings.

(* ================================================================== *)
(** ** What a scan returns, fragment by fragment *)

(** The fragment contains the marker. *)
Definition has_marker {num} (item : PdfJs.item num) : bool :=
  includes (PdfJs.str item) "$signature".

Section ScanResult.
Context {num : Type} `{Number num}.
Variable random : nat -> num.
Variable toString36 : num -> string.
Local Open Scope js_scope.

(** A marker fragment with the index and the viewport of its page. *)
Definition found : Type := (nat * PdfJs.viewport num * PdfJs.item num)%type.

(** The placement made for a marker fragment when the generator is at
    its k-th draw. *)
Definition placement_of (k : nat) (m : found) : SignatureLocation.t num :=
  let '(pageIndex, viewport, item) := m in
  SignatureLocation.mk
    (id_of_draw random toString36 k)
    pageIndex
    (PdfJs.tx4 (PdfJs.tx item) / PdfJs.vwidth viewport)
    (normalizedY (PdfJs.vheight viewport) (PdfJs.tx5 (PdfJs.tx item))
                 (or_default (PdfJs.iheight item) (lit 12)))
    (lit 150 / PdfJs.vwidth viewport)
    (lit 60 / PdfJs.vheight viewport)
    None.

Fixpoint place_all (k : nat) (ms : list found) : list (SignatureLocation.t num) :=
  match ms with
  | [] => []
  | m :: rest => placement_of k m :: place_all (S k) rest
  end.

(** The marker fragments of the pages that come before the first page
    whose extraction fails, in page order, then in the order of the text
    layer; [pageIndex] is the index of the first page of [pdf]. *)
Fixpoint marker_fragments (pdf : PdfJs.document num) (pageIndex : nat) : list found :=
  match pdf with
  | [] => []
  | None :: _ => []
  | Some page :: rest =>
      match PdfJs.textContent page with
      | None => []
      | Some items =>
          map (fun item => (pageIndex, PdfJs.getViewport page, item))
              (filter has_marker items)
          ++ marker_fragments rest (S pageIndex)
      end
  end.

End ScanResult.

(** What detection fixes of a placement: everything but the mark. *)
Definition geometry {num} (s : SignatureLocation.t num)
  : string * nat * num * num * num * num :=
  (SignatureLocation.id s, SignatureLocation.pageIndex s,
   SignatureLocation.x s, SignatureLocation.y s,
   SignatureLocation.width s, SignatureLocation.height s).

(** A serialiser for the examples: the payloads drawn, page by page. *)
Definition sample_serialize (pages : list (PdfLib.page Q)) : string :=
  String.concat "|"
    (map (fun p => String.concat ","
                     (map (fun d => PdfLib.payload (PdfLib.dimage d))
                          (PdfLib.content p)))
         pages).

(** The view on [sample_document] with the given placements, over the
    given store, before the save button is pressed. *)
Definition sample_save_view (signatures : list (SignatureLocation.t Q))
    (ls : @local_storage Q) : save_view :=
  mkSaveView (mkSigning (sample_document signatures) None false []) false false ls.

(* ================================================================== *)
(** ** The text sample: [extractTextFromFirstPage] *)

Section TextSample.
Context {num : Type}.
Variable getDocument : string -> option (PdfJs.document num).

(** [pdf.getPage(1)]: the first page, rejected when there is none. *)
Definition getPage1 (pdf : PdfJs.document num) : option (PdfJs.page num) :=
  match pdf with
  | Some page :: _ => Some page
  | _ => None
  end.

(** [textContent.items.map(item => item.str).join(' ')] *)
Definition join_items (items : list (PdfJs.item num)) : string :=
  String.concat " " (map PdfJs.str items).

Definition extract_body (base64Data : string) : M unit string :=
  try_catch
    (bind (await (getDocument base64Data) DocumentLoadError) (fun pdf =>
     bind (await (getPage1 pdf) (PageExtractionError 1)) (fun page =>
     bind (await (PdfJs.textContent page) (PageExtractionError 1)) (fun items =>
     ret (join_items items)))))
    (fun e => ret "" (* console.error("Text extraction failed", e) *)).

Definition extractTextFromFirstPage (base64Data : string) : completion string :=
  fst (extract_body base64Data tt).

End TextSample.

(* ================================================================== *)
(** ** The metadata analysis: [analyzeDocumentContent] *)

Module Gemini.

(** A value as [JSON.parse] returns it, and [undefined], which reading
    a property can give. *)
#[warnings="-register-all"] Inductive value : Type :=
  | Undefined
  | Null
  | Bool (b : bool)
  | Num (n : float)
  | Str (s : string)
  | Arr (elements : list value)
  | Obj (properties : list (string * value)).

(** ToBoolean. *)
Definition truthy (v : value) : bool :=
  match v with
  | Undefined | Null => false
  | Bool b => b
  | Num n => F64.to_boolean n
  | Str s => negb (s =? "")%string
  | Arr _ | Obj _ => true
  end.

(** [a || b]. *)
Definition or (a b : value) : value := if truthy a then a else b.

(** [result.name], for the names the function reads ([title], [summary],
    [tags], which no prototype defines): a [TypeError] on [null] and
    [undefined], the own property of an object, [undefined] where there
    is none and on every other value. *)
Definition get (result : value) (name : string) : completion value :=
  match result with
  | Undefined | Null => Thrown (TypeError_undefined name)
  | Obj properties =>
      Returned match find (fun kv => (fst kv =? name)%string) properties with
               | Some (_, v) => v
               | None => Undefined
               end
  | _ => Returned Undefined
  end.

Record analysis : Type := mkAnalysis {
  title   : value;
  summary : value;
  tags    : value
}.

(** [s || d] on an optional string. *)
Definition string_or (s : option string) (d : string) : string :=
  match s with
  | Some v => if (v =? "")%string then d else v
  | None => d
  end.

Definition newline : string := String "010"%char EmptyString.

(** The template literal of the request, around
    [textSample.substring(0, 2000)]. *)
Definition contents (textSample : string) : string :=
  ("Analyze the following text extracted from the first page of a document. "
   ++ newline
   ++ "      Generate a concise title, a one-sentence summary, and 3 relevant tags."
   ++ newline
   ++ "      " ++ newline
   ++ "      Text:" ++ newline
   ++ "      " ++ substr textSample 0 2000)%string.

Section Analyze.
(** [process.env.API_KEY]. *)
Variable API_KEY : option string.
(** [ai.models.generateContent] on the contents of the request: [None]
    when it rejects, else [response.text], which may be undefined. *)
Variable generateContent : string -> option (option string).
(** [JSON.parse]: [None] when it throws a [SyntaxError]. *)
Variable JSON_parse : string -> option value.

Definition failed : analysis :=
  mkAnalysis (Str "Scanned Document") (Str "Automatic analysis failed.")
             (Arr [Str "Uncategorized"]).

Definition analyzeDocumentContent (textSample : string) : analysis :=
  match string_or API_KEY "" with
  | EmptyString =>                                   (* !process.env.API_KEY *)
      mkAnalysis (Str "Untitled Document")
                 (Str "No API Key provided for analysis.")
                 (Arr [Str "Pending"])
  | _ =>
      match generateContent (contents textSample) with
      | None => failed                               (* catch *)
      | Some text =>
          match JSON_parse (string_or text "{}") with
          | None => failed                           (* catch *)
          | Some result =>
              match get result "title", get result "summary", get result "tags" with
              | Returned title, Returned summary, Returned tags =>
                  mkAnalysis
                    (or title (Str "Untitled Document"))
                    (or summary (Str "No description available."))
                    (or tags (Arr [Str "Document"]))
              | _, _, _ => failed                    (* catch *)
              end
          end
      end
  end.

End Analyze.
End Gemini.

(* ================================================================== *)
(** ** The dashboard list: [filteredDocs] *)

Section Dashboard.
Context {num : Type}.
(** [String.prototype.toLowerCase]. *)
Variable toLowerCase : string -> string.

Definition filteredDocs (documents : list (DocumentMetadata.t num))
    (searchQuery filter : string) : list (DocumentMetadata.t num) :=
  List.filter
    (fun doc =>
       let matchesSearch :=
         includes (toLowerCase (DocumentMetadata.title doc)) (toLowerCase searchQuery)
         || includes (toLowerCase (DocumentMetadata.filename doc))
                     (toLowerCase searchQuery) in
       let matchesFilter :=
         (filter =? "all")%string || (DocumentMetadata.status doc =? filter)%string in
       matchesSearch && matchesFilter)
    documents.

End Dashboard.

(* ================================================================== *)
(** ** The application shell: which screen is shown *)

Section AppShell.
Context {num : Type}.

(** Modelled from the spec: the enumeration [AppView] of the module
    [types], which is not among the source files; the shell uses its
    members [DASHBOARD] and [SIGNING]. *)
Inductive AppView : Type := DASHBOARD | SIGNING.

Record app_state : Type := mkApp {
  currentView       : AppView;
  activeDocument    : option (DocumentMetadata.t num);
  isUploadModalOpen : bool
}.

(** The state of [useState] on mount (and after a page reload). *)
Definition app_initial : app_state := mkApp DASHBOARD None false.

Definition handleOpenDocument (doc : DocumentMetadata.t num) (st : app_state)
  : app_state :=
  mkApp SIGNING (Some doc) (isUploadModalOpen st).

Definition handleBackToDashboard (st : app_state) : app_state :=
  mkApp DASHBOARD None (isUploadModalOpen st).

(** [setIsUploadModalOpen(false); window.location.reload()]. *)
Definition handleUploadComplete (st : app_state) : app_state := app_initial.

(** What the user and the children of the shell can make it do. *)
Inductive app_event : Type :=
  | OpenDocument (doc : DocumentMetadata.t num)   (* Dashboard: onOpenDocument *)
  | Back                                          (* SigningInterface: onBack, onSave *)
  | UploadClick                                   (* Dashboard: onUploadClick *)
  | UploadClose                                   (* UploadModal: onClose *)
  | UploadComplete.                               (* UploadModal: onUploadComplete *)

Definition app_step (st : app_state) (ev : app_event) : app_state :=
  match ev with
  | OpenDocument doc => handleOpenDocument doc st
  | Back => handleBackToDashboard st
  | UploadClick => mkApp (currentView st) (activeDocument st) true
  | UploadClose => mkApp (currentView st) (activeDocument st) false
  | UploadComplete => handleUploadComplete st
  end.

(** The two screens of the render: [currentView === DASHBOARD && ...]
    and [currentView === SIGNING && activeDocument && ...]. *)
Definition shows_dashboard (st : app_state) : bool :=
  match currentView st with DASHBOARD => true | SIGNING => false end.

Definition shows_signing (st : app_state) : option (DocumentMetadata.t num) :=
  match currentView st with
  | SIGNING => activeDocument st
  | DASHBOARD => None
  end.

End AppShell.

(** The view and the active document agree: the view is [SIGNING]
    exactly when a document is active. *)
Definition view_matches_document {num} (st : @app_state num) : Prop :=
  match currentView st, activeDocument st with
  | DASHBOARD, None => True
  | SIGNING, Some _ => True
  | _, _ => False
  end.

(* ================================================================== *)
(** ** What the share menu sends: the head of [handleShare] *)

(** [dataToShare]: the handler returns at once when the view's document
    has neither signed nor original data; else it sends
    [currentDoc.signedPdfData || currentDoc.originalPdfData]. *)
Definition dataToShare {num} (currentDoc : DocumentMetadata.t num) : option string :=
  match truthy_id (DocumentMetadata.signedPdfData currentDoc) with
  | Some signed => Some signed
  | None => truthy_id (Some (DocumentMetadata.originalPdfData currentDoc))
  end.

(* ================================================================== *)
(** ** What [JSON.stringify] and [JSON.parse] do to a stored record *)

(** A number written by [JSON.stringify] and read back by [JSON.parse]:
    a finite number comes back as it was, except that -0 comes back as
    0; NaN and the infinities are written as [null] ([None]). *)
Definition JSON_number {num} `{Number num} (x : num) : option num :=
  if isFinite x
  then Some (if truthy x then x else lit 0)
  else None.

(** Every element is there: the list of them; else nothing. *)
Fixpoint all_some {A} (l : list (option A)) : option (list A) :=
  match l with
  | [] => Some []
  | None :: _ => None
  | Some a :: rest =>
      match all_some rest with
      | Some rest' => Some (a :: rest')
      | None => None
      end
  end.

(** A placement written and read back.  The identifier, the page index
    (an integer) and the mark come back as they were, an absent mark as
    absent; [None] when one of the four numbers was written as [null],
    which no placement of this type has. *)
Definition JSON_signature {num} `{Number num} (s : SignatureLocation.t num)
  : option (SignatureLocation.t num) :=
  match JSON_number (SignatureLocation.x s), JSON_number (SignatureLocation.y s),
        JSON_number (SignatureLocation.width s),
        JSON_number (SignatureLocation.height s) with
  | Some x, Some y, Some width, Some height =>
      Some (SignatureLocation.mk (SignatureLocation.id s)
              (SignatureLocation.pageIndex s) x y width height
              (SignatureLocation.value s))
  | _, _, _, _ => None
  end.

(** A record written and read back: its strings as they were, its
    placements one by one. *)
Definition JSON_document {num} `{Number num} (doc : DocumentMetadata.t num)
  : option (DocumentMetadata.t num) :=
  match all_some (map JSON_signature (DocumentMetadata.signatures doc)) with
  | Some signatures =>
      Some (DocumentMetadata.mk (DocumentMetadata.id doc)
              (DocumentMetadata.title doc) (DocumentMetadata.filename doc)
              (DocumentMetadata.uploadDate doc) (DocumentMetadata.status doc)
              (DocumentMetadata.tags doc) (DocumentMetadata.summary doc)
              (DocumentMetadata.originalPdfData doc)
              (DocumentMetadata.signedPdfData doc) signatures)
  | None => None
  end.

(** [JSON.parse(JSON.stringify(docs))]: what [getDocuments] reads from
    the text that [saveDocument] wrote for the array [docs]. *)
Definition JSON_read_back {num} `{Number num} (docs : list (DocumentMetadata.t num))
  : option (list (DocumentMetadata.t num)) :=
  all_some (map JSON_document docs).

(** The record reads back from the store as it was written: strings,
    arrays and the page index always do, so this is a condition on the
    four numbers of every placement. *)
Definition survives_JSON {num} `{Number num} (doc : DocumentMetadata.t num) : Prop :=
  Forall (fun s =>
            JSON_number (SignatureLocation.x s) = Some (SignatureLocation.x s)
            /\ JSON_number (SignatureLocation.y s) = Some (SignatureLocation.y s)
            /\ JSON_number (SignatureLocation.width s)
               = Some (SignatureLocation.width s)
            /\ JSON_number (SignatureLocation.height s)
               = Some (SignatureLocation.height s))
         (DocumentMetadata.signatures doc).

(* ================================================================== *)
(** ** Rounding in binary64 *)

(** Half a unit in the last place of a normal number, relative to the
    number: 2^-53; and the same seen from the exact value,
    2^-53 / (1 - 2^-53). *)
Definition u64 : Q := 1 # 9007199254740992.

Definition u64' : Q := 1 # 9007199254740991.

(** The least positive number of binary64, 2^-1074, and half of it. *)
Definition tiny64 : Q := pow2 (-1074).

Definition eta64 : Q := pow2 (-1075).

(** Where a value lies relative to an integer and the next one, in the
    terms of the kernel's specification: on the integer, or strictly
    between the two and below, at or above the middle. *)
Definition inbetween (m : Z) (l : location) (x : Q) : Prop :=
  match l with
  | loc_Exact => (x == inject_Z m)%Q
  | loc_Inexact c =>
      (inject_Z m < x)%Q /\ (x < inject_Z m + 1)%Q
      /\ (x ?= inject_Z m + (1 # 2))%Q = c
  end.

(** A mantissa with its round and sticky bits locates the value. *)
Definition located (mrs : shr_record) (x : Q) : Prop :=
  (0 <= shr_m mrs)%Z /\ inbetween (shr_m mrs) (loc_of_shr_record mrs) x.

(** Powers of two as atoms, for linear arithmetic. *)
Ltac pow_atoms :=
  repeat match goal with
         | |- context [Z.pow 2 ?e] =>
             let x := fresh "pw" in set (x := Z.pow 2 e) in *; clearbody x
         | H : context [Z.pow 2 ?e] |- _ =>
             let x := fresh "pw" in set (x := Z.pow 2 e) in *; clearbody x
         end.

(** Comparisons of rationals as order facts. *)
Ltac compare_to_order :=
  repeat match goal with
         | H : (_ ?= _)%Q = Lt |- _ => apply (proj2 (Qlt_alt _ _)) in H
         | H : (_ ?= _)%Q = Gt |- _ => apply (proj2 (Qgt_alt _ _)) in H
         | H : (_ ?= _)%Q = Eq |- _ => apply (proj2 (Qeq_alt _ _)) in H
         | |- (_ ?= _)%Q = Lt => apply (proj1 (Qlt_alt _ _))
         | |- (_ ?= _)%Q = Gt => apply (proj1 (Qgt_alt _ _))
         | |- (_ ?= _)%Q = Eq => apply (proj1 (Qeq_alt _ _))
         end.

(* ================================================================== *)
(** * Properties *)

(** ** Computations that keep an invariant of the state *)

Section Invariants.
Variable S : Type.
Variable P : S -> Prop.

Lemma keeps_ret {A} (a : A) : keeps P (@ret S A a).
Proof. intros s Hs; exact Hs. Qed.

Lemma keeps_throw {A} (e : js_error) : keeps P (@throw S A e).
Proof. intros s Hs; exact Hs. Qed.

Lemma keeps_await {A} (p : option A) (e : js_error) : keeps P (@await S A p e).
Proof. destruct p; [apply keeps_ret | apply keeps_throw]. Qed.

Lemma keeps_bind {A B} (m : M S A) (k : A -> M S B) :
  keeps P m -> (forall a, keeps P (k a)) -> keeps P (bind m k).
Proof.
  intros Hm Hk s Hs. unfold bind.
  specialize (Hm s Hs). destruct (m s) as [[a | e] s']; simpl in *.
  - apply Hk, Hm.
  - exact Hm.
Qed.

Lemma keeps_for_of {A} (xs : list A) (body : A -> M S unit) :
  (forall x, keeps P (body x)) -> keeps P (for_of xs body).
Proof.
  intros Hbody. induction xs as [| x rest IH]; simpl.
  - apply keeps_ret.
  - apply keeps_bind; [apply Hbody | intros _; exact IH].
Qed.

End Invariants.

(** ** The scanner *)

Section ScannerFacts.
Context {num : Type} `{Number num}.
Variable getDocument : string -> option (PdfJs.document num).
Variable random : nat -> num.
Variable toString36 : num -> string.

(** The scan settles to the array as the [try] block left it. *)
Lemma scanForSignatures_loaded (base64Data : string) (pdf : PdfJs.document num) :
  getDocument base64Data = Some pdf ->
  scanForSignatures getDocument random toString36 base64Data
  = Returned (signatureLocations
                (snd (scan_pages random toString36 pdf 1 (mkScan [] 0)))).
Proof.
  intros Hdoc. unfold scanForSignatures, scan_body.
  unfold bind at 1. unfold try_catch. unfold bind at 1.
  rewrite Hdoc. simpl.
  destruct (scan_pages random toString36 pdf 1 (mkScan [] 0)) as [[[] | e] s'];
    reflexivity.
Qed.

Lemma scanForSignatures_not_loaded (base64Data : string) :
  getDocument base64Data = None ->
  scanForSignatures getDocument random toString36 base64Data = Returned [].
Proof.
  intros Hdoc. unfold scanForSignatures, scan_body.
  unfold bind at 1. unfold try_catch. unfold bind at 1.
  rewrite Hdoc. reflexivity.
Qed.

(** A page whose extraction fails ends the loop: the state is the one
    the pages before it produced. *)
Lemma scan_pages_stops (pre : PdfJs.document num) (bad : option (PdfJs.page num))
    (post : PdfJs.document num) :
  page_fails bad = true ->
  forall i s,
    snd (scan_pages random toString36 (pre ++ bad :: post) i s)
    = snd (scan_pages random toString36 pre i s).
Proof.
  intros Hbad. induction pre as [| p pre IH]; intros i s.
  - simpl. unfold bind.
    destruct bad as [page |]; simpl in *; [| reflexivity].
    destruct (PdfJs.textContent page); [discriminate | reflexivity].
  - simpl. unfold bind.
    destruct p as [page |]; simpl; [| reflexivity].
    destruct (PdfJs.textContent page) as [items |]; simpl; [| reflexivity].
    destruct (for_of items (scan_item random toString36 i (PdfJs.getViewport page)) s)
      as [[[] | e] s']; simpl; [apply IH | reflexivity].
Qed.

(** Without a marker nothing is pushed and nothing is drawn from the
    generator. *)
Lemma scan_pages_no_markers (pdf : PdfJs.document num) :
  no_markers pdf = true ->
  forall i s, snd (scan_pages random toString36 pdf i s) = s.
Proof.
  induction pdf as [| p rest IH]; intros Hno i s; [reflexivity |].
  simpl in Hno. apply andb_prop in Hno. destruct Hno as [Hp Hrest].
  simpl. unfold bind.
  destruct p as [page |]; simpl; [| reflexivity].
  destruct (PdfJs.textContent page) as [items |]; simpl; [| reflexivity].
  assert (Hitems : for_of items (scan_item random toString36 i (PdfJs.getViewport page)) s
                   = (Returned tt, s)).
  { clear - Hp. induction items as [| item items IHitems]; [reflexivity |].
    simpl in Hp. apply andb_prop in Hp. destruct Hp as [Hitem Hitems].
    simpl. unfold bind. unfold scan_item at 1.
    apply negb_true_iff in Hitem. rewrite Hitem. simpl. exact (IHitems Hitems). }
  rewrite Hitems. simpl. exact (IH Hrest (S i) s).
Qed.

(** Every placement made while scanning page [i] carries [i - 1]. *)
Lemma scan_item_pageIndex (n i : nat) (viewport : PdfJs.viewport num)
    (item : PdfJs.item num) :
  i - 1 < n ->
  keeps (fun s => Forall (fun l => SignatureLocation.pageIndex l < n)
                         (signatureLocations s))
        (scan_item random toString36 i viewport item).
Proof.
  intros Hi s Hs. unfold scan_item.
  destruct (includes (PdfJs.str item) "$signature"); [| exact Hs].
  simpl. apply Forall_app. split; [exact Hs |].
  constructor; [exact Hi | constructor].
Qed.

Lemma scan_pages_pageIndex (n : nat) (pages : PdfJs.document num) :
  forall i, 1 <= i -> i + List.length pages <= S n ->
  keeps (fun s => Forall (fun l => SignatureLocation.pageIndex l < n)
                         (signatureLocations s))
        (scan_pages random toString36 pages i).
Proof.
  induction pages as [| p rest IH]; intros i Hi Hn; simpl.
  - apply keeps_ret.
  - simpl in Hn.
    apply keeps_bind; [apply keeps_await | intros page].
    apply keeps_bind; [apply keeps_await | intros items].
    apply keeps_bind.
    + apply keeps_for_of. intros item. apply scan_item_pageIndex. lia.
    + intros _. apply IH; lia.
Qed.

(** The identifiers are the draws of the run, in order. *)
Lemma scan_item_ids (i : nat) (viewport : PdfJs.viewport num) (item : PdfJs.item num) :
  keeps (fun s => map SignatureLocation.id (signatureLocations s)
                  = map (id_of_draw random toString36) (seq 0 (randomCalls s)))
        (scan_item random toString36 i viewport item).
Proof.
  intros s Hs. unfold scan_item.
  destruct (includes (PdfJs.str item) "$signature"); [| exact Hs].
  unfold bind, math_random, push, modify.
  cbn [snd signatureLocations randomCalls].
  rewrite map_app, seq_S, map_app, Hs. reflexivity.
Qed.

Lemma scan_pages_ids (pages : PdfJs.document num) :
  forall i,
  keeps (fun s => map SignatureLocation.id (signatureLocations s)
                  = map (id_of_draw random toString36) (seq 0 (randomCalls s)))
        (scan_pages random toString36 pages i).
Proof.
  induction pages as [| p rest IH]; intros i; simpl.
  - apply keeps_ret.
  - apply keeps_bind; [apply keeps_await | intros page].
    apply keeps_bind; [apply keeps_await | intros items].
    apply keeps_bind.
    + apply keeps_for_of. intros item. apply scan_item_ids.
    + intros _. apply IH.
Qed.

End ScannerFacts.

(** *** Claims on the scanner *)

(** C3. Scanning a one-page 612 by 792 document whose text layer is one
    fragment equal to ["$signature"], at origin (100, 700) and with no
    reported height, yields exactly one placement: page index 0,
    x = 100/612, y = (792 - 700 - 12)/792 (the fallback height 12),
    width 150/612 and height 60/792.  The width and height stay the same
    whatever width and height the text layer reports for the fragment.
    Holds in every arithmetic, binary64 included. *)
Theorem scan_single_marker :
  forall (num : Type) (N : Number num)
         (getDocument : string -> option (PdfJs.document num))
         (random : nat -> num) (toString36 : num -> string)
         (base64Data : string) (t0 t1 t2 t3 : num) (w : option num),
    getDocument base64Data
    = Some [Some (PdfJs.mkPage (PdfJs.mkViewport (lit 612) (lit 792))
                    (Some [PdfJs.mkItem "$signature"
                             (PdfJs.mkTransform t0 t1 t2 t3 (lit 100) (lit 700))
                             w None]))] ->
    scanForSignatures getDocument random toString36 base64Data
    = Returned
        [SignatureLocation.mk (id_of_draw random toString36 0) 0
           (lit 100 / lit 612)%js
           ((lit 792 - lit 700 - lit 12) / lit 792)%js
           (lit 150 / lit 612)%js
           (lit 60 / lit 792)%js
           None]
    /\ (forall (getDocument' : string -> option (PdfJs.document num))
               (w' h' : option num),
          getDocument' base64Data
          = Some [Some (PdfJs.mkPage (PdfJs.mkViewport (lit 612) (lit 792))
                          (Some [PdfJs.mkItem "$signature"
                                   (PdfJs.mkTransform t0 t1 t2 t3 (lit 100) (lit 700))
                                   w' h']))] ->
          exists loc,
            scanForSignatures getDocument' random toString36 base64Data
            = Returned [loc]
            /\ SignatureLocation.pageIndex loc = 0
            /\ SignatureLocation.width loc = (lit 150 / lit 612)%js
            /\ SignatureLocation.height loc = (lit 60 / lit 792)%js).
Proof.
  intros num N getDocument random toString36 base64Data t0 t1 t2 t3 w Hdoc.
  split.
  - rewrite (scanForSignatures_loaded _ _ _ _ Hdoc). reflexivity.
  - intros getDocument' w' h' Hdoc'.
    rewrite (scanForSignatures_loaded _ _ _ _ Hdoc').
    eexists. split; [reflexivity |]. repeat split.
Qed.

(** The run of C3 in binary64: the numbers the program stores. *)
Lemma scan_single_marker_witness :
  sample_getDocument "data:application/pdf;base64,ONE"
  = Some [Some (PdfJs.mkPage (PdfJs.mkViewport (lit 612) (lit 792))
                  (Some [PdfJs.mkItem "$signature"
                           (PdfJs.mkTransform (lit 12) (lit 0) (lit 0) (lit 12)
                                              (lit 100) (lit 700))
                           None None]))]
  /\ scanForSignatures sample_getDocument constant_random sample_toString36
       "data:application/pdf;base64,ONE"
     = Returned [letter_placement_binary64 "i"].
Proof.
  split; [reflexivity |].
  exact (proj1 (@scan_single_marker float Number_float sample_getDocument
                  constant_random sample_toString36
                  "data:application/pdf;base64,ONE"
                  (lit 12) (lit 0) (lit 0) (lit 12) None eq_refl)).
Defined.

(** C2, as the code has it.  If extraction fails on a page, the scan
    stops there and still returns: the result is what scanning the pages
    before the failing one yields, so the failing page and every page
    after it contribute no placement. *)
Theorem scan_stops_at_failing_page :
  forall (num : Type) (N : Number num)
         (getDocument : string -> option (PdfJs.document num))
         (random : nat -> num) (toString36 : num -> string)
         (base64Data : string)
         (pre : PdfJs.document num) (bad : option (PdfJs.page num))
         (post : PdfJs.document num),
    getDocument base64Data = Some (pre ++ bad :: post) ->
    page_fails bad = true ->
    exists locs,
      scanForSignatures getDocument random toString36 base64Data = Returned locs
      /\ scanForSignatures (fun _ => Some pre) random toString36 base64Data
         = Returned locs
      /\ Forall (fun l => SignatureLocation.pageIndex l < List.length pre) locs.
Proof.
  intros num N getDocument random toString36 base64Data pre bad post Hdoc Hbad.
  rewrite (scanForSignatures_loaded _ _ _ _ Hdoc).
  rewrite (scanForSignatures_loaded (fun _ => Some pre) random toString36
             base64Data eq_refl).
  rewrite (scan_pages_stops random toString36 pre bad post Hbad).
  eexists. split; [reflexivity |]. split; [reflexivity |].
  apply (@scan_pages_pageIndex num N random toString36 (List.length pre) pre 1);
    [lia | simpl; lia | constructor].
Qed.

Lemma scan_stops_at_failing_page_witness :
  exists locs,
    scanForSignatures (@sample_getDocument float _) constant_random
      sample_toString36 "data:application/pdf;base64,BROKEN-FIRST"
    = Returned locs
    /\ scanForSignatures (fun _ => Some []) constant_random sample_toString36
         "data:application/pdf;base64,BROKEN-FIRST"
       = Returned locs
    /\ Forall (fun l => SignatureLocation.pageIndex l < 0) locs.
Proof.
  exact (@scan_stops_at_failing_page float Number_float sample_getDocument
           constant_random sample_toString36
           "data:application/pdf;base64,BROKEN-FIRST"
           [] failing_page [letter_page [marker_item None None]]
           eq_refl eq_refl).
Defined.

(** C2 as stated fails: extraction fails on the first page of a two-page
    document whose second page holds a marker, and the scan returns the
    empty sequence; the second page, scanned on its own, yields a
    placement. *)
Lemma scan_page_failure_drops_later_pages :
  @sample_getDocument float _ "data:application/pdf;base64,BROKEN-FIRST"
  = Some [failing_page; letter_page [marker_item None None]]
  /\ page_fails (@failing_page float _) = true
  /\ scanForSignatures (@sample_getDocument float _) constant_random
       sample_toString36 "data:application/pdf;base64,BROKEN-FIRST"
     = Returned []
  /\ scanForSignatures (fun _ => Some [letter_page [marker_item None None]])
       constant_random sample_toString36 "data:application/pdf;base64,BROKEN-FIRST"
     = Returned [letter_placement_binary64 "i"].
Proof. repeat split. Qed.

(** C8, as the code has it.  The scan returns, and the identifiers of
    its placements are the draws of the generator in order, cut to
    [substr(2, 9)] of their base-36 text; they are pairwise distinct
    whenever those draws give pairwise distinct texts.  Nothing in the
    scan compares identifiers. *)
Theorem scan_ids_are_the_draws :
  forall (num : Type) (N : Number num)
         (getDocument : string -> option (PdfJs.document num))
         (random : nat -> num) (toString36 : num -> string)
         (base64Data : string),
    exists locs,
      scanForSignatures getDocument random toString36 base64Data = Returned locs
      /\ map SignatureLocation.id locs
         = map (id_of_draw random toString36) (seq 0 (List.length locs))
      /\ (NoDup (map (id_of_draw random toString36) (seq 0 (List.length locs))) ->
          NoDup (map SignatureLocation.id locs)).
Proof.
  intros num N getDocument random toString36 base64Data.
  assert (Hids : forall pdf,
             let s := snd (scan_pages random toString36 pdf 1 (mkScan [] 0)) in
             map SignatureLocation.id (signatureLocations s)
             = map (id_of_draw random toString36)
                   (seq 0 (List.length (signatureLocations s)))).
  { intros pdf s.
    pose proof (@scan_pages_ids num N random toString36 pdf 1 (mkScan [] 0) eq_refl)
      as Hs.
    fold s in Hs.
    assert (Hlen : List.length (signatureLocations s) = randomCalls s).
    { rewrite <- (length_map SignatureLocation.id), Hs, length_map, length_seq.
      reflexivity. }
    rewrite Hlen. exact Hs. }
  destruct (getDocument base64Data) as [pdf |] eqn:Hdoc.
  - rewrite (scanForSignatures_loaded _ _ _ _ Hdoc).
    eexists. split; [reflexivity |]. split.
    + apply Hids.
    + intros Hnd. rewrite (Hids pdf). exact Hnd.
  - rewrite (scanForSignatures_not_loaded _ _ _ _ Hdoc).
    exists []. split; [reflexivity |]. split; [reflexivity |].
    intros _. constructor.
Qed.

Lemma scan_ids_are_the_draws_witness :
  exists locs,
    scanForSignatures (@sample_getDocument float _) halving_random
      sample_toString36 "data:application/pdf;base64,TWO"
    = Returned locs
    /\ map SignatureLocation.id locs = ["i"; "9"]
    /\ NoDup (map SignatureLocation.id locs).
Proof.
  destruct (@scan_ids_are_the_draws float Number_float sample_getDocument
              halving_random sample_toString36 "data:application/pdf;base64,TWO")
    as (locs & Hrun & Hids & Hdistinct).
  exists locs. split; [exact Hrun |].
  assert (Hlen : List.length locs = 2).
  { change (List.length
              match Returned (A := list (SignatureLocation.t float)) locs with
              | Returned l => l
              | Thrown _ => []
              end = 2).
    rewrite <- Hrun. reflexivity. }
  rewrite Hlen in Hids, Hdistinct. split; [exact Hids |].
  apply Hdistinct. simpl.
  constructor; [| constructor; [| constructor]].
  - intros [E | []]. discriminate E.
  - intros [].
Defined.

(** C8 as stated fails: when the generator draws the same value twice,
    the two placements of one scan pass carry the same identifier. *)
Lemma scan_ids_collide :
  scanForSignatures (@sample_getDocument float _) constant_random
    sample_toString36 "data:application/pdf;base64,TWO"
  = Returned [letter_placement_binary64 "i"; letter_placement_binary64 "i"]
  /\ ~ NoDup
        (map SignatureLocation.id
           [letter_placement_binary64 "i"; letter_placement_binary64 "i"]).
Proof.
  split; [reflexivity |].
  intros Hnd. inversion Hnd as [| a l Hin _]. apply Hin. left. reflexivity.
Qed.

(** C9, as the code has it.  When the bytes do not parse, the scan does
    not fail: the exception is caught and logged, and the promise is
    fulfilled with the empty placement sequence, which is also what
    every document that parses and holds no marker gives. *)
Theorem scan_of_unparseable_is_empty :
  forall (num : Type) (N : Number num)
         (getDocument : string -> option (PdfJs.document num))
         (random : nat -> num) (toString36 : num -> string)
         (base64Data : string),
    getDocument base64Data = None ->
    scanForSignatures getDocument random toString36 base64Data = Returned []
    /\ (forall (getDocument' : string -> option (PdfJs.document num))
               (valid : string) (pdf : PdfJs.document num),
          getDocument' valid = Some pdf ->
          no_markers pdf = true ->
          scanForSignatures getDocument' random toString36 valid
          = scanForSignatures getDocument random toString36 base64Data).
Proof.
  intros num N getDocument random toString36 base64Data Hdoc.
  rewrite (scanForSignatures_not_loaded _ _ _ _ Hdoc).
  split; [reflexivity |].
  intros getDocument' valid pdf Hvalid Hno.
  rewrite (scanForSignatures_loaded _ _ _ _ Hvalid).
  rewrite (scan_pages_no_markers random toString36 pdf Hno). reflexivity.
Qed.

Lemma scan_of_unparseable_is_empty_witness :
  @sample_getDocument float _ "not a document" = None
  /\ scanForSignatures (@sample_getDocument float _) constant_random
       sample_toString36 "not a document"
     = Returned []
  /\ scanForSignatures (@sample_getDocument float _) constant_random
       sample_toString36 "data:application/pdf;base64,BLANK"
     = scanForSignatures (@sample_getDocument float _) constant_random
         sample_toString36 "not a document".
Proof.
  destruct (@scan_of_unparseable_is_empty float Number_float sample_getDocument
              constant_random sample_toString36 "not a document" eq_refl)
    as [Hempty Hsame].
  split; [reflexivity |]. split; [exact Hempty |].
  exact (Hsame sample_getDocument "data:application/pdf;base64,BLANK"
               [letter_page []] eq_refl eq_refl).
Defined.

(** C9 as stated fails: bytes that do not parse give the same fulfilled
    result as a valid document without markers, and no failure reaches
    the caller. *)
Lemma scan_unparseable_like_blank :
  @sample_getDocument float _ "not a document" = None
  /\ @sample_getDocument float _ "data:application/pdf;base64,BLANK"
     = Some [letter_page []]
  /\ scanForSignatures (@sample_getDocument float _) constant_random
       sample_toString36 "not a document"
     = Returned []
  /\ scanForSignatures (@sample_getDocument float _) constant_random
       sample_toString36 "data:application/pdf;base64,BLANK"
     = Returned [].
Proof. repeat split. Qed.

(** ** The embedding engine *)

Lemma set_nth_length {A} (i : nat) (v : A) (xs : list A) :
  List.length (set_nth i v xs) = List.length xs.
Proof.
  revert i. induction xs as [| a rest IH]; intros [| j]; simpl; auto.
Qed.

Lemma for_of_app {S A} (xs ys : list A) (body : A -> M S unit) (s : S) :
  for_of (xs ++ ys) body s = bind (for_of xs body) (fun _ => for_of ys body) s.
Proof.
  revert s. induction xs as [| x rest IH]; intros s; simpl.
  - reflexivity.
  - unfold bind. destruct (body x s) as [[[] | e] s']; [| reflexivity].
    rewrite IH. reflexivity.
Qed.

(** Dropping elements on which the body does nothing changes no run. *)
Lemma for_of_filter {S A} (keep : A -> bool) (body : A -> M S unit) (xs : list A) :
  (forall x s, keep x = false -> body x s = (Returned tt, s)) ->
  forall s, for_of xs body s = for_of (filter keep xs) body s.
Proof.
  intros Hskip. induction xs as [| x rest IH]; intros s; simpl.
  - reflexivity.
  - destruct (keep x) eqn:Hk; simpl; unfold bind.
    + destruct (body x s) as [[[] | e] s']; [apply IH | reflexivity].
    + rewrite (Hskip x s Hk). apply IH.
Qed.

Section EmbeddingFacts.
Context {num : Type} `{Number num}.
Variable load : string -> option (list (PdfLib.page num)).
Variable embedPng : string -> option (PdfLib.image num).

Lemma embed_one_skips (sig : SignatureLocation.t num) (pages : list (PdfLib.page num)) :
  mark_of sig = None -> embed_one embedPng sig pages = (Returned tt, pages).
Proof. intros Hm. unfold embed_one. rewrite Hm. reflexivity. Qed.

Lemma absent_mark_of (sig : SignatureLocation.t num) :
  absent sig = true -> mark_of sig = None.
Proof.
  unfold absent, mark_of. destruct (SignatureLocation.value sig); [discriminate | auto].
Qed.

Lemma drawImage_size (p p' : PdfLib.page num) (d : PdfLib.drawn num) :
  PdfLib.drawImage p d = Returned p' -> PdfLib.getSize p' = PdfLib.getSize p.
Proof.
  unfold PdfLib.drawImage. destruct (PdfLib.check_options d); [| discriminate].
  intros E. injection E as <-. reflexivity.
Qed.

(** The loop body never changes the number of pages. *)
Lemma embed_one_page_count (n : nat) (sig : SignatureLocation.t num) :
  keeps (fun pages : list (PdfLib.page num) => List.length pages = n)
        (embed_one embedPng sig).
Proof.
  intros pages Hn. unfold embed_one.
  destruct (mark_of sig) as [dataUrl |]; [| exact Hn].
  unfold bind, get, call.
  destruct (nth_error pages (SignatureLocation.pageIndex sig)) as [page |];
    simpl; [| exact Hn].
  destruct (embedPng dataUrl) as [img |]; simpl; [| exact Hn].
  destruct (PdfLib.scaleToFit img _ _) as [dims | e]; simpl; [| exact Hn].
  destruct (PdfLib.drawImage page _) as [page' | e]; simpl; [| exact Hn].
  rewrite set_nth_length. exact Hn.
Qed.

(** A marked placement beyond the last page throws where it is reached,
    before its payload is decoded. *)
Lemma embed_one_out_of_range (sig : SignatureLocation.t num) (dataUrl : string)
    (pages : list (PdfLib.page num)) :
  mark_of sig = Some dataUrl ->
  List.length pages <= SignatureLocation.pageIndex sig ->
  embed_one embedPng sig pages = (Thrown (TypeError_undefined "getSize"), pages).
Proof.
  intros Hm Hge. unfold embed_one. rewrite Hm. unfold bind, get.
  apply nth_error_None in Hge. rewrite Hge. reflexivity.
Qed.

Lemma embed_loop_out_of_range (sigs : list (SignatureLocation.t num))
    (sig : SignatureLocation.t num) (dataUrl : string) :
  In sig sigs ->
  mark_of sig = Some dataUrl ->
  forall pages,
    List.length pages <= SignatureLocation.pageIndex sig ->
    exists e, fst (for_of sigs (embed_one embedPng) pages) = Thrown e.
Proof.
  intros Hin Hm. induction sigs as [| s0 rest IH]; intros pages Hge.
  - destruct Hin.
  - simpl. unfold bind.
    destruct Hin as [-> | Hin].
    + rewrite (embed_one_out_of_range _ pages Hm Hge). eexists. reflexivity.
    + pose proof (@embed_one_page_count (List.length pages) s0 pages eq_refl) as Hlen.
      destruct (embed_one embedPng s0 pages) as [[[] | e] pages']; simpl in *.
      * apply (IH Hin). rewrite Hlen. exact Hge.
      * eexists. reflexivity.
Qed.

(** One turn of the loop on a marked placement whose page exists and
    whose payload decodes: the outcome is the one of the two library
    calls. *)
Lemma embed_one_marked (sig : SignatureLocation.t num) (dataUrl : string)
    (pages : list (PdfLib.page num)) (page : PdfLib.page num)
    (img : PdfLib.image num) :
  mark_of sig = Some dataUrl ->
  nth_error pages (SignatureLocation.pageIndex sig) = Some page ->
  embedPng dataUrl = Some img ->
  embed_one embedPng sig pages
  = match drawing (PdfLib.getSize page) img sig with
    | Returned d =>
        (Returned tt,
         set_nth (SignatureLocation.pageIndex sig)
           (PdfLib.mkPage (PdfLib.getSize page) (PdfLib.content page ++ [d]))
           pages)
    | Thrown e => (Thrown e, pages)
    end.
Proof.
  intros Hm Hpage Hpng. unfold embed_one, drawing. rewrite Hm.
  unfold bind, get, call. rewrite Hpage. simpl. rewrite Hpng. simpl.
  destruct (PdfLib.scaleToFit img _ _) as [dims | e]; [| reflexivity].
  unfold PdfLib.drawImage.
  destruct (PdfLib.check_options _) as [[] | e]; reflexivity.
Qed.

End EmbeddingFacts.

(** pdf-lib's [scaleToFit] in exact arithmetic, on an image of positive
    size: the result lies within the box, keeps the ratio of the image,
    and reaches the box on one axis. *)
Lemma scale_to_fit_fits (imageWidth imageHeight boxWidth boxHeight : Q) :
  (0 < imageWidth)%Q -> (0 < imageHeight)%Q ->
  exists dims,
    PdfLib.scale_to_fit imageWidth imageHeight boxWidth boxHeight = Returned dims
    /\ (PdfLib.swidth dims <= boxWidth)%Q
    /\ (PdfLib.sheight dims <= boxHeight)%Q
    /\ (PdfLib.swidth dims * imageHeight == PdfLib.sheight dims * imageWidth)%Q
    /\ (PdfLib.swidth dims == boxWidth \/ PdfLib.sheight dims == boxHeight)%Q.
Proof.
  intros Hw Hh. eexists. split; [reflexivity |]. cbn.
  set (iw := imageWidth) in *. set (ih := imageHeight) in *.
  assert (Hiw : ~ (iw == 0)%Q) by (intros E; rewrite E in Hw; discriminate).
  assert (Hih : ~ (ih == 0)%Q) by (intros E; rewrite E in Hh; discriminate).
  assert (Ea : (iw * (boxWidth / iw) == boxWidth)%Q) by (field; exact Hiw).
  assert (Eb : (ih * (boxHeight / ih) == boxHeight)%Q) by (field; exact Hih).
  pose proof (Q.le_min_l (boxWidth / iw) (boxHeight / ih)) as Hl.
  pose proof (Q.le_min_r (boxWidth / iw) (boxHeight / ih)) as Hr.
  repeat split.
  - rewrite <- Ea at 2. apply Qmult_le_l; assumption.
  - rewrite <- Eb at 2. apply Qmult_le_l; assumption.
  - ring.
  - destruct (Q.min_dec (boxWidth / iw) (boxHeight / ih)) as [E | E].
    + left. rewrite E. exact Ea.
    + right. rewrite E. exact Eb.
Qed.

(** *** Claims on the embedding engine *)

(** C5. When the document loads and some placement with a mark (a
    non-empty [value]) has a page index at or beyond the page count, the
    embedding run fails: its promise is rejected and no document is
    produced.  When the loop reaches that placement, the rejection is the
    [TypeError] raised where [pages[pageIndex]] is [undefined] and its
    [getSize] is read: the engine has no range check and no outcome of
    its own for this case.  When an earlier placement fails, the run ends
    there with that failure. *)
Theorem embed_out_of_range_fails :
  forall (num : Type) (N : Number num)
         (load : string -> option (list (PdfLib.page num)))
         (embedPng : string -> option (PdfLib.image num))
         (originalBase64 : string) (pages : list (PdfLib.page num))
         (signatures : list (SignatureLocation.t num))
         (sig : SignatureLocation.t num) (dataUrl : string),
    load originalBase64 = Some pages ->
    In sig signatures ->
    mark_of sig = Some dataUrl ->
    List.length pages <= SignatureLocation.pageIndex sig ->
    (exists e, embedSignatures load embedPng originalBase64 signatures = Thrown e)
    /\ (forall pre post pages',
          signatures = pre ++ sig :: post ->
          for_of pre (embed_one embedPng) pages = (Returned tt, pages') ->
          embedSignatures load embedPng originalBase64 signatures
          = Thrown (TypeError_undefined "getSize"))
    /\ (forall pre post e pages',
          signatures = pre ++ post ->
          for_of pre (embed_one embedPng) pages = (Thrown e, pages') ->
          embedSignatures load embedPng originalBase64 signatures = Thrown e).
Proof.
  intros num N load embedPng originalBase64 pages signatures sig dataUrl
         Hload Hin Hm Hge.
  unfold embedSignatures, embed_body. rewrite Hload. split; [| split].
  - destruct (embed_loop_out_of_range embedPng signatures sig Hin Hm pages Hge)
      as [e He].
    exists e. unfold bind.
    destruct (for_of signatures (embed_one embedPng) pages) as [[[] | e'] s'];
      simpl in *; [discriminate | congruence].
  - intros pre post pages' -> Hpre.
    pose proof (@keeps_for_of _ (fun p : list (PdfLib.page num) =>
                                   List.length p = List.length pages)
                  _ pre (embed_one embedPng)
                  (@embed_one_page_count num N embedPng (List.length pages))
                  pages eq_refl) as Hlen.
    rewrite Hpre in Hlen. simpl in Hlen.
    unfold bind at 1. rewrite for_of_app. unfold bind at 1. rewrite Hpre.
    simpl. unfold bind at 1.
    rewrite (embed_one_out_of_range embedPng sig pages' Hm); [reflexivity |].
    rewrite Hlen. exact Hge.
  - intros pre post e pages' -> Hpre.
    unfold bind at 1. rewrite for_of_app. unfold bind at 1. rewrite Hpre.
    reflexivity.
Qed.

Lemma embed_out_of_range_fails_witness :
  embedSignatures sample_load sample_embedPng "data:application/pdf;base64,ONE"
    [scanned_placement "a" 0 (Some "data:image/png;base64,WIDE");
     scanned_placement "b" 1 (Some "data:image/png;base64,TALL")]
  = @Thrown (list (PdfLib.page float)) (TypeError_undefined "getSize").
Proof.
  pose proof (@embed_out_of_range_fails float Number_float sample_load
                sample_embedPng "data:application/pdf;base64,ONE"
                [PdfLib.mkPage (PdfLib.mkSize (lit 612) (lit 792)) []]
                [scanned_placement "a" 0 (Some "data:image/png;base64,WIDE");
                 scanned_placement "b" 1 (Some "data:image/png;base64,TALL")]
                (scanned_placement "b" 1 (Some "data:image/png;base64,TALL"))
                "data:image/png;base64,TALL"
                eq_refl (or_intror (or_introl eq_refl)) eq_refl (le_n 1))
    as (_ & Hfirst & _).
  exact (Hfirst [scanned_placement "a" 0 (Some "data:image/png;base64,WIDE")] []
           _ eq_refl eq_refl).
Defined.

(** C5 as stated fails: no failure of the engine is an out-of-range
    outcome.  On a one-page document, a marked placement on page 5 makes
    the run fail with the [TypeError] of reading a property of
    [undefined], the failure any missing object gives; and after a
    placement whose payload does not decode, the run has already failed
    with the decoding error when the placement on page 5 comes, so its
    page index is never looked at. *)
Lemma embed_out_of_range_is_not_told_apart :
  @sample_load float _ "data:application/pdf;base64,ONE"
  = Some [PdfLib.mkPage (PdfLib.mkSize (lit 612) (lit 792)) []]
  /\ embedSignatures sample_load sample_embedPng "data:application/pdf;base64,ONE"
       [scanned_placement "a" 5 (Some "data:image/png;base64,WIDE")]
     = @Thrown (list (PdfLib.page float)) (TypeError_undefined "getSize")
  /\ embedSignatures sample_load sample_embedPng "data:application/pdf;base64,ONE"
       [scanned_placement "b" 0 (Some "data:image/png;base64,BROKEN");
        scanned_placement "a" 5 (Some "data:image/png;base64,WIDE")]
     = @Thrown (list (PdfLib.page float))
         (ImageDecodeError "data:image/png;base64,BROKEN").
Proof. repeat split. Qed.

(** C6. Placements whose mark is absent leave no trace: a run gives the
    same outcome as the run on the sequence without them.  When every
    mark is absent and the document loads, the run is fulfilled with
    the loaded document itself: the same pages, nothing drawn. *)
Theorem embed_skips_absent_marks :
  forall (num : Type) (N : Number num)
         (load : string -> option (list (PdfLib.page num)))
         (embedPng : string -> option (PdfLib.image num))
         (originalBase64 : string)
         (signatures : list (SignatureLocation.t num)),
    embedSignatures load embedPng originalBase64 signatures
    = embedSignatures load embedPng originalBase64
        (filter (fun s => negb (absent s)) signatures)
    /\ (forall pages,
          load originalBase64 = Some pages ->
          forallb absent signatures = true ->
          embedSignatures load embedPng originalBase64 signatures
          = Returned pages).
Proof.
  intros num N load embedPng originalBase64 signatures.
  assert (Hfilter : forall pages,
             for_of signatures (embed_one embedPng) pages
             = for_of (filter (fun s => negb (absent s)) signatures)
                      (embed_one embedPng) pages).
  { apply for_of_filter. intros s pages Hs.
    apply embed_one_skips, absent_mark_of.
    destruct (absent s); [reflexivity | discriminate]. }
  unfold embedSignatures, embed_body. split.
  - destruct (load originalBase64) as [pages |]; [| reflexivity].
    unfold bind. rewrite Hfilter. reflexivity.
  - intros pages Hload Hall. rewrite Hload. unfold bind. rewrite Hfilter.
    replace (filter (fun s => negb (absent s)) signatures) with
      (@nil (SignatureLocation.t num)); [reflexivity |].
    clear Hfilter. induction signatures as [| s rest IH]; [reflexivity |].
    simpl in *. apply andb_prop in Hall. destruct Hall as [Hs Hrest].
    rewrite Hs. simpl. apply IH, Hrest.
Qed.

Lemma embed_skips_absent_marks_witness :
  embedSignatures sample_load sample_embedPng "data:application/pdf;base64,ONE"
    [sample_placement "a" 0 None; sample_placement "b" 0 None]
  = Returned [PdfLib.mkPage (PdfLib.mkSize (lit 612) (lit 792)) []].
Proof.
  exact (proj2 (@embed_skips_absent_marks Q Number_Q sample_load sample_embedPng
                  "data:application/pdf;base64,ONE"
                  [sample_placement "a" 0 None; sample_placement "b" 0 None])
               _ eq_refl eq_refl).
Defined.

(** C7. For a placement with a mark, on an existing page and with a
    payload that decodes to an image, the engine first calls
    [scaleToFit] of the image on the box
    (width * pageWidth, height * pageHeight).  With the size that call
    returns it then draws the image once on that page, at
    x = x * pageWidth and y = pageHeight - (y * pageHeight) - returned
    height: the height is the one the library returned, not the height
    of the box.  When [scaleToFit] refuses the box, or [drawImage] the
    position or the size, the run is rejected with that failure and the
    document is left as it was.  Whether the returned size lies within
    the box is the library's affair: the engine draws what it is
    given. *)
Theorem embed_scales_then_positions :
  forall (num : Type) (N : Number num)
         (load : string -> option (list (PdfLib.page num)))
         (embedPng : string -> option (PdfLib.image num))
         (originalBase64 : string) (pages pages' : list (PdfLib.page num))
         (pre : list (SignatureLocation.t num)) (sig : SignatureLocation.t num)
         (dataUrl : string) (page : PdfLib.page num) (img : PdfLib.image num),
    load originalBase64 = Some pages ->
    for_of pre (embed_one embedPng) pages = (Returned tt, pages') ->
    mark_of sig = Some dataUrl ->
    nth_error pages' (SignatureLocation.pageIndex sig) = Some page ->
    embedPng dataUrl = Some img ->
    let pageWidth := PdfLib.swidth (PdfLib.getSize page) in
    let pageHeight := PdfLib.sheight (PdfLib.getSize page) in
    let boxWidth := (SignatureLocation.width sig * pageWidth)%js in
    let boxHeight := (SignatureLocation.height sig * pageHeight)%js in
    match PdfLib.scaleToFit img boxWidth boxHeight with
    | Returned scaled =>
        let d := PdfLib.mkDrawn img
                   (SignatureLocation.x sig * pageWidth)%js
                   (pageHeight - SignatureLocation.y sig * pageHeight
                    - PdfLib.sheight scaled)%js
                   (PdfLib.swidth scaled) (PdfLib.sheight scaled) in
        match PdfLib.check_options d with
        | Returned _ =>
            embedSignatures load embedPng originalBase64 (pre ++ [sig])
            = Returned (set_nth (SignatureLocation.pageIndex sig)
                          (PdfLib.mkPage (PdfLib.getSize page)
                             (PdfLib.content page ++ [d]))
                          pages')
        | Thrown e =>
            embedSignatures load embedPng originalBase64 (pre ++ [sig]) = Thrown e
        end
    | Thrown e =>
        embedSignatures load embedPng originalBase64 (pre ++ [sig]) = Thrown e
    end.
Proof.
  intros num N load embedPng originalBase64 pages pages' pre sig dataUrl page img
         Hload Hpre Hm Hpage Hpng pageWidth pageHeight boxWidth boxHeight.
  assert (Hrun : embedSignatures load embedPng originalBase64 (pre ++ [sig])
                 = match embed_one embedPng sig pages' with
                   | (Returned _, out) => Returned out
                   | (Thrown e, _) => Thrown e
                   end).
  { unfold embedSignatures, embed_body. rewrite Hload.
    unfold bind at 1. rewrite for_of_app. unfold bind at 1. rewrite Hpre.
    simpl for_of. unfold bind at 1.
    destruct (embed_one embedPng sig pages') as [[[] | e] out]; reflexivity. }
  rewrite Hrun, (embed_one_marked embedPng sig pages' Hm Hpage Hpng).
  unfold drawing. fold pageWidth pageHeight boxWidth boxHeight.
  destruct (PdfLib.scaleToFit img boxWidth boxHeight) as [scaled | e];
    [| reflexivity].
  unfold xPos, yPos.
  destruct (PdfLib.check_options _) as [[] | e]; reflexivity.
Qed.

Lemma embed_scales_then_positions_witness :
  embedSignatures sample_load sample_embedPng "data:application/pdf;base64,ONE"
    [scanned_placement "a" 0 (Some "data:image/png;base64,WIDE")]
  = Returned
      [PdfLib.mkPage (PdfLib.mkSize 612%float 792%float)
         [PdfLib.mkDrawn
            (PdfLib.png "data:image/png;base64,WIDE" 400%float 100%float)
            100%float 674.5%float 150%float 37.5%float]].
Proof.
  exact (@embed_scales_then_positions float Number_float sample_load
           sample_embedPng "data:application/pdf;base64,ONE"
           [PdfLib.mkPage (PdfLib.mkSize (lit 612) (lit 792)) []]
           [PdfLib.mkPage (PdfLib.mkSize (lit 612) (lit 792)) []]
           [] (scanned_placement "a" 0 (Some "data:image/png;base64,WIDE"))
           "data:image/png;base64,WIDE"
           (PdfLib.mkPage (PdfLib.mkSize (lit 612) (lit 792)) [])
           (PdfLib.png "data:image/png;base64,WIDE" (lit 400) (lit 100))
           eq_refl eq_refl eq_refl eq_refl eq_refl).
Defined.

(** C7 as stated fails in the arithmetic the engine runs: the size that
    pdf-lib's [scaleToFit] returns need not lie within the box.  A 100 by
    58 mark in the 150 by 60 box of a scanned placement is drawn
    60.000000000000007 high, above the box height of 60, and its y is
    taken from that height. *)
Lemma embed_scaled_mark_exceeds_box :
  let sig := @scanned_placement float _ "a" 0 (Some "data:image/png;base64,STAMP") in
  let boxHeight := (SignatureLocation.height sig * lit 792)%js in
  exists d,
    embedSignatures sample_load sample_embedPng "data:application/pdf;base64,ONE"
      [sig]
    = Returned [PdfLib.mkPage (PdfLib.mkSize 612%float 792%float) [d]]
    /\ boxHeight = 60%float
    /\ PdfLib.dheight d = 0x1.e000000000001p+5%float
    /\ PrimFloat.ltb boxHeight (PdfLib.dheight d) = true
    /\ PdfLib.dy d = (792 - 80 - 0x1.e000000000001p+5)%float.
Proof. eexists. repeat split. Qed.

(** The run of C7 in numbers: a 400 by 100 mark in the 150 by 60 box of
    the scanned placement is drawn 150 by 37.5 at (100, 674.5); with the
    box height in place of the scaled height, y would be 652. *)
Example embed_wide_mark_binary64 :
  exists d,
    embedSignatures sample_load sample_embedPng "data:application/pdf;base64,ONE"
      [scanned_placement "a" 0 (Some "data:image/png;base64,WIDE")]
    = Returned [PdfLib.mkPage (PdfLib.mkSize 612%float 792%float) [d]]
    /\ PdfLib.dwidth d = 150%float
    /\ PdfLib.dheight d = 37.5%float
    /\ PdfLib.dx d = 100%float
    /\ PdfLib.dy d = 674.5%float
    /\ (792 - 80 - 60)%float = 652%float.
Proof. eexists. repeat split. Qed.

(** ** The placement store *)

Section SigningFacts.
Context {num : Type}.

Lemma attachMark_unknown (activeSignId dataUrl : string)
    (signatures : list (SignatureLocation.t num)) :
  ~ In activeSignId (map SignatureLocation.id signatures) ->
  attachMark activeSignId dataUrl signatures = signatures.
Proof.
  induction signatures as [| s rest IH]; intros Hnot; simpl.
  - reflexivity.
  - destruct (String.eqb_spec (SignatureLocation.id s) activeSignId) as [E | _].
    + exfalso. apply Hnot. left. exact E.
    + f_equal. apply IH. intros Hin. apply Hnot. right. exact Hin.
Qed.

Lemma attachMark_nth (activeSignId dataUrl : string)
    (signatures : list (SignatureLocation.t num)) (k : nat)
    (s : SignatureLocation.t num) :
  nth_error signatures k = Some s ->
  nth_error (attachMark activeSignId dataUrl signatures) k
  = Some (if (SignatureLocation.id s =? activeSignId)%string
          then SignatureLocation.with_value s dataUrl
          else s).
Proof.
  intros Hk. unfold attachMark. rewrite nth_error_map, Hk. reflexivity.
Qed.

(** On references: the store only grows, an entry whose identifier
    differs keeps its reference, and an entry whose identifier matches
    is replaced by a reference to a fresh object. *)
Lemma attachMark_refs_spec (activeSignId dataUrl : string)
    (signatures : list reference) :
  forall h : object_store,
    Forall (fun r => r < List.length h) signatures ->
    exists (updated : list reference) (fresh : @object_store num),
      attachMark_refs activeSignId dataUrl signatures h
      = (Returned updated, h ++ fresh)
      /\ List.length updated = List.length signatures
      /\ forall k r s,
           nth_error signatures k = Some r ->
           nth_error h r = Some s ->
           if (SignatureLocation.id s =? activeSignId)%string
           then exists r',
                  nth_error updated k = Some r'
                  /\ List.length h <= r'
                  /\ nth_error (h ++ fresh) r'
                     = Some (SignatureLocation.with_value s dataUrl)
           else nth_error updated k = Some r.
Proof.
  unfold attachMark_refs.
  induction signatures as [| r0 rest IH]; intros h Hvalid.
  - exists [], []. rewrite app_nil_r. split; [reflexivity |]. split; [reflexivity |].
    intros [| k] r s Hk; discriminate Hk.
  - inversion Hvalid as [| r0' rest' Hr0 Hrest]; subst.
    destruct (nth_error h r0) as [s0 |] eqn:Hs0;
      [| apply nth_error_None in Hs0; apply Nat.lt_nge in Hr0; contradiction].
    simpl array_map. unfold bind at 1. unfold bind at 1. unfold read_object at 1.
    rewrite Hs0.
    destruct (SignatureLocation.id s0 =? activeSignId)%string eqn:Hid.
    + (* a fresh object for the head *)
      unfold new_object at 1.
      set (h1 := h ++ [SignatureLocation.with_value s0 dataUrl]).
      assert (Hvalid1 : Forall (fun r => r < List.length h1) rest).
      { eapply Forall_impl; [| exact Hrest]. intros r Hr. unfold h1.
        rewrite length_app. simpl. (unfold reference in *; lia). }
      destruct (IH h1 Hvalid1) as (updated & fresh & Hrun & Hlen & Hspec).
      exists (List.length h :: updated),
             (SignatureLocation.with_value s0 dataUrl :: fresh).
      unfold bind at 1. rewrite Hrun. unfold h1. rewrite <- app_assoc. simpl app.
      split; [reflexivity |]. split; [simpl; rewrite Hlen; reflexivity |].
      intros [| k] r s Hk Hr; simpl in Hk.
      * injection Hk as <-. rewrite Hs0 in Hr. injection Hr as <-. rewrite Hid.
        exists (List.length h). split; [reflexivity |]. split; [(unfold reference in *; lia) |].
        rewrite nth_error_app2 by (unfold reference in *; lia). rewrite Nat.sub_diag. reflexivity.
      * assert (Hr1 : nth_error h1 r = Some s).
        { unfold h1. rewrite nth_error_app1; [exact Hr |].
          apply nth_error_Some. rewrite Hr. discriminate. }
        specialize (Hspec k r s Hk Hr1).
        destruct (SignatureLocation.id s =? activeSignId)%string.
        -- destruct Hspec as (r' & Hk' & Hge & Hobj).
           exists r'. split; [exact Hk' |]. split.
           ++ unfold h1 in Hge. rewrite length_app in Hge. simpl in Hge. (unfold reference in *; lia).
           ++ unfold h1 in Hobj. rewrite <- app_assoc in Hobj. exact Hobj.
        -- exact Hspec.
    + (* the head keeps its reference *)
      destruct (IH h Hrest) as (updated & fresh & Hrun & Hlen & Hspec).
      exists (r0 :: updated), fresh.
      unfold ret at 1. unfold bind at 1. rewrite Hrun.
      split; [reflexivity |]. split; [simpl; rewrite Hlen; reflexivity |].
      intros [| k] r s Hk Hr; simpl in Hk.
      * injection Hk as <-. rewrite Hs0 in Hr. injection Hr as <-. rewrite Hid.
        reflexivity.
      * exact (Hspec k r s Hk Hr).
Qed.

End SigningFacts.

Section SigningRefinement.
Context {num : Type}.

(** The update on references computes the update on values. *)
Lemma attachMark_refs_refines (activeSignId dataUrl : string)
    (signatures : list reference) :
  forall (h : object_store) (values : list (SignatureLocation.t num)),
    objects_of h signatures = map Some values ->
    exists (updated : list reference) (fresh : object_store),
      attachMark_refs activeSignId dataUrl signatures h
      = (Returned updated, h ++ fresh)
      /\ objects_of (h ++ fresh) updated
         = map Some (attachMark activeSignId dataUrl values).
Proof.
  unfold attachMark_refs, objects_of.
  induction signatures as [| r0 rest IH]; intros h values Hobjs.
  - destruct values; [| discriminate Hobjs].
    exists [], []. rewrite app_nil_r. split; reflexivity.
  - destruct values as [| s0 values]; [discriminate Hobjs |].
    simpl in Hobjs. injection Hobjs as Hs0 Hrest.
    assert (Hgrow : forall (extra : object_store) xs (vs : list (SignatureLocation.t num)),
               map (nth_error h) xs = map Some vs ->
               map (nth_error (h ++ extra)) xs = map Some vs).
    { intros extra xs. induction xs as [| x xs IHxs]; intros [| v vs] E;
        try discriminate E; [reflexivity |].
      simpl in E. injection E as Ex Exs. simpl. f_equal.
      - rewrite nth_error_app1; [exact Ex |].
        apply nth_error_Some. rewrite Ex. discriminate.
      - apply IHxs, Exs. }
    simpl array_map. unfold bind at 1. unfold bind at 1. unfold read_object at 1.
    rewrite Hs0. simpl attachMark.
    destruct (SignatureLocation.id s0 =? activeSignId)%string.
    + unfold new_object at 1.
      destruct (IH (h ++ [SignatureLocation.with_value s0 dataUrl]) values
                   (Hgrow _ _ _ Hrest))
        as (updated & fresh & Hrun & Hvals).
      exists (List.length h :: updated),
             (SignatureLocation.with_value s0 dataUrl :: fresh).
      unfold bind at 1. rewrite Hrun. rewrite <- app_assoc in *. simpl app in *.
      split; [reflexivity |]. simpl. f_equal; [| exact Hvals].
      rewrite nth_error_app2 by apply Nat.le_refl.
      rewrite Nat.sub_diag. reflexivity.
    + destruct (IH h values Hrest) as (updated & fresh & Hrun & Hvals).
      exists (r0 :: updated), fresh.
      unfold ret at 1. unfold bind at 1. rewrite Hrun.
      split; [reflexivity |]. simpl. f_equal; [| exact Hvals].
      rewrite nth_error_app1; [exact Hs0 |].
      apply nth_error_Some. rewrite Hs0. discriminate.
Qed.

End SigningRefinement.

(** *** Claims on the placement store *)

(** C4, as the code has it.  Attaching a mark reports nothing in either
    case.  When no placement has the identifier, the placement sequence
    comes back unchanged.  When some have it, each of them is replaced
    by a copy with the new mark and every other placement is returned
    as it was, at the same position; held by reference, the other
    entries are the same references, and the store of objects only
    grows. *)
Theorem confirm_signature_attaches_by_id :
  forall (num : Type) (pad : signature_pad) (st : @signing_state num)
         (active : string),
    isEmpty pad = false ->
    truthy_id (activeSignId st) = Some active ->
    let signatures := DocumentMetadata.signatures (currentDoc st) in
    let st' := confirmSignature (Some pad) st in
    let updated := DocumentMetadata.signatures (currentDoc st') in
    alerts st' = alerts st
    /\ (~ In active (map SignatureLocation.id signatures) -> updated = signatures)
    /\ List.length updated = List.length signatures
    /\ (forall k s,
          nth_error signatures k = Some s ->
          nth_error updated k
          = Some (if (SignatureLocation.id s =? active)%string
                  then SignatureLocation.with_value s (toDataURL pad)
                  else s))
    /\ (forall (h : object_store) (refs : list reference),
          objects_of h refs = map Some signatures ->
          exists (refs' : list reference) (fresh : object_store),
            attachMark_refs active (toDataURL pad) refs h
            = (Returned refs', h ++ fresh)
            /\ objects_of (h ++ fresh) refs' = map Some updated
            /\ forall k r s,
                 nth_error refs k = Some r ->
                 nth_error h r = Some s ->
                 SignatureLocation.id s <> active ->
                 nth_error refs' k = Some r /\ nth_error (h ++ fresh) r = Some s).
Proof.
  intros num pad st active Hpad Hact signatures st' updated.
  assert (Hupd : updated = attachMark active (toDataURL pad) signatures).
  { unfold updated, st', confirmSignature. rewrite Hact, Hpad. reflexivity. }
  assert (Halerts : alerts st' = alerts st).
  { unfold st', confirmSignature. rewrite Hact, Hpad. reflexivity. }
  split; [exact Halerts |]. rewrite Hupd.
  split; [apply attachMark_unknown |].
  split; [unfold attachMark; apply length_map |].
  split; [intros k s; apply attachMark_nth |].
  intros h refs Hobjs.
  assert (Hvalid : Forall (fun r => r < List.length h) refs).
  { clear - Hobjs. unfold objects_of in Hobjs. revert Hobjs.
    generalize signatures as vs.
    induction refs as [| r rest IH]; intros [| v vs] E; try discriminate E;
      constructor.
    - simpl in E. injection E as Er _. apply nth_error_Some. rewrite Er. discriminate.
    - simpl in E. injection E as _ Erest. exact (IH vs Erest). }
  destruct (attachMark_refs_refines active (toDataURL pad) refs h signatures Hobjs)
    as (refs' & fresh & Hrun & Hvals).
  destruct (@attachMark_refs_spec num active (toDataURL pad) refs h Hvalid)
    as (refs2 & fresh2 & Hrun2 & _ & Hspec).
  rewrite Hrun in Hrun2. injection Hrun2 as <- Hfresh.
  apply app_inv_head in Hfresh. subst fresh2.
  exists refs', fresh. split; [exact Hrun |]. split; [exact Hvals |].
  intros k r s Hk Hr Hneq. specialize (Hspec k r s Hk Hr).
  apply String.eqb_neq in Hneq. rewrite Hneq in Hspec.
  split; [exact Hspec |].
  rewrite nth_error_app1; [exact Hr |].
  apply nth_error_Some. rewrite Hr. discriminate.
Qed.

Lemma confirm_signature_attaches_by_id_witness :
  DocumentMetadata.signatures
    (currentDoc (confirmSignature (Some sample_pad) (sample_signing (Some "b"))))
  = [sample_placement "a" 0 None;
     sample_placement "b" 0 (Some "data:image/png;base64,WIDE")]
  /\ alerts (confirmSignature (Some sample_pad) (sample_signing (Some "b"))) = [].
Proof.
  pose proof (@confirm_signature_attaches_by_id Q sample_pad
                (sample_signing (Some "b")) "b" eq_refl eq_refl)
    as (Halerts & _ & _ & _ & _).
  split; [reflexivity | exact Halerts].
Defined.

(** C4 as stated fails: attaching a mark under an identifier that no
    placement carries reports nothing; the handler ends as it does after
    a successful attachment, with the dialog closed, the selection
    cleared and no alert raised. *)
Lemma confirm_signature_unknown_id_is_silent :
  ~ In "zzz" (map SignatureLocation.id
                (DocumentMetadata.signatures (currentDoc (sample_signing (Some "zzz")))))
  /\ confirmSignature (Some sample_pad) (sample_signing (Some "zzz"))
     = mkSigning
         (sample_document [sample_placement "a" 0 None; sample_placement "b" 0 None])
         None false []
  /\ isSigningModalOpen (confirmSignature (Some sample_pad) (sample_signing (Some "b")))
     = false
  /\ alerts (confirmSignature (Some sample_pad) (sample_signing (Some "b"))) = []
  /\ activeSignId (confirmSignature (Some sample_pad) (sample_signing (Some "b")))
     = None.
Proof.
  split; [| repeat split].
  simpl. intros [E | [E | []]]; discriminate E.
Qed.

(** ** The document store *)

Lemma findIndex_from_first {A} (p : A -> bool) (l1 : list A) (d : A) (l2 : list A) :
  (forall x, In x l1 -> p x = false) -> p d = true ->
  forall i, findIndex_from p (l1 ++ d :: l2) i = (i + Z.of_nat (List.length l1))%Z.
Proof.
  intros Hl1 Hd. induction l1 as [| a l1 IH]; intros i; simpl.
  - rewrite Hd. lia.
  - rewrite (Hl1 a (or_introl eq_refl)).
    rewrite IH by (intros x Hx; apply Hl1; right; exact Hx). lia.
Qed.

Lemma findIndex_from_none {A} (p : A -> bool) (l : list A) :
  (forall x, In x l -> p x = false) ->
  forall i, findIndex_from p l i = (-1)%Z.
Proof.
  intros Hl. induction l as [| a l IH]; intros i; simpl.
  - reflexivity.
  - rewrite (Hl a (or_introl eq_refl)).
    apply IH. intros x Hx. apply Hl. right. exact Hx.
Qed.

Lemma set_nth_middle {A} (l1 : list A) (d v : A) (l2 : list A) :
  set_nth (List.length l1) v (l1 ++ d :: l2) = l1 ++ v :: l2.
Proof. induction l1 as [| a l1 IH]; simpl; [reflexivity | rewrite IH; reflexivity]. Qed.



(** When the browser refuses the write, the store keeps what it held
    and the user is alerted. *)
Lemma save_document_over_quota (num : Type)
    (quota_ok : list (DocumentMetadata.t num) -> bool)
    (ls : local_storage) (doc : DocumentMetadata.t num) :
  quota_ok (updated_docs (getDocuments ls) doc) = false ->
  saveDocument quota_ok ls doc
  = (ls, ["Local storage full. Cannot save document."]).
Proof. intros Hq. unfold saveDocument. rewrite Hq. reflexivity. Qed.

(** ** Rounding in binary64 *)

(** What the operations of the two transforms do to their exact results,
    derived from the specification of the kernel's floats
    ([SpecFloat], to which [FloatAxioms] ties the primitive
    operations): the result of a subtraction, a multiplication or a
    division, when it is finite, is the exact result rounded to the
    nearest number, ties to even. *)

Section Binary64.
Unset Implicit Arguments.
Local Open Scope Z_scope.

(** *** Number of binary digits *)

Lemma digits2_pos_bounds (m : positive) :
  2 ^ (Zpos (digits2_pos m) - 1) <= Zpos m < 2 ^ Zpos (digits2_pos m).
Proof.
  induction m as [p IH | p IH |]; cbn [digits2_pos].
  - rewrite Pos2Z.inj_succ. change (Z.pos p~1) with (2 * Z.pos p + 1).
    replace (Z.succ (Zpos (digits2_pos p)) - 1) with (Z.succ (Zpos (digits2_pos p) - 1)) by lia.
    rewrite !Z.pow_succ_r by lia. pow_atoms. lia.
  - rewrite Pos2Z.inj_succ. change (Z.pos p~0) with (2 * Z.pos p).
    replace (Z.succ (Zpos (digits2_pos p)) - 1) with (Z.succ (Zpos (digits2_pos p) - 1)) by lia.
    rewrite !Z.pow_succ_r by lia. pow_atoms. lia.
  - simpl. lia.
Qed.

Lemma Zdigits2_nonneg (m : Z) : 0 <= Zdigits2 m.
Proof. destruct m; simpl; lia. Qed.

Lemma Zdigits2_bounds (m : Z) :
  0 < m -> 2 ^ (Zdigits2 m - 1) <= m < 2 ^ Zdigits2 m.
Proof.
  destruct m as [| p | p]; try lia. intros _. apply digits2_pos_bounds.
Qed.

Lemma Zdigits2_le (m k : Z) : 0 <= m < 2 ^ k -> 0 <= k -> Zdigits2 m <= k.
Proof.
  intros [H0 Hk] Hk0.
  destruct (Z.eq_dec m 0) as [-> | Hm]; [simpl; lia |].
  destruct (Zdigits2_bounds m ltac:(lia)) as [Hl _].
  assert (2 ^ (Zdigits2 m - 1) < 2 ^ k) by lia.
  apply Z.pow_lt_mono_r_iff in H; lia.
Qed.

Lemma Zdigits2_ge (m k : Z) : 2 ^ k <= m -> 0 <= k -> k < Zdigits2 m.
Proof.
  intros Hk Hk0.
  assert (0 < m) by (pose proof (Z.pow_pos_nonneg 2 k); lia).
  destruct (Zdigits2_bounds m H) as [_ Hu].
  assert (2 ^ k < 2 ^ Zdigits2 m) by lia.
  apply Z.pow_lt_mono_r_iff in H0; try lia. apply Zdigits2_nonneg.
Qed.

Lemma Zdigits2_mul_pow (m k : Z) :
  0 < m -> 0 <= k -> Zdigits2 (m * 2 ^ k) = Zdigits2 m + k.
Proof.
  intros Hm Hk.
  destruct (Zdigits2_bounds m Hm) as [Hl Hu].
  pose proof (Zdigits2_nonneg m) as Hd.
  assert (Hd1 : 1 <= Zdigits2 m).
  { destruct m; simpl in *; lia. }
  assert (Hp : 0 < 2 ^ k) by (apply Z.pow_pos_nonneg; lia).
  apply Z.le_antisymm.
  - apply Zdigits2_le; [| lia]. split; [nia |].
    rewrite Z.pow_add_r by lia. nia.
  - assert (Zdigits2 m + k - 1 < Zdigits2 (m * 2 ^ k)); [| lia].
    apply Zdigits2_ge; [| lia].
    replace (Zdigits2 m + k - 1) with ((Zdigits2 m - 1) + k) by lia.
    rewrite Z.pow_add_r by lia. nia.
Qed.

(** *** Where a value lies, relative to an integer and the next *)

Lemma inbetween_ext (m : Z) (l : location) (x y : Q) :
  (x == y)%Q -> inbetween m l x -> inbetween m l y.
Proof.
  intros E. destruct l as [| c]; simpl.
  - intros H. rewrite <- E. exact H.
  - intros (H1 & H2 & H3). rewrite <- E. repeat split; assumption.
Qed.

Lemma located_ext (mrs : shr_record) (x y : Q) :
  (x == y)%Q -> located mrs x -> located mrs y.
Proof. intros E [H0 H]. split; [exact H0 | exact (inbetween_ext _ _ _ _ E H)]. Qed.

Lemma inject_Z_xO (p : positive) :
  (inject_Z (Z.pos p~0) == 2 * inject_Z (Z.pos p))%Q.
Proof. change (Z.pos p~0) with (2 * Z.pos p). rewrite inject_Z_mult. reflexivity. Qed.

Lemma inject_Z_xI (p : positive) :
  (inject_Z (Z.pos p~1) == 2 * inject_Z (Z.pos p) + 1)%Q.
Proof.
  change (Z.pos p~1) with (2 * Z.pos p + 1).
  rewrite inject_Z_plus, inject_Z_mult. reflexivity.
Qed.

Lemma shr_1_located (mrs : shr_record) (x : Q) :
  located mrs x -> located (shr_1 mrs) (x * (1 # 2))%Q.
Proof.
  destruct mrs as [m r s]. unfold located. cbn [shr_m]. intros [H0 H].
  destruct m as [| p | p]; [| | lia].
  - destruct r, s; cbn in *; (split; [lia |]);
      change (inject_Z 0) with 0%Q in *;
      repeat match goal with H : _ /\ _ |- _ => destruct H end;
      compare_to_order; repeat split; compare_to_order; lra.
  - destruct p as [p | p |];
      [pose proof (inject_Z_xI p) | pose proof (inject_Z_xO p) | ];
      destruct r, s; cbn in *; (split; [lia |]);
      change (inject_Z 0) with 0%Q in *; change (inject_Z 1) with 1%Q in *;
      repeat match goal with H : _ /\ _ |- _ => destruct H end;
      compare_to_order; repeat split; compare_to_order; lra.
Qed.

Lemma shr_1_located' (mrs : shr_record) (x : Q) :
  located mrs (x * 2)%Q -> located (shr_1 mrs) x.
Proof.
  intros H. apply shr_1_located in H.
  refine (located_ext _ _ _ _ H). field.
Qed.

Lemma pow2_xO (p : positive) : 2 ^ Z.pos p~0 = 2 ^ Z.pos p * 2 ^ Z.pos p.
Proof.
  change (Z.pos p~0) with (2 * Z.pos p).
  replace (2 * Z.pos p) with (Z.pos p + Z.pos p) by lia.
  apply Z.pow_add_r; lia.
Qed.

Lemma pow2_xI (p : positive) : 2 ^ Z.pos p~1 = 2 * (2 ^ Z.pos p * 2 ^ Z.pos p).
Proof.
  change (Z.pos p~1) with (2 * Z.pos p + 1).
  replace (2 * Z.pos p + 1) with (Z.succ (Z.pos p + Z.pos p)) by lia.
  rewrite Z.pow_succ_r by lia. rewrite Z.pow_add_r by lia. reflexivity.
Qed.

(** Shifting right p times divides the value by 2^p. *)
Lemma iter_shr_1_located (p : positive) :
  forall (mrs : shr_record) (x : Q),
    located mrs (x * inject_Z (2 ^ Z.pos p))%Q ->
    located (iter_pos shr_1 p mrs) x.
Proof.
  induction p as [p IH | p IH |]; intros mrs x H; cbn [iter_pos].
  - apply IH, IH, shr_1_located'.
    refine (located_ext _ _ _ _ H).
    rewrite pow2_xI, !inject_Z_mult. change (inject_Z 2) with 2%Q. ring.
  - apply IH, IH.
    refine (located_ext _ _ _ _ H).
    rewrite pow2_xO, !inject_Z_mult. ring.
  - apply shr_1_located'. exact H.
Qed.

Lemma located_of_loc (m : Z) (l : location) (x : Q) :
  0 <= m -> inbetween m l x -> located (shr_record_of_loc m l) x.
Proof.
  intros H0 H. split.
  - destruct l as [| []]; exact H0.
  - destruct l as [| []]; exact H.
Qed.

(** The mantissa of a located value is its integer part. *)
Lemma located_floor (mrs : shr_record) (x : Q) :
  located mrs x ->
  (inject_Z (shr_m mrs) <= x)%Q /\ (x < inject_Z (shr_m mrs) + 1)%Q.
Proof.
  intros [_ H]. destruct (loc_of_shr_record mrs) as [| c]; cbn [inbetween] in H.
  - rewrite H. split; lra.
  - destruct H as (H1 & H2 & _). split; lra.
Qed.

(** [shr] by a number of positions that is not negative. *)
Lemma shr_located (mrs : shr_record) (e n : Z) (x : Q) :
  0 <= n ->
  located mrs (x * inject_Z (2 ^ n))%Q ->
  located (fst (shr mrs e n)) x /\ snd (shr mrs e n) = e + n.
Proof.
  intros Hn H. destruct n as [| p | p]; [| | lia].
  - simpl. split; [| lia].
    refine (located_ext _ _ _ _ H). simpl. ring.
  - simpl. split; [| reflexivity]. apply iter_shr_1_located. exact H.
Qed.

(** Rounding to nearest, ties to even, moves by at most one half. *)
Lemma round_nearest_even_close (m : Z) (l : location) (x : Q) :
  inbetween m l x ->
  let m' := round_nearest_even m l in
  m <= m' <= m + 1
  /\ (2 * Qabs (inject_Z m' - x) <= 1)%Q
  /\ (l = loc_Exact -> m' = m).
Proof.
  intros H m'. unfold m'.
  assert (Hm1 : (inject_Z (m + 1) == inject_Z m + 1)%Q)
    by (rewrite inject_Z_plus; reflexivity).
  destruct l as [| c]; cbn [inbetween round_nearest_even] in *.
  - split; [lia |]. split; [| reflexivity].
    rewrite H. setoid_replace (inject_Z m - inject_Z m)%Q with 0%Q by ring.
    simpl. lra.
  - destruct H as (H1 & H2 & H3).
    destruct c; compare_to_order.
    + destruct (Z.even m); (split; [lia |]); (split; [| discriminate]).
      * apply Qmult_le_l with (z := (1 # 2)%Q); [reflexivity |].
        setoid_replace ((1 # 2) * (2 * Qabs (inject_Z m - x)))%Q
          with (Qabs (inject_Z m - x)) by ring.
        apply Qabs_Qle_condition. split; lra.
      * apply Qmult_le_l with (z := (1 # 2)%Q); [reflexivity |].
        setoid_replace ((1 # 2) * (2 * Qabs (inject_Z (m + 1) - x)))%Q
          with (Qabs (inject_Z (m + 1) - x)) by ring.
        apply Qabs_Qle_condition. split; lra.
    + split; [lia |]. split; [| discriminate].
      apply Qmult_le_l with (z := (1 # 2)%Q); [reflexivity |].
      setoid_replace ((1 # 2) * (2 * Qabs (inject_Z m - x)))%Q
        with (Qabs (inject_Z m - x)) by ring.
      apply Qabs_Qle_condition. split; lra.
    + split; [lia |]. split; [| discriminate].
      apply Qmult_le_l with (z := (1 # 2)%Q); [reflexivity |].
      setoid_replace ((1 # 2) * (2 * Qabs (inject_Z (m + 1) - x)))%Q
        with (Qabs (inject_Z (m + 1) - x)) by ring.
      apply Qabs_Qle_condition. split; lra.
Qed.

(** *** The rounding step of every operation *)

Lemma fexp_eq (e : Z) : fexp prec emax e = Z.max (e - 53) (-1074).
Proof. reflexivity. Qed.

Lemma inject_Z_pow2_pos (n : Z) : 0 <= n -> (0 < inject_Z (2 ^ n))%Q.
Proof.
  intros Hn. change 0%Q with (inject_Z 0). rewrite <- Zlt_Qlt.
  apply Z.pow_pos_nonneg; lia.
Qed.

Lemma shr_nonpos (mrs : shr_record) (e n : Z) : n <= 0 -> shr mrs e n = (mrs, e).
Proof. intros Hn. destruct n as [| p | p]; [reflexivity | lia | reflexivity]. Qed.

(** The outcome of [binary_round_aux] on a mantissa that needs no shift
    to the left: the value is divided by 2^n1, rounded to the integer
    [m2], and [m2] is packed. *)
Lemma binary_round_aux_spec (sx : bool) (mx ex : Z) (lx : location) (x : Q) :
  0 <= mx -> inbetween mx lx x ->
  ex <= fexp prec emax (Zdigits2 mx + ex) ->
  let n1 := fexp prec emax (Zdigits2 mx + ex) - ex in
  exists m2 : Z,
    0 <= m2 <= 2 ^ 53
    /\ (2 * Qabs (inject_Z (m2 * 2 ^ n1) - x) <= inject_Z (2 ^ n1))%Q
    /\ (lx = loc_Exact -> n1 = 0 -> m2 = mx)
    /\ binary_round_aux prec emax sx mx ex lx
       = if m2 =? 0 then S754_zero sx
         else if m2 =? 2 ^ 53
              then if ex + n1 + 1 <=? emax - prec
                   then S754_finite sx (Z.to_pos (2 ^ 52)) (ex + n1 + 1)
                   else S754_infinity sx
              else if ex + n1 <=? emax - prec
                   then S754_finite sx (Z.to_pos m2) (ex + n1)
                   else S754_infinity sx.
Proof.
  intros Hmx Hx Hn1 n1.
  assert (Hn1' : 0 <= n1) by (unfold n1; lia).
  pose proof (inject_Z_pow2_pos n1 Hn1') as Hp.
  set (x1 := (x / inject_Z (2 ^ n1))%Q).
  assert (Ex : (x1 * inject_Z (2 ^ n1) == x)%Q).
  { unfold x1. field. intros E. rewrite E in Hp. discriminate. }
  (* the first shift *)
  assert (Hloc : located (shr_record_of_loc mx lx) (x1 * inject_Z (2 ^ n1))%Q).
  { apply located_of_loc; [exact Hmx |]. apply (inbetween_ext _ _ x); [| exact Hx].
    symmetry. exact Ex. }
  destruct (shr_located _ ex n1 x1 Hn1' Hloc) as [Hloc1 He1].
  unfold binary_round_aux, shr_fexp. fold n1.
  destruct (shr (shr_record_of_loc mx lx) ex n1) as [mrs1 e1] eqn:Hshr1.
  cbn [fst snd] in Hloc1, He1. subst e1.
  set (m1 := shr_m mrs1) in *. set (l1 := loc_of_shr_record mrs1) in *.
  destruct Hloc1 as [Hm1 Hin1]. fold m1 l1 in Hm1, Hin1.
  destruct (round_nearest_even_close m1 l1 x1 Hin1) as (Hm2 & Hclose & Hexact).
  set (m2 := round_nearest_even m1 l1) in *.
  (* the mantissa is below 2^53 *)
  assert (Hx1 : (inject_Z m1 <= x1)%Q /\ (x1 < inject_Z m1 + 1)%Q).
  { destruct l1 as [| c]; cbn [inbetween] in Hin1.
    - rewrite Hin1. split; lra.
    - destruct Hin1 as (? & ? & _). split; lra. }
  assert (Hxd : (x < inject_Z (2 ^ Zdigits2 mx))%Q).
  { assert (Hxm : (x < inject_Z mx + 1)%Q).
    { destruct lx as [| c]; cbn [inbetween] in Hx.
      - rewrite Hx. lra.
      - destruct Hx as (? & ? & _). assumption. }
    assert (Hmd : mx + 1 <= 2 ^ Zdigits2 mx).
    { destruct (Z.eq_dec mx 0) as [-> | Hne]; [simpl; lia |].
      destruct (Zdigits2_bounds mx ltac:(lia)). lia. }
    apply Qlt_le_trans with (inject_Z mx + 1)%Q; [exact Hxm |].
    rewrite Zle_Qle in Hmd. rewrite inject_Z_plus in Hmd. exact Hmd. }
  assert (Hm1' : m1 < 2 ^ 53).
  { assert (Hd : 2 ^ Zdigits2 mx <= 2 ^ 53 * 2 ^ n1).
    { rewrite <- Z.pow_add_r by lia. apply Z.pow_le_mono_r; [lia |].
      unfold n1. rewrite fexp_eq. lia. }
    rewrite Zle_Qle, inject_Z_mult in Hd.
    assert (Hlt : (x1 * inject_Z (2 ^ n1) < inject_Z (2 ^ 53) * inject_Z (2 ^ n1))%Q).
    { rewrite Ex. apply Qlt_le_trans with (inject_Z (2 ^ Zdigits2 mx)); assumption. }
    apply Qmult_lt_r in Hlt; [| exact Hp].
    rewrite Zlt_Qlt. apply Qle_lt_trans with x1; [apply Hx1 | exact Hlt]. }
  exists m2. split; [lia |]. split; [| split].
  - rewrite inject_Z_mult.
    setoid_replace (inject_Z m2 * inject_Z (2 ^ n1) - x)%Q
      with ((inject_Z m2 - x1) * inject_Z (2 ^ n1))%Q
      by (rewrite <- Ex; ring).
    rewrite Qabs_Qmult, (Qabs_pos (inject_Z (2 ^ n1))) by (apply Qlt_le_weak; exact Hp).
    rewrite Qmult_assoc.
    rewrite <- (Qmult_1_l (inject_Z (2 ^ n1))) at 2.
    apply Qmult_le_compat_r; [exact Hclose | apply Qlt_le_weak; exact Hp].
  - intros -> Hz. unfold m2.
    assert (Hmrs : mrs1 = shr_record_of_loc mx loc_Exact).
    { rewrite Hz in Hshr1. simpl in Hshr1. injection Hshr1 as <-. reflexivity. }
    unfold m1, l1. rewrite Hmrs. reflexivity.
  - (* the second shift: only a carry to 2^53 needs it *)
    assert (He1 : -1074 <= ex + n1) by (unfold n1; rewrite fexp_eq; lia).
    destruct (Z.eq_dec m2 (2 ^ 53)) as [E53 | N53].
    + rewrite E53.
      replace (fexp prec emax (Zdigits2 (2 ^ 53) + (ex + n1)) - (ex + n1)) with 1
        by (rewrite fexp_eq; simpl Zdigits2; lia).
      simpl shr. cbn [shr_m].
      change (2 ^ 53 =? 0) with false. rewrite Z.eqb_refl. cbv iota.
      reflexivity.
    + assert (Hd2 : Zdigits2 m2 <= 53) by (apply Zdigits2_le; lia).
      rewrite shr_nonpos by (rewrite fexp_eq; lia).
      assert (Hsm : shr_m (shr_record_of_loc m2 loc_Exact) = m2) by reflexivity.
      rewrite Hsm.
      destruct (Z.eqb_spec m2 0) as [-> | N0]; [reflexivity |].
      destruct (Z.eqb_spec m2 (2 ^ 53)) as [E | _]; [contradiction |].
      destruct m2 as [| p | p]; [contradiction | | lia].
      reflexivity.
Qed.

(** *** The value of a float *)

Lemma pow2_pos (e : Z) : (0 < pow2 e)%Q.
Proof. apply Qpower_0_lt. reflexivity. Qed.

Lemma pow2_add (a b : Z) : (pow2 (a + b) == pow2 a * pow2 b)%Q.
Proof. apply Qpower_plus. discriminate. Qed.

Lemma pow2_Z (n : Z) : 0 <= n -> (pow2 n == inject_Z (2 ^ n))%Q.
Proof. intros Hn. unfold pow2. rewrite Zpower_Qpower by exact Hn. reflexivity. Qed.

Lemma pow2_le (a b : Z) : a <= b -> (pow2 a <= pow2 b)%Q.
Proof. intros H. apply Qpower_le_compat_l; [exact H | discriminate]. Qed.

Lemma sgn_xorb (a b : bool) : (sgn (xorb a b) == sgn a * sgn b)%Q.
Proof. destruct a, b; reflexivity. Qed.

Lemma Qabs_sgn (s : bool) (x : Q) : (Qabs (sgn s * x) == Qabs x)%Q.
Proof.
  destruct s; unfold sgn.
  - setoid_replace (-1 * x)%Q with (- x)%Q by ring. apply Qabs_opp.
  - setoid_replace (1 * x)%Q with x by ring. reflexivity.
Qed.

Lemma valid_finite (s : bool) (m : positive) (e : Z) :
  valid_binary (S754_finite s m e) = true ->
  -1074 <= e <= 971
  /\ Z.pos (digits2_pos m) <= 53
  /\ (Z.pos (digits2_pos m) = 53 \/ e = -1074).
Proof.
  unfold SpecFloat.valid_binary, bounded, canonical_mantissa.
  rewrite andb_true_iff, Z.eqb_eq, Z.leb_le, fexp_eq.
  change (emax - prec) with 971. lia.
Qed.

(** The finite outcomes of the rounding step: the sign is kept, and the
    result is within half a unit of its last place of the value. *)
Lemma binary_round_aux_finite (sx : bool) (mx ex : Z) (lx : location) (x : Q)
    (s : bool) (m : positive) (e : Z) :
  0 <= mx -> inbetween mx lx x ->
  ex <= fexp prec emax (Zdigits2 mx + ex) ->
  binary_round_aux prec emax sx mx ex lx = S754_finite s m e ->
  let n1 := fexp prec emax (Zdigits2 mx + ex) - ex in
  s = sx
  /\ ex + n1 <= e
  /\ (2 * Qabs (inject_Z (Z.pos m) * pow2 e - x * pow2 ex) <= pow2 e)%Q
  /\ (lx = loc_Exact -> n1 = 0 -> (inject_Z (Z.pos m) * pow2 e == x * pow2 ex)%Q).
Proof.
  intros Hmx Hx Hn1 Hres n1.
  destruct (binary_round_aux_spec sx mx ex lx x Hmx Hx Hn1)
    as (m2 & Hm2 & Hclose & Hexact & Hout).
  fold n1 in Hclose, Hexact, Hout.
  assert (Hn1' : 0 <= n1) by (unfold n1; lia).
  rewrite Hout in Hres.
  assert (Hval : s = sx /\ ex + n1 <= e
                 /\ (inject_Z (Z.pos m) * pow2 e
                     == inject_Z (m2 * 2 ^ n1) * pow2 ex)%Q).
  { destruct (Z.eqb_spec m2 0) as [E0 | N0]; [discriminate Hres |].
    destruct (Z.eqb_spec m2 (2 ^ 53)) as [E53 | N53].
    - destruct (ex + n1 + 1 <=? emax - prec); [| discriminate Hres].
      injection Hres as <- <- <-. split; [reflexivity |]. split; [lia |].
      rewrite E53.
      replace (ex + n1 + 1) with ((1 + n1) + ex) by lia.
      rewrite pow2_add, (pow2_Z (1 + n1)) by lia.
      rewrite Z.pow_add_r by lia.
      rewrite !inject_Z_mult. change (Z.pos (Z.to_pos (2 ^ 52))) with (2 ^ 52).
      change (2 ^ 53) with (2 ^ 52 * 2 ^ 1). rewrite inject_Z_mult.
      change (2 ^ 52) with 4503599627370496. ring.
    - destruct (ex + n1 <=? emax - prec); [| discriminate Hres].
      injection Hres as <- <- <-. split; [reflexivity |]. split; [lia |].
      rewrite Z2Pos.id by lia.
      rewrite (Z.add_comm ex n1), pow2_add, (pow2_Z n1) by lia.
      rewrite inject_Z_mult. ring. }
  destruct Hval as (Hs & He & Hval).
  split; [exact Hs |]. split; [exact He |]. split.
  - rewrite Hval.
    setoid_replace (inject_Z (m2 * 2 ^ n1) * pow2 ex - x * pow2 ex)%Q
      with ((inject_Z (m2 * 2 ^ n1) - x) * pow2 ex)%Q by ring.
    rewrite Qabs_Qmult, (Qabs_pos (pow2 ex)) by (apply Qlt_le_weak, pow2_pos).
    rewrite Qmult_assoc.
    apply Qle_trans with (inject_Z (2 ^ n1) * pow2 ex)%Q.
    + apply Qmult_le_compat_r; [exact Hclose | apply Qlt_le_weak, pow2_pos].
    + rewrite <- (pow2_Z n1) by lia. rewrite <- pow2_add. apply pow2_le. lia.
  - intros Hl Hz. rewrite Hval, (Hexact Hl Hz), Hz.
    destruct lx as [| c]; [| discriminate Hl]. cbn [inbetween] in Hx.
    rewrite Hx. simpl (2 ^ 0). rewrite Z.mul_1_r. reflexivity.
Qed.

(** When the rounding step gives zero, the value was at most half the
    unit it was rounded to. *)
Lemma binary_round_aux_zero (sx : bool) (mx ex : Z) (lx : location) (x : Q)
    (s : bool) :
  0 <= mx -> inbetween mx lx x ->
  ex <= fexp prec emax (Zdigits2 mx + ex) ->
  binary_round_aux prec emax sx mx ex lx = S754_zero s ->
  let n1 := fexp prec emax (Zdigits2 mx + ex) - ex in
  (2 * Qabs x <= inject_Z (2 ^ n1))%Q.
Proof.
  intros Hmx Hx Hn1 Hres n1.
  destruct (binary_round_aux_spec sx mx ex lx x Hmx Hx Hn1)
    as (m2 & Hm2 & Hclose & Hexact & Hout).
  fold n1 in Hclose, Hexact, Hout. rewrite Hout in Hres.
  destruct (Z.eqb_spec m2 0) as [E0 | N0].
  - rewrite E0 in Hclose. simpl (0 * _) in Hclose.
    setoid_replace (inject_Z 0 - x)%Q with (- x)%Q in Hclose by (simpl; ring).
    rewrite Qabs_opp in Hclose. exact Hclose.
  - destruct (m2 =? 2 ^ 53);
      [destruct (ex + n1 + 1 <=? emax - prec) | destruct (ex + n1 <=? emax - prec)];
      discriminate Hres.
Qed.

Lemma binary_round_aux_not_nan (sx : bool) (mx ex : Z) (lx : location) (x : Q) :
  0 <= mx -> inbetween mx lx x ->
  ex <= fexp prec emax (Zdigits2 mx + ex) ->
  binary_round_aux prec emax sx mx ex lx <> S754_nan.
Proof.
  intros Hmx Hx Hn1 Hres.
  destruct (binary_round_aux_spec sx mx ex lx x Hmx Hx Hn1)
    as (m2 & _ & _ & _ & Hout).
  rewrite Hout in Hres.
  destruct (m2 =? 0); [discriminate |].
  destruct (m2 =? 2 ^ 53);
    [destruct (_ <=? _) | destruct (_ <=? _)]; discriminate Hres.
Qed.

(** *** Multiplication *)

Lemma Zdigits2_mul_ge (a b : Z) :
  0 < a -> 0 < b -> Zdigits2 a + Zdigits2 b - 1 <= Zdigits2 (a * b).
Proof.
  intros Ha Hb.
  destruct (Zdigits2_bounds a Ha) as [Hla _].
  destruct (Zdigits2_bounds b Hb) as [Hlb _].
  assert (Hda : 1 <= Zdigits2 a) by (destruct a; simpl in *; lia).
  assert (Hdb : 1 <= Zdigits2 b) by (destruct b; simpl in *; lia).
  assert (H : Zdigits2 a + Zdigits2 b - 2 < Zdigits2 (a * b)); [| lia].
  apply Zdigits2_ge; [| lia].
  replace (Zdigits2 a + Zdigits2 b - 2) with ((Zdigits2 a - 1) + (Zdigits2 b - 1)) by lia.
  rewrite Z.pow_add_r by lia.
  assert (0 < 2 ^ (Zdigits2 a - 1)) by (apply Z.pow_pos_nonneg; lia).
  assert (0 < 2 ^ (Zdigits2 b - 1)) by (apply Z.pow_pos_nonneg; lia).
  nia.
Qed.

(** Half a unit in the last place of a normal float is at most 2^-53 of
    the float. *)
Lemma half_ulp_normal (s : bool) (m : positive) (e : Z) (err : Q) :
  Z.pos (digits2_pos m) = 53 ->
  (2 * err <= pow2 e)%Q ->
  (err <= u64 * Qabs (SF2Q (S754_finite s m e)))%Q.
Proof.
  intros Hd Herr. cbn [SF2Q]. rewrite Qabs_sgn.
  pose proof (digits2_pos_bounds m) as [Hl _]. rewrite Hd in Hl.
  change (2 ^ (53 - 1)) with 4503599627370496 in Hl.
  rewrite Zle_Qle in Hl.
  pose proof (pow2_pos e) as Hp.
  rewrite Qabs_pos by (apply Qmult_le_0_compat;
                      [apply Qle_trans with (inject_Z 4503599627370496);
                       [discriminate | exact Hl]
                      | apply Qlt_le_weak; exact Hp]).
  assert (Hmul : (inject_Z 4503599627370496 * pow2 e
                  <= inject_Z (Z.pos m) * pow2 e)%Q)
    by (apply Qmult_le_compat_r; [exact Hl | apply Qlt_le_weak; exact Hp]).
  unfold u64.
  set (P := pow2 e) in *. set (M := (inject_Z (Z.pos m) * P)%Q) in *.
  clearbody M P.
  change (inject_Z 4503599627370496) with (4503599627370496 # 1)%Q in Hmul.
  lra.
Qed.

Lemma SFmul_finite_spec (sx : bool) (mx : positive) (ex : Z)
    (sy : bool) (my : positive) (ey : Z) (s : bool) (m : positive) (e : Z) :
  valid_binary (S754_finite sx mx ex) = true ->
  valid_binary (S754_finite sy my ey) = true ->
  SFmul prec emax (S754_finite sx mx ex) (S754_finite sy my ey) = S754_finite s m e ->
  (2 * Qabs (SF2Q (S754_finite s m e)
             - SF2Q (S754_finite sx mx ex) * SF2Q (S754_finite sy my ey))
   <= pow2 e)%Q.
Proof.
  intros Hvx Hvy Hz. cbn [SFmul] in Hz.
  apply valid_finite in Hvx, Hvy.
  assert (Hn1 : ex + ey
                <= fexp prec emax (Zdigits2 (Z.pos (mx * my)) + (ex + ey))).
  { pose proof (Zdigits2_mul_ge (Z.pos mx) (Z.pos my) ltac:(lia) ltac:(lia)) as Hd.
    change (Z.pos mx * Z.pos my) with (Z.pos (mx * my)) in Hd.
    cbn [Zdigits2] in Hd |- *. rewrite fexp_eq.
    set (D := Z.pos (digits2_pos (mx * my))) in *.
    set (dx := Z.pos (digits2_pos mx)) in *. set (dy := Z.pos (digits2_pos my)) in *.
    assert (1 <= dx) by (unfold dx; lia). assert (1 <= dy) by (unfold dy; lia).
    clearbody D dx dy. lia. }
  assert (Hin : inbetween (Z.pos (mx * my)) loc_Exact (inject_Z (Z.pos (mx * my))))
    by (cbn [inbetween]; reflexivity).
  destruct (binary_round_aux_finite _ _ _ _ _ _ _ _ (Pos2Z.is_nonneg _) Hin Hn1 Hz)
    as (Hs & _ & Hclose & _).
  subst s. cbn [SF2Q].
  setoid_replace (sgn (xorb sx sy) * (inject_Z (Z.pos m) * pow2 e)
                  - sgn sx * (inject_Z (Z.pos mx) * pow2 ex)
                    * (sgn sy * (inject_Z (Z.pos my) * pow2 ey)))%Q
    with (sgn (xorb sx sy)
          * (inject_Z (Z.pos m) * pow2 e
             - inject_Z (Z.pos (mx * my)) * pow2 (ex + ey)))%Q.
  - rewrite Qabs_sgn. exact Hclose.
  - rewrite sgn_xorb, pow2_add, Pos2Z.inj_mul, inject_Z_mult. ring.
Qed.

(** *** Subtraction *)

Lemma shift_left_value (m d : positive) :
  Z.pos (Pos.iter xO m d) = Z.pos m * 2 ^ Z.pos d.
Proof.
  change (Pos.iter xO m d) with (shift_pos d m).
  rewrite shift_pos_correct. change (Z.pow_pos 2 d) with (2 ^ Z.pos d). lia.
Qed.

Lemma shl_align_spec (m : positive) (e e' : Z) :
  let (mz, ez) := shl_align m e e' in
  ez = Z.min e e' /\ Z.pos mz = Z.pos m * 2 ^ (e - ez).
Proof.
  unfold shl_align. destruct (e' - e) as [| d | d] eqn:Hd.
  - split; [lia |]. replace (e - e) with 0 by lia. simpl (2 ^ 0). lia.
  - split; [lia |]. replace (e - e) with 0 by lia. simpl (2 ^ 0). lia.
  - split; [lia |]. rewrite shift_left_value. f_equal. f_equal. lia.
Qed.

Lemma pow2_shift (a b : Z) :
  b <= a -> (inject_Z (2 ^ (a - b)) * pow2 b == pow2 a)%Q.
Proof.
  intros H. rewrite <- pow2_Z by lia. rewrite <- pow2_add.
  replace (a - b + b) with a by lia. reflexivity.
Qed.

(** [binary_round] on a mantissa whose exponent is not below the least
    one: the result is never zero, and when it is finite it is within
    2^-53 of itself of the value. *)
Lemma binary_round_model (s : bool) (p : positive) (e : Z) :
  -1074 <= e ->
  valid_binary (binary_round prec emax s p e) = true ->
  SFfinite (binary_round prec emax s p e) = true ->
  (Qabs (SF2Q (binary_round prec emax s p e)
         - sgn s * (inject_Z (Z.pos p) * pow2 e))
   <= u64 * Qabs (SF2Q (binary_round prec emax s p e)))%Q.
Proof.
  intros He. unfold binary_round.
  set (E := fexp prec emax (Z.pos (digits2_pos p) + e)).
  pose proof (shl_align_spec p e E) as Hal.
  destruct (shl_align p e E) as [mz ez]. destruct Hal as [Hez Hmz].
  assert (HE : -1074 <= E) by (unfold E; rewrite fexp_eq; lia).
  assert (Hdz : Zdigits2 (Z.pos mz) + ez = Z.pos (digits2_pos p) + e).
  { rewrite Hmz, Zdigits2_mul_pow by lia. cbn [Zdigits2]. lia. }
  assert (Hn1 : ez <= fexp prec emax (Zdigits2 (Z.pos mz) + ez)).
  { rewrite Hdz. fold E. lia. }
  assert (Hval : (inject_Z (Z.pos mz) * pow2 ez == inject_Z (Z.pos p) * pow2 e)%Q).
  { rewrite Hmz, inject_Z_mult, <- Qmult_assoc, pow2_shift by lia. reflexivity. }
  assert (Hin : inbetween (Z.pos mz) loc_Exact (inject_Z (Z.pos mz)))
    by (cbn [inbetween]; reflexivity).
  destruct (binary_round_aux prec emax s (Z.pos mz) ez loc_Exact)
    as [s' | s' | | s' m e'] eqn:Hres; intros Hvalid Hfin; try discriminate Hfin.
  - (* zero: impossible *)
    exfalso.
    pose proof (binary_round_aux_zero _ _ _ _ _ _ (Pos2Z.is_nonneg _) Hin Hn1 Hres)
      as Hz. cbv zeta in Hz.
    rewrite Hdz in Hz. fold E in Hz.
    rewrite (Qabs_pos (inject_Z (Z.pos mz))) in Hz
      by (change 0%Q with (inject_Z 0); rewrite <- Zle_Qle; lia).
    change 2%Q with (inject_Z 2) in Hz.
    rewrite <- inject_Z_mult, <- Zle_Qle in Hz.
    destruct (Z.eq_dec (E - ez) 0) as [E0 | N0].
    + rewrite E0 in Hz. simpl in Hz. lia.
    + assert (Hez' : ez = e) by lia.
      assert (Hmp : Z.pos mz = Z.pos p).
      { rewrite Hmz, Hez'. replace (e - e) with 0 by lia. simpl (2 ^ 0). lia. }
      rewrite Hmp, Hez' in Hz.
      pose proof (digits2_pos_bounds p) as [Hl _].
      assert (Hlt : 2 ^ (Z.pos (digits2_pos p) - 1) < 2 ^ (E - e)) by lia.
      apply Z.pow_lt_mono_r_iff in Hlt; [| lia | lia].
      unfold E in Hlt. rewrite fexp_eq in Hlt. lia.
  - destruct (binary_round_aux_finite _ _ _ _ _ _ _ _ (Pos2Z.is_nonneg _) Hin Hn1 Hres)
      as (Hs & Hexp & Hclose & Hexact).
    subst s'. rewrite Hval in Hclose, Hexact.
    assert (Herr : (SF2Q (S754_finite s m e') - sgn s * (inject_Z (Z.pos p) * pow2 e)
                    == sgn s * (inject_Z (Z.pos m) * pow2 e'
                                - inject_Z (Z.pos p) * pow2 e))%Q)
      by (cbn [SF2Q]; ring).
    rewrite Herr, Qabs_sgn.
    destruct (valid_finite _ _ _ Hvalid) as (_ & _ & [Hd | Hmin]).
    + apply half_ulp_normal; assumption.
    + rewrite Hexact; [| reflexivity | lia].
      setoid_replace (inject_Z (Z.pos p) * pow2 e - inject_Z (Z.pos p) * pow2 e)%Q
        with 0%Q by ring.
      apply Qmult_le_0_compat; [discriminate | apply Qabs_nonneg].
Qed.

Lemma inject_Z_cond_Zopp (s : bool) (v : Z) :
  (inject_Z (cond_Zopp s v) == sgn s * inject_Z v)%Q.
Proof.
  destruct s; unfold cond_Zopp, sgn.
  - rewrite inject_Z_opp. ring.
  - ring.
Qed.

Lemma sgn_negb (s : bool) : (sgn (negb s) == - sgn s)%Q.
Proof. destruct s; reflexivity. Qed.

Lemma Qabs_exact (q r : Q) : (q - r == 0)%Q -> (Qabs (q - r) <= u64 * Qabs q)%Q.
Proof.
  intros ->. apply Qmult_le_0_compat; [discriminate | apply Qabs_nonneg].
Qed.

(** The model of subtraction: when the difference of two floats is
    finite, so are both, and the difference is within 2^-53 of itself of
    the exact difference. *)
Lemma SFsub_model (x y : spec_float) :
  valid_binary x = true -> valid_binary y = true ->
  valid_binary (SFsub prec emax x y) = true ->
  SFfinite (SFsub prec emax x y) = true ->
  SFfinite x = true /\ SFfinite y = true
  /\ (Qabs (SF2Q (SFsub prec emax x y) - (SF2Q x - SF2Q y))
      <= u64 * Qabs (SF2Q (SFsub prec emax x y)))%Q.
Proof.
  intros Hvx Hvy.
  destruct x as [sx | sx | | sx mx ex]; destruct y as [sy | sy | | sy my ey];
    cbn [SFsub]; intros Hvz Hfz;
    try discriminate Hfz;
    try (destruct sx, sy; discriminate Hfz).
  - (* zero - zero *)
    split; [reflexivity |]. split; [reflexivity |].
    destruct sx, sy; cbn [SF2Q]; apply Qabs_exact; ring.
  - (* zero - finite *)
    split; [reflexivity |]. split; [reflexivity |].
    cbn [SF2Q]. apply Qabs_exact. rewrite sgn_negb. ring.
  - (* finite - zero *)
    split; [reflexivity |]. split; [reflexivity |].
    cbn [SF2Q]. apply Qabs_exact. ring.
  - (* finite - finite *)
    split; [reflexivity |]. split; [reflexivity |].
    destruct (valid_finite _ _ _ Hvx) as (Hex & _).
    destruct (valid_finite _ _ _ Hvy) as (Hey & _).
    set (ez := Z.min ex ey) in *.
    pose proof (shl_align_spec mx ex ez) as Hax.
    pose proof (shl_align_spec my ey ez) as Hay.
    destruct (shl_align mx ex ez) as [ax ezx]. destruct (shl_align my ey ez) as [ay ezy].
    destruct Hax as [Hezx Hax]. destruct Hay as [Hezy Hay].
    cbn [fst] in *.
    assert (Ezx : ezx = ez) by (unfold ez in *; lia).
    assert (Ezy : ezy = ez) by (unfold ez in *; lia).
    rewrite Ezx in Hax. rewrite Ezy in Hay. clear Hezx Hezy Ezx Ezy ezx ezy.
    set (M := cond_Zopp sx (Z.pos ax) - cond_Zopp sy (Z.pos ay)) in *.
    assert (HM : (inject_Z M * pow2 ez
                  == SF2Q (S754_finite sx mx ex) - SF2Q (S754_finite sy my ey))%Q).
    { unfold M. unfold Z.sub. rewrite inject_Z_plus, inject_Z_opp.
      rewrite !inject_Z_cond_Zopp, Hax, Hay, !inject_Z_mult. cbn [SF2Q].
      rewrite <- (pow2_shift ex ez) by (unfold ez; lia).
      rewrite <- (pow2_shift ey ez) by (unfold ez; lia). ring. }
    rewrite <- HM.
    assert (Hez : -1074 <= ez) by (unfold ez; lia).
    unfold binary_normalize in *.
    destruct M as [| p | p].
    + cbn [SF2Q]. apply Qabs_exact. simpl. ring.
    + pose proof (binary_round_model false p ez Hez Hvz Hfz) as Hmodel.
      setoid_replace (inject_Z (Z.pos p) * pow2 ez)%Q
        with (sgn false * (inject_Z (Z.pos p) * pow2 ez))%Q
        by (unfold sgn; ring).
      exact Hmodel.
    + pose proof (binary_round_model true p ez Hez Hvz Hfz) as Hmodel.
      setoid_replace (inject_Z (Z.neg p) * pow2 ez)%Q
        with (sgn true * (inject_Z (Z.pos p) * pow2 ez))%Q.
      * exact Hmodel.
      * change (Z.neg p) with (- Z.pos p). rewrite inject_Z_opp. unfold sgn. ring.
Qed.

(** *** Division *)

Lemma new_location_inbetween (q r my : Z) (x : Q) :
  0 < my -> 0 <= r < my ->
  (x == inject_Z q + inject_Z r / inject_Z my)%Q ->
  inbetween q (new_location my r) x.
Proof.
  intros Hmy Hr Hx.
  assert (Hmy' : (0 < inject_Z my)%Q)
    by (change 0%Q with (inject_Z 0); rewrite <- Zlt_Qlt; exact Hmy).
  set (f := (inject_Z r / inject_Z my)%Q) in *.
  assert (Hf : (f * inject_Z my == inject_Z r)%Q).
  { unfold f. field. intros E. rewrite E in Hmy'. discriminate. }
  assert (Hf0 : r = 0 -> (f == 0)%Q).
  { intros ->. unfold f. unfold Qdiv. simpl. ring. }
  assert (Hfpos : 0 < r -> (0 < f)%Q).
  { intros H. unfold f. apply Qlt_shift_div_l; [exact Hmy' |].
    rewrite Qmult_0_l. change 0%Q with (inject_Z 0). rewrite <- Zlt_Qlt. exact H. }
  assert (Hf1 : (f < 1)%Q).
  { unfold f. apply Qlt_shift_div_r; [exact Hmy' |].
    rewrite Qmult_1_l. rewrite <- Zlt_Qlt. lia. }
  assert (Hlt : 2 * r < my -> (f < 1 # 2)%Q).
  { intros H. unfold f. apply Qlt_shift_div_r; [exact Hmy' |].
    rewrite Zlt_Qlt, inject_Z_mult in H. change (inject_Z 2) with 2%Q in H.
    lra. }
  assert (Heq : 2 * r = my -> (f == 1 # 2)%Q).
  { intros H. unfold f. rewrite <- H, inject_Z_mult. change (inject_Z 2) with 2%Q.
    field. intros E.
    assert (Hr0 : (0 < inject_Z r)%Q)
      by (change 0%Q with (inject_Z 0); rewrite <- Zlt_Qlt; lia).
    rewrite E in Hr0. discriminate. }
  assert (Hgt : my < 2 * r -> (1 # 2 < f)%Q).
  { intros H. unfold f. apply Qlt_shift_div_l; [exact Hmy' |].
    rewrite Zlt_Qlt, inject_Z_mult in H. change (inject_Z 2) with 2%Q in H.
    lra. }
  assert (Hex : r = 0 -> inbetween q loc_Exact x).
  { intros E0. cbn [inbetween]. rewrite Hx, (Hf0 E0). ring. }
  assert (Hcmp : forall c,
             0 < r ->
             match c with
             | Lt => (f < 1 # 2)%Q
             | Eq => (f == 1 # 2)%Q
             | Gt => (1 # 2 < f)%Q
             end ->
             inbetween q (loc_Inexact c) x).
  { intros c Hrpos Hc. specialize (Hfpos Hrpos). cbn [inbetween]. rewrite Hx.
    split; [lra |]. split; [lra |].
    destruct c; compare_to_order; lra. }
  unfold new_location.
  destruct (Z.even my) eqn:Heven.
  - unfold new_location_even.
    destruct (Z.eqb_spec r 0) as [E0 | N0]; [exact (Hex E0) |].
    apply Hcmp; [lia |].
    destruct (Z.compare_spec (2 * r) my) as [E | L | G];
      [apply Heq | apply Hlt | apply Hgt]; assumption.
  - unfold new_location_odd.
    destruct (Z.eqb_spec r 0) as [E0 | N0]; [exact (Hex E0) |].
    assert (Hodd : 2 * r <> my).
    { intros E. rewrite <- E, Z.even_mul in Heven. discriminate. }
    destruct (Z.compare_spec (2 * r + 1) my) as [E | L | G];
      (apply Hcmp; [lia |]).
    + apply Hlt. lia.
    + apply Hlt. lia.
    + apply Hgt. lia.
Qed.

Lemma SFdiv_core_spec (mx my : positive) (ex ey : Z) :
  let '(q, e', l) := SFdiv_core_binary prec emax (Z.pos mx) ex (Z.pos my) ey in
  0 <= q /\ e' <= ex - ey
  /\ inbetween q l (inject_Z (Z.pos mx * 2 ^ (ex - ey - e')) / inject_Z (Z.pos my))%Q
  /\ e' <= fexp prec emax (Zdigits2 q + e').
Proof.
  unfold SFdiv_core_binary.
  set (d1 := Zdigits2 (Z.pos mx)). set (d2 := Zdigits2 (Z.pos my)).
  set (t := d1 + ex - (d2 + ey)).
  set (e' := Z.min (fexp prec emax t) (ex - ey)).
  set (s := ex - ey - e').
  assert (Hs : 0 <= s) by (unfold s, e'; lia).
  set (m' := match s with
             | 0 => Z.pos mx
             | Z.pos _ => Z.shiftl (Z.pos mx) s
             | Z.neg _ => 0
             end).
  assert (Hm' : m' = Z.pos mx * 2 ^ s).
  { unfold m'. destruct s as [| p | p]; [simpl; lia | | lia].
    apply Z.shiftl_mul_pow2. lia. }
  clearbody m'.
  pose proof (Z_div_mod m' (Z.pos my) ltac:(lia)) as Hdiv.
  destruct (Z.div_eucl m' (Z.pos my)) as [q r]. destruct Hdiv as [Hqr Hr].
  assert (Hps : 0 < 2 ^ s) by (apply Z.pow_pos_nonneg; lia).
  assert (Hm'pos : 0 < m') by (rewrite Hm'; lia).
  assert (Hq : 0 <= q) by nia.
  split; [exact Hq |]. split; [unfold e'; lia |]. split.
  - apply new_location_inbetween; [lia | exact Hr |].
    fold s. rewrite <- Hm', Hqr, inject_Z_plus, inject_Z_mult.
    field. intros E.
    assert (H0 : (0 < inject_Z (Z.pos my))%Q) by reflexivity.
    rewrite E in H0. discriminate.
  - assert (Hedef : e' = Z.min (Z.max (t - 53) (-1074)) (ex - ey))
      by (unfold e'; rewrite fexp_eq; reflexivity).
    rewrite fexp_eq.
    destruct (Z.le_gt_cases e' (-1074)) as [Hlow | Hhigh]; [lia |].
    (* the quotient has at least 53 digits *)
    assert (He' : e' <= t - 53) by lia.
    assert (Hsd : 52 + d2 <= d1 - 1 + s) by (unfold s, t in *; lia).
    destruct (digits2_pos_bounds mx) as [Hlx _].
    destruct (digits2_pos_bounds my) as [_ Huy].
    fold (Zdigits2 (Z.pos mx)) in Hlx. fold (Zdigits2 (Z.pos my)) in Huy.
    fold d1 in Hlx. fold d2 in Huy.
    assert (Hd1 : 1 <= d1) by (unfold d1; simpl; lia).
    assert (Hd2 : 1 <= d2) by (unfold d2; simpl; lia).
    assert (Hbig : 2 ^ 52 * 2 ^ d2 <= m').
    { rewrite Hm', <- Z.pow_add_r by lia.
      apply Z.le_trans with (2 ^ (d1 - 1) * 2 ^ s); [| nia].
      rewrite <- Z.pow_add_r by lia. apply Z.pow_le_mono_r; lia. }
    assert (Hq52 : 2 ^ 52 <= q).
    { destruct (Z.le_gt_cases (2 ^ 52) q) as [H | H]; [exact H | exfalso].
      assert (0 < 2 ^ d2) by (apply Z.pow_pos_nonneg; lia).
      assert (Z.pos my * (q + 1) <= 2 ^ d2 * 2 ^ 52) by nia.
      nia. }
    assert (Hdq : 52 < Zdigits2 q) by (apply Zdigits2_ge; [exact Hq52 | lia]).
    lia.
Qed.

Lemma pow2_sub (a b : Z) : (pow2 (a - b) == pow2 a / pow2 b)%Q.
Proof. apply Qpower_minus. discriminate. Qed.

Lemma pow2_neq_0 (e : Z) : ~ (pow2 e == 0)%Q.
Proof. intros E. pose proof (pow2_pos e) as H. rewrite E in H. discriminate. Qed.

Lemma SFdiv_finite_spec (sx : bool) (mx : positive) (ex : Z)
    (sy : bool) (my : positive) (ey : Z) (s : bool) (m : positive) (e : Z) :
  SFdiv prec emax (S754_finite sx mx ex) (S754_finite sy my ey) = S754_finite s m e ->
  (2 * Qabs (SF2Q (S754_finite s m e)
             - SF2Q (S754_finite sx mx ex) / SF2Q (S754_finite sy my ey))
   <= pow2 e)%Q.
Proof.
  cbn [SFdiv]. pose proof (SFdiv_core_spec mx my ex ey) as Hcore.
  destruct (SFdiv_core_binary prec emax (Z.pos mx) ex (Z.pos my) ey) as [[q e'] l].
  destruct Hcore as (Hq & He' & Hin & Hn1). intros Hz.
  destruct (binary_round_aux_finite _ _ _ _ _ _ _ _ Hq Hin Hn1 Hz)
    as (Hs & _ & Hclose & _).
  subst s.
  assert (Hmy : ~ (inject_Z (Z.pos my) == 0)%Q).
  { intros E. assert (H0 : (0 < inject_Z (Z.pos my))%Q) by reflexivity.
    rewrite E in H0. discriminate. }
  assert (Hsy : ~ (sgn sy == 0)%Q) by (destruct sy; discriminate).
  assert (Hval : (SF2Q (S754_finite sx mx ex) / SF2Q (S754_finite sy my ey)
                  == sgn (xorb sx sy)
                     * (inject_Z (Z.pos mx * 2 ^ (ex - ey - e'))
                        / inject_Z (Z.pos my) * pow2 e'))%Q).
  { cbn [SF2Q]. rewrite inject_Z_mult.
    rewrite <- (pow2_Z (ex - ey - e')) by lia.
    replace (ex - ey - e') with ((ex - ey) - e') by lia.
    rewrite (pow2_sub (ex - ey) e'), (pow2_sub ex ey).
    pose proof (pow2_neq_0 ey). pose proof (pow2_neq_0 e').
    set (A := inject_Z (Z.pos mx)) in *. set (B := inject_Z (Z.pos my)) in *.
    set (Px := pow2 ex) in *. set (Py := pow2 ey) in *. set (P' := pow2 e') in *.
    clearbody A B Px Py P'.
    destruct sx, sy; cbn [sgn xorb]; field; repeat split; assumption. }
  rewrite Hval. cbn [SF2Q].
  setoid_replace (sgn (xorb sx sy) * (inject_Z (Z.pos m) * pow2 e)
                  - sgn (xorb sx sy)
                    * (inject_Z (Z.pos mx * 2 ^ (ex - ey - e'))
                       / inject_Z (Z.pos my) * pow2 e'))%Q
    with (sgn (xorb sx sy)
          * (inject_Z (Z.pos m) * pow2 e
             - inject_Z (Z.pos mx * 2 ^ (ex - ey - e')) / inject_Z (Z.pos my)
               * pow2 e'))%Q by ring.
  rewrite Qabs_sgn. exact Hclose.
Qed.

(** *** The operations of binary64 *)

Lemma SFmul_finite_inv (x y : spec_float) :
  SFfinite (SFmul prec emax x y) = true -> SFfinite x = true /\ SFfinite y = true.
Proof.
  destruct x as [sx | sx | | sx mx ex]; destruct y as [sy | sy | | sy my ey];
    cbn [SFmul SFfinite]; intros H; try discriminate H; split; reflexivity.
Qed.

Lemma SFdiv_finite_inv (x y : spec_float) :
  SFfinite (SFdiv prec emax x y) = true -> SFfinite y = true ->
  SFfinite x = true /\ SFzero y = false.
Proof.
  destruct x as [sx | sx | | sx mx ex]; destruct y as [sy | sy | | sy my ey];
    cbn [SFdiv SFfinite SFzero]; intros H Hy;
    try discriminate H; try discriminate Hy; split; reflexivity.
Qed.

Lemma SF2Q_nonzero (x : spec_float) :
  SFfinite x = true -> SFzero x = false -> ~ (SF2Q x == 0)%Q.
Proof.
  destruct x as [s | s | | s m e]; try discriminate. intros _ _ E.
  cbn [SF2Q] in E.
  assert (Hpos : (0 < inject_Z (Z.pos m) * pow2 e)%Q).
  { apply Qmult_lt_0_compat; [reflexivity | apply pow2_pos]. }
  destruct s; unfold sgn in E; lra.
Qed.

Lemma SF2Q_zero (x : spec_float) : SFzero x = true -> SF2Q x = 0%Q.
Proof. destruct x; try discriminate. reflexivity. Qed.

Lemma sub_model (x y : float) :
  F64.finite (x - y) = true ->
  F64.finite x = true /\ F64.finite y = true
  /\ (Qabs (F64.to_Q (x - y) - (F64.to_Q x - F64.to_Q y)) <= u64 * Qabs (F64.to_Q (x - y)))%Q.
Proof.
  unfold F64.finite, F64.to_Q. rewrite FloatAxioms.sub_spec. intros Hf.
  apply SFsub_model; try apply Prim2SF_valid; [| exact Hf].
  change (SFsub prec emax (Prim2SF x) (Prim2SF y))
    with (SF64sub (Prim2SF x) (Prim2SF y)).
  rewrite <- FloatAxioms.sub_spec. apply Prim2SF_valid.
Qed.

Lemma inverse_to_forward (z v : Q) :
  (Qabs (z - v) <= u64 * Qabs z)%Q -> (Qabs (z - v) <= u64' * Qabs v)%Q.
Proof.
  intros H.
  assert (Htri : (Qabs z <= Qabs v + Qabs (z - v))%Q).
  { setoid_replace z with (v + (z - v))%Q at 1 by ring. apply Qabs_triangle. }
  unfold u64, u64' in *.
  set (d := Qabs (z - v)) in *. set (az := Qabs z) in *. set (av := Qabs v) in *.
  clearbody d az av. lra.
Qed.

(** *** Underflow *)

Lemma eta64_pos : (0 < eta64)%Q.
Proof. apply pow2_pos. Qed.

Lemma eta64_double : (pow2 (-1074) == 2 * eta64)%Q.
Proof.
  unfold eta64. change (-1074) with (1 + -1075). rewrite pow2_add. reflexivity.
Qed.

Lemma tiny64_double : (2 * eta64 == tiny64)%Q.
Proof. unfold tiny64. rewrite eta64_double. reflexivity. Qed.

(** A value that the rounding step takes to zero is at most half the
    least positive number. *)
Lemma binary_round_aux_zero_small (sx : bool) (mx ex : Z) (lx : location) (x : Q)
    (s : bool) :
  0 <= mx -> inbetween mx lx x ->
  ex <= fexp prec emax (Zdigits2 mx + ex) ->
  binary_round_aux prec emax sx mx ex lx = S754_zero s ->
  (Qabs (x * pow2 ex) <= eta64)%Q.
Proof.
  intros Hmx Hx Hn1 Hres.
  pose proof (binary_round_aux_zero sx mx ex lx x s Hmx Hx Hn1 Hres) as Hsmall.
  cbv zeta in Hsmall. rewrite fexp_eq in Hn1, Hsmall.
  set (d := Zdigits2 mx) in *.
  assert (Hxm : (inject_Z mx <= x)%Q).
  { destruct lx as [| c]; cbn [inbetween] in Hx.
    - rewrite Hx. apply Qle_refl.
    - apply Qlt_le_weak. exact (proj1 Hx). }
  assert (Hx0 : (0 <= x)%Q).
  { apply Qle_trans with (inject_Z mx); [| exact Hxm].
    change 0%Q with (inject_Z 0). rewrite <- Zle_Qle. exact Hmx. }
  rewrite Qabs_pos in Hsmall by exact Hx0.
  assert (He : Z.max (d + ex - 53) (-1074) = -1074).
  { destruct (Z_le_gt_dec (d + ex - 53) (-1074)) as [Hle | Hgt]; [lia |].
    exfalso.
    replace (Z.max (d + ex - 53) (-1074) - ex) with (d - 53) in Hsmall by lia.
    assert (Hd : 53 <= d) by lia.
    assert (Hmpos : 0 < mx).
    { destruct mx as [| p | p]; [cbn in d; lia | lia | lia]. }
    destruct (Zdigits2_bounds mx Hmpos) as [Hl _]. fold d in Hl.
    assert (Hlt : 2 ^ (d - 53) < 2 * 2 ^ (d - 1)).
    { replace (2 * 2 ^ (d - 1)) with (2 ^ d)
        by (replace d with (Z.succ (d - 1)) at 1 by lia;
            rewrite Z.pow_succ_r by lia; reflexivity).
      apply Z.pow_lt_mono_r; lia. }
    assert (HQ : (inject_Z (2 * 2 ^ (d - 1)) <= inject_Z (2 ^ (d - 53)))%Q).
    { apply Qle_trans with (2 * x)%Q; [| exact Hsmall].
      rewrite inject_Z_mult. change (inject_Z 2) with 2%Q.
      rewrite Zle_Qle in Hl.
      set (P := inject_Z (2 ^ (d - 1))) in *. set (M := inject_Z mx) in *.
      clearbody P M. lra. }
    rewrite <- Zle_Qle in HQ. lia. }
  rewrite He in Hsmall.
  assert (Hn : 0 <= -1074 - ex) by lia.
  rewrite <- (pow2_Z _ Hn) in Hsmall.
  pose proof (pow2_pos ex) as Hp.
  rewrite Qabs_pos by (apply Qmult_le_0_compat; [exact Hx0 | apply Qlt_le_weak, Hp]).
  assert (Hsplit : (pow2 (-1074) == pow2 (-1074 - ex) * pow2 ex)%Q).
  { rewrite <- pow2_add. replace (-1074 - ex + ex) with (-1074) by lia. reflexivity. }
  pose proof eta64_double as Hdbl. rewrite Hsplit in Hdbl.
  assert (Hmul : (2 * x * pow2 ex <= pow2 (-1074 - ex) * pow2 ex)%Q)
    by (apply Qmult_le_compat_r; [exact Hsmall | apply Qlt_le_weak, Hp]).
  set (E := eta64) in *.
  set (A := (pow2 (-1074 - ex) * pow2 ex)%Q) in *.
  set (B := (x * pow2 ex)%Q).
  setoid_replace (2 * x * pow2 ex)%Q with (2 * B)%Q in Hmul by (unfold B; ring).
  clearbody E A B. lra.
Qed.

(** Half a unit in the last place of a F64.finite number is at most 2^-53
    of the number, or, when the number is subnormal, half the least
    positive number. *)
Lemma half_ulp_finite (s : bool) (m : positive) (e : Z) (err : Q) :
  valid_binary (S754_finite s m e) = true ->
  (2 * err <= pow2 e)%Q ->
  (err <= u64 * Qabs (SF2Q (S754_finite s m e)) + eta64)%Q.
Proof.
  intros Hv Herr.
  pose proof eta64_pos as Heta.
  destruct (valid_finite _ _ _ Hv) as (_ & _ & [Hd | He]).
  - pose proof (half_ulp_normal s m e err Hd Herr) as H.
    set (E := eta64) in *. clearbody E. lra.
  - subst e. rewrite eta64_double in Herr.
    assert (H0 : (0 <= u64 * Qabs (SF2Q (S754_finite s m (-1074))))%Q)
      by (apply Qmult_le_0_compat; [discriminate | apply Qabs_nonneg]).
    set (E := eta64) in *. set (V := (u64 * Qabs _)%Q) in *. clearbody E V. lra.
Qed.

Lemma SFmul_exponent (mx my : positive) (ex ey : Z) :
  valid_binary (S754_finite false mx ex) = true ->
  valid_binary (S754_finite false my ey) = true ->
  ex + ey <= fexp prec emax (Zdigits2 (Z.pos (mx * my)) + (ex + ey)).
Proof.
  intros Hvx Hvy. apply valid_finite in Hvx, Hvy.
  pose proof (Zdigits2_mul_ge (Z.pos mx) (Z.pos my) ltac:(lia) ltac:(lia)) as Hd.
  change (Z.pos mx * Z.pos my) with (Z.pos (mx * my)) in Hd.
  cbn [Zdigits2] in Hd |- *. rewrite fexp_eq.
  set (D := Z.pos (digits2_pos (mx * my))) in *.
  set (dx := Z.pos (digits2_pos mx)) in *. set (dy := Z.pos (digits2_pos my)) in *.
  assert (1 <= dx) by (unfold dx; lia). assert (1 <= dy) by (unfold dy; lia).
  clearbody D dx dy. lia.
Qed.

Lemma SFmul_zero_spec (sx : bool) (mx : positive) (ex : Z)
    (sy : bool) (my : positive) (ey : Z) (s : bool) :
  valid_binary (S754_finite sx mx ex) = true ->
  valid_binary (S754_finite sy my ey) = true ->
  SFmul prec emax (S754_finite sx mx ex) (S754_finite sy my ey) = S754_zero s ->
  (Qabs (SF2Q (S754_finite sx mx ex) * SF2Q (S754_finite sy my ey)) <= eta64)%Q.
Proof.
  intros Hvx Hvy Hz. cbn [SFmul] in Hz.
  assert (Hn1 := SFmul_exponent mx my ex ey Hvx Hvy).
  assert (Hin : inbetween (Z.pos (mx * my)) loc_Exact (inject_Z (Z.pos (mx * my))))
    by (cbn [inbetween]; reflexivity).
  pose proof (binary_round_aux_zero_small _ _ _ _ _ _ (Pos2Z.is_nonneg _) Hin Hn1 Hz)
    as Hsmall.
  cbn [SF2Q].
  setoid_replace (sgn sx * (inject_Z (Z.pos mx) * pow2 ex)
                  * (sgn sy * (inject_Z (Z.pos my) * pow2 ey)))%Q
    with (sgn (xorb sx sy) * (inject_Z (Z.pos (mx * my)) * pow2 (ex + ey)))%Q
    by (rewrite sgn_xorb, pow2_add, Pos2Z.inj_mul, inject_Z_mult; ring).
  rewrite Qabs_sgn. exact Hsmall.
Qed.

(** The model of multiplication: a F64.finite product has F64.finite factors and
    is within 2^-53 of itself, and half the least positive number, of
    the exact product. *)
Lemma SFmul_model (x y : spec_float) :
  valid_binary x = true -> valid_binary y = true ->
  valid_binary (SFmul prec emax x y) = true ->
  SFfinite (SFmul prec emax x y) = true ->
  SFfinite x = true /\ SFfinite y = true
  /\ (Qabs (SF2Q (SFmul prec emax x y) - SF2Q x * SF2Q y)
      <= u64 * Qabs (SF2Q (SFmul prec emax x y)) + eta64)%Q.
Proof.
  intros Hvx Hvy Hvz Hf.
  destruct (SFmul_finite_inv _ _ Hf) as [Hfx Hfy].
  split; [exact Hfx |]. split; [exact Hfy |].
  pose proof eta64_pos as Heta.
  destruct x as [sx | sx | | sx mx ex]; try discriminate Hfx;
    destruct y as [sy | sy | | sy my ey]; try discriminate Hfy.
  - cbn [SFmul SF2Q]. setoid_replace (0 - 0 * 0)%Q with 0%Q by ring.
    cbn [Qabs Z.abs Qnum Qden]. set (E := eta64) in *. clearbody E.
    change (Qabs 0) with 0%Q. lra.
  - cbn [SFmul SF2Q].
    setoid_replace (0 - 0 * (sgn sy * (inject_Z (Z.pos my) * pow2 ey)))%Q
      with 0%Q by ring.
    set (E := eta64) in *. clearbody E. change (Qabs 0) with 0%Q. lra.
  - cbn [SFmul SF2Q].
    setoid_replace (0 - sgn sx * (inject_Z (Z.pos mx) * pow2 ex) * 0)%Q
      with 0%Q by ring.
    set (E := eta64) in *. clearbody E. change (Qabs 0) with 0%Q. lra.
  - destruct (SFmul prec emax (S754_finite sx mx ex) (S754_finite sy my ey))
      as [s | s | | s m e] eqn:Hz; try discriminate Hf.
    + pose proof (SFmul_zero_spec _ _ _ _ _ _ _ Hvx Hvy Hz) as Hsmall.
      cbn [SF2Q] in Hsmall |- *.
      set (V := (sgn sx * (inject_Z (Z.pos mx) * pow2 ex)
                 * (sgn sy * (inject_Z (Z.pos my) * pow2 ey)))%Q) in *.
      setoid_replace (0 - V)%Q with (- V)%Q by ring. rewrite Qabs_opp.
      change (Qabs 0) with 0%Q.
      set (E := eta64) in *. set (W := Qabs V) in *. clearbody E W. lra.
    + apply half_ulp_finite; [exact Hvz |].
      exact (SFmul_finite_spec _ _ _ _ _ _ _ _ _ Hvx Hvy Hz).
Qed.

Lemma SFdiv_zero_spec (sx : bool) (mx : positive) (ex : Z)
    (sy : bool) (my : positive) (ey : Z) (s : bool) :
  SFdiv prec emax (S754_finite sx mx ex) (S754_finite sy my ey) = S754_zero s ->
  (Qabs (SF2Q (S754_finite sx mx ex) / SF2Q (S754_finite sy my ey)) <= eta64)%Q.
Proof.
  cbn [SFdiv]. pose proof (SFdiv_core_spec mx my ex ey) as Hcore.
  destruct (SFdiv_core_binary prec emax (Z.pos mx) ex (Z.pos my) ey) as [[q e'] l].
  destruct Hcore as (Hq & He' & Hin & Hn1). intros Hz.
  pose proof (binary_round_aux_zero_small _ _ _ _ _ _ Hq Hin Hn1 Hz) as Hsmall.
  assert (Hmy : ~ (inject_Z (Z.pos my) == 0)%Q).
  { intros E. assert (H0 : (0 < inject_Z (Z.pos my))%Q) by reflexivity.
    rewrite E in H0. discriminate. }
  assert (Hval : (SF2Q (S754_finite sx mx ex) / SF2Q (S754_finite sy my ey)
                  == sgn (xorb sx sy)
                     * (inject_Z (Z.pos mx * 2 ^ (ex - ey - e'))
                        / inject_Z (Z.pos my) * pow2 e'))%Q).
  { cbn [SF2Q]. rewrite inject_Z_mult.
    rewrite <- (pow2_Z (ex - ey - e')) by lia.
    replace (ex - ey - e') with ((ex - ey) - e') by lia.
    rewrite (pow2_sub (ex - ey) e'), (pow2_sub ex ey).
    pose proof (pow2_neq_0 ey). pose proof (pow2_neq_0 e').
    set (A := inject_Z (Z.pos mx)) in *. set (B := inject_Z (Z.pos my)) in *.
    set (Px := pow2 ex) in *. set (Py := pow2 ey) in *. set (P' := pow2 e') in *.
    clearbody A B Px Py P'.
    destruct sx, sy; cbn [sgn xorb]; field; repeat split; assumption. }
  rewrite Hval, Qabs_sgn. exact Hsmall.
Qed.

(** The model of division: a F64.finite quotient by a F64.finite number has a
    F64.finite dividend and a divisor other than zero, and is within 2^-53
    of itself, and half the least positive number, of the exact
    quotient. *)
Lemma SFdiv_model (x y : spec_float) :
  valid_binary (SFdiv prec emax x y) = true ->
  SFfinite (SFdiv prec emax x y) = true -> SFfinite y = true ->
  SFfinite x = true /\ SFzero y = false
  /\ (Qabs (SF2Q (SFdiv prec emax x y) - SF2Q x / SF2Q y)
      <= u64 * Qabs (SF2Q (SFdiv prec emax x y)) + eta64)%Q.
Proof.
  intros Hvz Hf Hfy.
  destruct (SFdiv_finite_inv _ _ Hf Hfy) as [Hfx Hy].
  split; [exact Hfx |]. split; [exact Hy |].
  pose proof eta64_pos as Heta.
  destruct x as [sx | sx | | sx mx ex]; try discriminate Hfx;
    destruct y as [sy | sy | | sy my ey]; try discriminate Hfy;
    try discriminate Hy.
  - cbn [SFdiv SF2Q].
    setoid_replace (0 - 0 / (sgn sy * (inject_Z (Z.pos my) * pow2 ey)))%Q
      with 0%Q by (unfold Qdiv; ring).
    set (E := eta64) in *. clearbody E. change (Qabs 0) with 0%Q. lra.
  - destruct (SFdiv prec emax (S754_finite sx mx ex) (S754_finite sy my ey))
      as [s | s | | s m e] eqn:Hz; try discriminate Hf.
    + pose proof (SFdiv_zero_spec _ _ _ _ _ _ _ Hz) as Hsmall.
      set (V := (SF2Q (S754_finite sx mx ex) / SF2Q (S754_finite sy my ey))%Q) in *.
      cbn [SF2Q]. setoid_replace (0 - V)%Q with (- V)%Q by ring. rewrite Qabs_opp.
      change (Qabs 0) with 0%Q.
      set (E := eta64) in *. set (W := Qabs V) in *. clearbody E W. lra.
    + apply half_ulp_finite; [exact Hvz |].
      exact (SFdiv_finite_spec _ _ _ _ _ _ _ _ _ Hz).
Qed.

(** *** The operations of binary64, with underflow *)

Lemma mul_model (x y : float) :
  F64.finite (x * y) = true ->
  F64.finite x = true /\ F64.finite y = true
  /\ (Qabs (F64.to_Q (x * y) - F64.to_Q x * F64.to_Q y)
      <= u64 * Qabs (F64.to_Q (x * y)) + eta64)%Q.
Proof.
  unfold F64.finite, F64.to_Q. rewrite FloatAxioms.mul_spec. intros Hf.
  apply SFmul_model; try apply Prim2SF_valid; [| exact Hf].
  change (SFmul prec emax (Prim2SF x) (Prim2SF y))
    with (SF64mul (Prim2SF x) (Prim2SF y)).
  rewrite <- FloatAxioms.mul_spec. apply Prim2SF_valid.
Qed.

Lemma div_model (x y : float) :
  F64.finite (x / y) = true -> F64.finite y = true ->
  F64.finite x = true /\ ~ (F64.to_Q y == 0)%Q
  /\ (Qabs (F64.to_Q (x / y) - F64.to_Q x / F64.to_Q y)
      <= u64 * Qabs (F64.to_Q (x / y)) + eta64)%Q.
Proof.
  unfold F64.finite, F64.to_Q. rewrite FloatAxioms.div_spec. intros Hf Hfy.
  assert (Hvz : valid_binary (SFdiv prec emax (Prim2SF x) (Prim2SF y)) = true).
  { change (SFdiv prec emax (Prim2SF x) (Prim2SF y))
      with (SF64div (Prim2SF x) (Prim2SF y)).
    rewrite <- FloatAxioms.div_spec. apply Prim2SF_valid. }
  destruct (SFdiv_model _ _ Hvz Hf Hfy) as (Hfx & Hy & Hclose).
  split; [exact Hfx |]. split; [exact (SF2Q_nonzero _ Hfy Hy) | exact Hclose].
Qed.

(** From a bound relative to the rounded result to one relative to the
    exact value. *)
Lemma inverse_to_forward_underflow (z v : Q) :
  (Qabs (z - v) <= u64 * Qabs z + eta64)%Q ->
  (Qabs (z - v) <= u64' * Qabs v + 2 * eta64)%Q.
Proof.
  intros H. pose proof eta64_pos as Heta.
  assert (Htri : (Qabs z <= Qabs v + Qabs (z - v))%Q).
  { setoid_replace z with (v + (z - v))%Q at 1 by ring. apply Qabs_triangle. }
  pose proof (Qabs_nonneg v) as Hv.
  unfold u64, u64' in *.
  set (d := Qabs (z - v)) in *. set (az := Qabs z) in *. set (av := Qabs v) in *.
  set (E := eta64) in *. clearbody d az av E. lra.
Qed.

End Binary64.

(** *** The round trip, operation by operation *)

Section RoundTrip.
Unset Implicit Arguments.
Local Open Scope Q_scope.

Lemma Qabs_bound (x B : Q) : (- B <= x)%Q -> (x <= B)%Q -> (Qabs x <= B)%Q.
Proof. intros H1 H2. apply Qabs_Qle_condition. split; assumption. Qed.

Lemma Qabs_interval (x : Q) : (- Qabs x <= x /\ x <= Qabs x)%Q.
Proof. apply Qabs_Qle_condition. apply Qle_refl. Qed.

Lemma Qmult_le_nonneg_l (c x y : Q) : (0 <= c)%Q -> (x <= y)%Q -> (c * x <= c * y)%Q.
Proof.
  intros Hc Hxy. rewrite (Qmult_comm c x), (Qmult_comm c y).
  apply Qmult_le_compat_r; assumption.
Qed.

(** The six operations of the round trip, each within [u] of its exact
    result, the quotient and the product up to [e] more: the outcome is
    off by at most eight such units of the magnitudes involved, and
    three times [e] on the scale of the page height. *)
Lemma round_trip_steps (u e H p h a1 a2 y m t r : Q) :
  (0 <= u)%Q -> (u <= 1 # 16)%Q -> (0 <= e)%Q -> ~ (H == 0)%Q ->
  (Qabs (a1 - (H - p)) <= u * Qabs (H - p))%Q ->
  (Qabs (a2 - (a1 - h)) <= u * Qabs (a1 - h))%Q ->
  (Qabs (y - a2 / H) <= u * Qabs (a2 / H) + e)%Q ->
  (Qabs (m - y * H) <= u * Qabs (y * H) + e)%Q ->
  (Qabs (t - (H - m)) <= u * Qabs (H - m))%Q ->
  (Qabs (r - (t - h)) <= u * Qabs (t - h))%Q ->
  (Qabs (r - p)
   <= 8 * u * (Qabs H + Qabs p + Qabs h) + 3 * e * (1 + Qabs H))%Q.
Proof.
  intros Hu0 Hu1 He0 HH E1 E2 E3 E4 E5 E6.
  pose proof (Qabs_interval H) as [HHl HHu].
  pose proof (Qabs_interval p) as [Hpl Hpu].
  pose proof (Qabs_interval h) as [Hhl Hhu].
  pose proof (Qabs_nonneg H) as HH0.
  pose proof (Qabs_nonneg p) as Hp0.
  pose proof (Qabs_nonneg h) as Hh0.
  setoid_replace (8 * u * (Qabs H + Qabs p + Qabs h) + 3 * e * (1 + Qabs H))%Q
    with (8 * (u * (Qabs H + Qabs p + Qabs h)) + 3 * (e * (1 + Qabs H)))%Q by ring.
  set (A := (Qabs H + Qabs p + Qabs h)%Q).
  assert (HA : (A == Qabs H + Qabs p + Qabs h)%Q) by reflexivity.
  clearbody A.
  set (U := (u * A)%Q).
  assert (HU0 : (0 <= U)%Q) by (unfold U; apply Qmult_le_0_compat; lra).
  set (E := (e * (1 + Qabs H))%Q).
  assert (HeH : (0 <= e * Qabs H)%Q) by (apply Qmult_le_0_compat; assumption).
  assert (HE : (E == e + e * Qabs H)%Q) by (unfold E; ring).
  assert (HE0 : (0 <= E)%Q) by lra.
  assert (Hsix : forall X : Q, (0 <= X)%Q -> (u * X <= (1 # 16) * X)%Q)
    by (intros X HX; apply Qmult_le_compat_r; assumption).
  (* one operation, on an argument bounded by A + c U + k E *)
  assert (HW : forall c k : Q, (0 <= c)%Q -> (0 <= k)%Q ->
             (u * (A + c * U + k * E)
              <= U + c * (1 # 16) * U + k * (1 # 16) * E)%Q).
  { intros c k Hc Hk.
    pose proof (Qmult_le_nonneg_l c _ _ Hc (Hsix U HU0)) as HcU.
    pose proof (Qmult_le_nonneg_l k _ _ Hk (Hsix E HE0)) as HkE.
    setoid_replace (u * (A + c * U + k * E))%Q
      with (U + c * (u * U) + k * (u * E))%Q by (unfold U; ring).
    setoid_replace (c * (1 # 16) * U)%Q with (c * ((1 # 16) * U))%Q by ring.
    setoid_replace (k * (1 # 16) * E)%Q with (k * ((1 # 16) * E))%Q by ring.
    set (cU := (c * (u * U))%Q) in *. set (cU' := (c * ((1 # 16) * U))%Q) in *.
    set (kE := (k * (u * E))%Q) in *. set (kE' := (k * ((1 # 16) * E))%Q) in *.
    clearbody cU cU' kE kE'. lra. }
  assert (Hstep : forall rx x c k e' : Q,
             (Qabs (rx - x) <= u * Qabs x + e')%Q ->
             (0 <= c)%Q -> (0 <= k)%Q -> (Qabs x <= A + c * U + k * E)%Q ->
             (- (U + c * (1 # 16) * U + k * (1 # 16) * E + e') <= rx - x
              /\ rx - x <= U + c * (1 # 16) * U + k * (1 # 16) * E + e')%Q).
  { intros rx x c k e' Hrx Hc Hk Hx.
    apply Qabs_Qle_condition.
    pose proof (HW c k Hc Hk) as W.
    pose proof (Qmult_le_nonneg_l u _ _ Hu0 Hx) as Hux.
    set (B := (u * (A + c * U + k * E))%Q) in *.
    set (D := Qabs (rx - x)) in *. set (X := (u * Qabs x)%Q) in *.
    clearbody B D X. lra. }
  assert (Hrel : forall rx x : Q,
             (Qabs (rx - x) <= u * Qabs x)%Q -> (Qabs (rx - x) <= u * Qabs x + 0)%Q)
    by (intros rx x Hrx; rewrite Qplus_0_r; exact Hrx).
  (* the division, seen through the product that follows it *)
  assert (Hdiv : forall c : Q, (0 <= c)%Q -> (Qabs a2 <= A + c * U + 0 * E)%Q ->
             (- (U + c * (1 # 16) * U + E) <= y * H - a2
              /\ y * H - a2 <= U + c * (1 # 16) * U + E)%Q).
  { intros c Hc Ha.
    apply Qabs_Qle_condition.
    pose proof (HW c 0 Hc ltac:(lra)) as W.
    pose proof (Qmult_le_nonneg_l u _ _ Hu0 Ha) as Hua.
    apply Qle_trans with (u * Qabs a2 + e * Qabs H)%Q.
    - setoid_replace (y * H - a2)%Q with ((y - a2 / H) * H)%Q
        by (field; exact HH).
      rewrite Qabs_Qmult.
      apply Qle_trans with ((u * Qabs (a2 / H) + e) * Qabs H)%Q.
      + apply Qmult_le_compat_r; [exact E3 | exact HH0].
      + setoid_replace ((u * Qabs (a2 / H) + e) * Qabs H)%Q
          with (u * (Qabs (a2 / H) * Qabs H) + e * Qabs H)%Q by ring.
        rewrite <- Qabs_Qmult.
        setoid_replace (a2 / H * H)%Q with a2 by (field; exact HH).
        apply Qle_refl.
    - set (B := (u * (A + c * U + 0 * E))%Q) in *.
      set (X := (u * Qabs a2)%Q) in *. set (Y := (e * Qabs H)%Q) in *.
      clearbody B X Y. lra. }
  clear HW Hsix. clearbody U E.
  destruct (Hstep a1 (H - p)%Q 0%Q 0%Q 0%Q (Hrel _ _ E1)) as [L1 R1];
    [lra | lra | apply Qabs_bound; lra |].
  destruct (Hstep a2 (a1 - h)%Q 1%Q 0%Q 0%Q (Hrel _ _ E2)) as [L2 R2];
    [lra | lra | apply Qabs_bound; lra |].
  destruct (Hdiv (33 # 16)%Q) as [L3 R3];
    [lra | apply Qabs_bound; lra |].
  set (nH := (y * H)%Q) in *. clearbody nH.
  destruct (Hstep m nH (817 # 256)%Q 1%Q e E4) as [L4 R4];
    [lra | lra | apply Qabs_bound; lra |].
  destruct (Hstep t (H - m)%Q (17985 # 4096)%Q (33 # 16)%Q 0%Q (Hrel _ _ E5))
    as [L5 R5];
    [lra | lra | apply Qabs_bound; lra |].
  destruct (Hstep r (t - h)%Q 6%Q (5 # 2)%Q 0%Q (Hrel _ _ E6)) as [L6 R6];
    [lra | lra | apply Qabs_bound; lra |].
  apply Qabs_bound; lra.
Qed.

End RoundTrip.

Set Implicit Arguments.

(** ** The coordinate transforms *)

(** In exact arithmetic the transform of embedding undoes the scanner's,
    on every page of a height other than zero. *)
Lemma y_round_trip_exact (pageHeight pageY h : Q) :
  ~ (pageHeight == 0)%Q ->
  (yPos pageHeight (normalizedY pageHeight pageY h) h == pageY)%Q.
Proof.
  intros Hne. unfold yPos, normalizedY, uiY. cbn [nsub nmul ndiv Number_Q].
  field. exact Hne.
Qed.

(** C1. In binary64, the arithmetic the program runs: for every page
    height, fragment height and page-content y, whenever the inverse
    transform of embedding, applied to the scanner's normalized y with
    the same height in both directions, comes out finite, the three
    inputs are finite, the page height is not zero, and the outcome is
    the y it started from up to
    8 u (|H| + |pageY| + |h|) + 3 t (1 + |H|),
    where u = 1 / (2^53 - 1) is one rounding unit and t = 2^-1074 the
    least positive number (the part that underflow of the quotient or
    of the product can add). *)
Theorem y_transform_round_trip :
  forall (pageHeight pageY h : float),
    let back := yPos pageHeight (normalizedY pageHeight pageY h) h in
    F64.finite back = true ->
    (F64.finite pageHeight = true /\ F64.finite pageY = true
     /\ F64.finite h = true /\ ~ (F64.to_Q pageHeight == 0)%Q)
    /\ (Qabs (F64.to_Q back - F64.to_Q pageY)
        <= 8 * u64' * (Qabs (F64.to_Q pageHeight) + Qabs (F64.to_Q pageY)
                       + Qabs (F64.to_Q h))
           + 3 * tiny64 * (1 + Qabs (F64.to_Q pageHeight)))%Q.
Proof.
  intros pageHeight pageY h back. unfold back, yPos, normalizedY, uiY.
  cbn [nsub nmul ndiv Number_float]. intros Hfin.
  destruct (sub_model _ _ Hfin) as (Ft & Fh & E6).
  destruct (sub_model _ _ Ft) as (FH & Fm & E5).
  destruct (mul_model _ _ Fm) as (Fy & _ & E4).
  destruct (div_model _ _ Fy FH) as (Fa2 & HH & E3).
  destruct (sub_model _ _ Fa2) as (Fa1 & _ & E2).
  destruct (sub_model _ _ Fa1) as (_ & Fp & E1).
  apply inverse_to_forward in E1, E2, E5, E6.
  apply inverse_to_forward_underflow in E3, E4.
  rewrite tiny64_double in E3, E4.
  split; [repeat split; assumption |].
  assert (Ht : (0 <= tiny64)%Q) by (apply Qlt_le_weak, pow2_pos).
  exact (round_trip_steps u64' tiny64 _ _ _ _ _ _ _ _ _
           ltac:(discriminate) ltac:(discriminate) Ht HH E1 E2 E3 E4 E5 E6).
Qed.

Lemma y_transform_round_trip_witness :
  let pageHeight := (lit 84189 / lit 100)%js in
  let pageY := (lit 123456 / lit 1000)%js in
  let h := (lit 113 / lit 10)%js in
  let back := yPos pageHeight (normalizedY pageHeight pageY h) h in
  PrimFloat.eqb back pageY = false
  /\ (Qabs (F64.to_Q back - F64.to_Q pageY)
      <= 8 * u64' * (Qabs (F64.to_Q pageHeight) + Qabs (F64.to_Q pageY)
                     + Qabs (F64.to_Q h))
         + 3 * tiny64 * (1 + Qabs (F64.to_Q pageHeight)))%Q.
Proof.
  intros pageHeight pageY h back. split; [reflexivity |].
  refine (proj2 (@y_transform_round_trip pageHeight pageY h _)).
  vm_compute. reflexivity.
Defined.

(** The round trip does not always recover the y.  On a page of height
    zero it gives NaN, which is within no tolerance of anything; and on
    finite inputs with a page height other than zero it can overflow:
    a page 2^1023 high and a y of -2^1023 give -infinity. *)
Lemma y_round_trip_not_recovered :
  (let back := yPos 0%float (normalizedY 0%float 700%float 12%float) 12%float in
   PrimFloat.is_nan back = true
   /\ forall eps : float,
        PrimFloat.leb (PrimFloat.abs (PrimFloat.sub back 700%float)) eps = false)
  /\ (let pageHeight := 0x1p1023%float in
      let pageY := (- 0x1p1023)%float in
      let back := yPos pageHeight (normalizedY pageHeight pageY 0%float) 0%float in
      F64.finite pageHeight = true /\ F64.finite pageY = true
      /\ back = PrimFloat.neg_infinity
      /\ PrimFloat.abs (PrimFloat.sub back pageY) = PrimFloat.infinity).
Proof.
  split.
  - cbv zeta. split; [reflexivity |]. intros eps.
    rewrite FloatAxioms.leb_spec.
    replace (Prim2SF (PrimFloat.abs
               (PrimFloat.sub
                  (yPos 0%float (normalizedY 0%float 700%float 12%float) 12%float)
                  700%float)))
      with S754_nan by (vm_compute; reflexivity).
    reflexivity.
  - cbv zeta. repeat split; vm_compute; reflexivity.
Qed.

(** The round trip in binary64: exact on the page of C3, and off by no
    more than 2^-45 on an A4 page (841.89 high, y = 123.456,
    h = 11.3). *)
Example y_round_trip_binary64_letter :
  yPos 792%float (normalizedY 792%float 700%float 12%float) 12%float = 700%float.
Proof. reflexivity. Qed.

Example y_round_trip_binary64_a4 :
  let pageHeight := (lit 84189 / lit 100)%js in
  let pageY := (lit 123456 / lit 1000)%js in
  let h := (lit 113 / lit 10)%js in
  let back := yPos pageHeight (normalizedY pageHeight pageY h) h in
  PrimFloat.eqb back pageY = false
  /\ PrimFloat.leb (PrimFloat.abs (PrimFloat.sub back pageY)) 0x1p-45%float = true.
Proof. split; reflexivity. Qed.

(* ================================================================== *)
(** * Further properties of the code *)

(** ** The document store: lookup, saving twice, deleting *)

Section StoreFacts.
Context {num : Type}.

(** A list splits at the first element that satisfies [p], or has none. *)
Lemma first_match_split {A} (p : A -> bool) (xs : list A) :
  (exists l1 d l2, xs = l1 ++ d :: l2 /\ p d = true
                   /\ forall x, In x l1 -> p x = false)
  \/ (forall x, In x xs -> p x = false).
Proof.
  induction xs as [| a rest IH].
  - right. intros x [].
  - destruct (p a) eqn:Ha.
    + left. exists [], a, rest. split; [reflexivity |]. split; [exact Ha |].
      intros x [].
    + destruct IH as [(l1 & d & l2 & -> & Hd & Hl1) | Hnone].
      * left. exists (a :: l1), d, l2. split; [reflexivity |]. split; [exact Hd |].
        intros x [<- | Hx]; [exact Ha | exact (Hl1 x Hx)].
      * right. intros x [<- | Hx]; [exact Ha | exact (Hnone x Hx)].
Qed.

(** What [saveDocument] writes: the first record with the identifier
    replaced, or the new record in front. *)
Lemma updated_docs_cases (docs : list (DocumentMetadata.t num))
    (doc : DocumentMetadata.t num) :
  let same := fun d => (DocumentMetadata.id d =? DocumentMetadata.id doc)%string in
  (exists l1 d l2, docs = l1 ++ d :: l2 /\ same d = true
                   /\ (forall x, In x l1 -> same x = false)
                   /\ updated_docs docs doc = l1 ++ doc :: l2)
  \/ ((forall x, In x docs -> same x = false)
      /\ updated_docs docs doc = doc :: docs).
Proof.
  intros same.
  destruct (first_match_split same docs) as [(l1 & d & l2 & -> & Hd & Hl1) | Hnone].
  - left. exists l1, d, l2. repeat split; try assumption.
    unfold updated_docs, findIndex. fold same.
    rewrite (findIndex_from_first same l1 d l2 Hl1 Hd).
    replace (0 <=? 0 + Z.of_nat (List.length l1))%Z with true
      by (symmetry; apply Z.leb_le; lia).
    simpl Z.add. rewrite Nat2Z.id. apply set_nth_middle.
  - right. split; [exact Hnone |].
    unfold updated_docs, findIndex. fold same.
    rewrite (findIndex_from_none same docs Hnone). reflexivity.
Qed.

Lemma find_app_none {A} (p : A -> bool) (l1 l2 : list A) :
  (forall x, In x l1 -> p x = false) -> find p (l1 ++ l2) = find p l2.
Proof.
  intros Hl1. induction l1 as [| a l1 IH]; [reflexivity |].
  simpl. rewrite (Hl1 a (or_introl eq_refl)).
  apply IH. intros x Hx. apply Hl1. right. exact Hx.
Qed.

Lemma find_replace {A} (p : A -> bool) (l1 : list A) (a b : A) (l2 : list A) :
  p a = false -> p b = false -> find p (l1 ++ a :: l2) = find p (l1 ++ b :: l2).
Proof.
  intros Ha Hb. induction l1 as [| c l1 IH]; simpl.
  - rewrite Ha, Hb. reflexivity.
  - rewrite IH. reflexivity.
Qed.

Lemma find_filter_other {A} (p q : A -> bool) (xs : list A) :
  (forall x, p x = true -> q x = true) ->
  find p (filter q xs) = find p xs.
Proof.
  intros Hpq. induction xs as [| a rest IH]; [reflexivity |].
  simpl. destruct (q a) eqn:Hq; simpl.
  - rewrite IH. reflexivity.
  - destruct (p a) eqn:Hp; [| exact IH].
    rewrite (Hpq a Hp) in Hq. discriminate Hq.
Qed.

Lemma find_filter_none {A} (p q : A -> bool) (xs : list A) :
  (forall x, p x = true -> q x = false) ->
  find p (filter q xs) = None.
Proof.
  intros Hpq. induction xs as [| a rest IH]; [reflexivity |].
  simpl. destruct (q a) eqn:Hq; simpl; [| exact IH].
  destruct (p a) eqn:Hp; [| exact IH].
  rewrite (Hpq a Hp) in Hq. discriminate Hq.
Qed.

Lemma filter_all {A} (q : A -> bool) (xs : list A) :
  (forall x, In x xs -> q x = true) -> filter q xs = xs.
Proof.
  intros Hq. induction xs as [| a rest IH]; [reflexivity |].
  simpl. rewrite (Hq a (or_introl eq_refl)). f_equal.
  apply IH. intros x Hx. apply Hq. right. exact Hx.
Qed.

Lemma NoDup_map_filter {A B} (f : A -> B) (q : A -> bool) (xs : list A) :
  NoDup (map f xs) -> NoDup (map f (filter q xs)).
Proof.
  induction xs as [| a rest IH]; intros Hnd; [constructor |].
  simpl in Hnd. inversion Hnd as [| b l Hnotin Hrest]; subst.
  simpl. destruct (q a); [| exact (IH Hrest)].
  simpl. constructor; [| exact (IH Hrest)].
  intros Hin. apply Hnotin. apply in_map_iff in Hin.
  destruct Hin as (x & Hfx & Hx). apply filter_In in Hx.
  apply in_map_iff. exists x. split; [exact Hfx | apply Hx].
Qed.

(** Removing the records of an identifier undoes what saving a record
    of that identifier added. *)
Lemma filter_updated_docs (docs : list (DocumentMetadata.t num))
    (doc : DocumentMetadata.t num) :
  filter (fun d => negb (DocumentMetadata.id d =? DocumentMetadata.id doc)%string)
         (updated_docs docs doc)
  = filter (fun d => negb (DocumentMetadata.id d =? DocumentMetadata.id doc)%string)
           docs.
Proof.
  destruct (updated_docs_cases docs doc)
    as [(l1 & d & l2 & -> & Hd & _ & ->) | (_ & ->)].
  - rewrite !filter_app. simpl. rewrite Hd, String.eqb_refl. reflexivity.
  - simpl. rewrite String.eqb_refl. reflexivity.
Qed.

End StoreFacts.

(** A record whose numbers JSON carries reads back as itself, and so
    does an array of such records. *)
Lemma JSON_document_survivor {num} `{Number num} (doc : DocumentMetadata.t num) :
  survives_JSON doc -> JSON_document doc = Some doc.
Proof.
  unfold survives_JSON, JSON_document. destruct doc as [i t f u st tg sm o sd sigs].
  cbn [DocumentMetadata.signatures DocumentMetadata.id DocumentMetadata.title
       DocumentMetadata.filename DocumentMetadata.uploadDate DocumentMetadata.status
       DocumentMetadata.tags DocumentMetadata.summary DocumentMetadata.originalPdfData
       DocumentMetadata.signedPdfData].
  intros Hall.
  assert (Hsigs : all_some (map JSON_signature sigs) = Some sigs).
  { induction Hall as [| s rest (Hx & Hy & Hw & Hh) _ IH]; [reflexivity |].
    cbn [map all_some]. unfold JSON_signature at 1.
    rewrite Hx, Hy, Hw, Hh, IH. destruct s; reflexivity. }
  rewrite Hsigs. reflexivity.
Qed.

Lemma JSON_read_back_survivors {num} `{Number num}
    (docs : list (DocumentMetadata.t num)) :
  Forall survives_JSON docs -> JSON_read_back docs = Some docs.
Proof.
  unfold JSON_read_back. intros Hall.
  induction Hall as [| doc rest Hdoc _ IH]; [reflexivity |].
  cbn [map all_some]. rewrite (JSON_document_survivor Hdoc), IH. reflexivity.
Qed.

(** X1. A save the browser accepts, of a record that [JSON.stringify]
    and [JSON.parse] give back as it was (its numbers are finite and
    none is -0) into a store of such records: the text written reads
    back as the array that was written, looking the saved record up by
    its identifier gives that record, and looking up any other
    identifier gives what it gave before. *)
Theorem save_then_lookup :
  forall (num : Type) (N : Number num)
         (quota_ok : list (DocumentMetadata.t num) -> bool)
         (ls : local_storage) (doc : DocumentMetadata.t num),
    survives_JSON doc ->
    Forall survives_JSON (getDocuments ls) ->
    quota_ok (updated_docs (getDocuments ls) doc) = true ->
    let ls' := fst (saveDocument quota_ok ls doc) in
    JSON_read_back (updated_docs (getDocuments ls) doc) = Some (getDocuments ls')
    /\ getDocumentById ls' (DocumentMetadata.id doc) = Some doc
    /\ (forall other,
          other <> DocumentMetadata.id doc ->
          getDocumentById ls' other = getDocumentById ls other).
Proof.
  intros num N quota_ok ls doc Hdoc Hstore Hquota ls'.
  assert (Hls' : getDocuments ls' = updated_docs (getDocuments ls) doc).
  { unfold ls', saveDocument. rewrite Hquota. reflexivity. }
  split.
  { rewrite Hls'. apply JSON_read_back_survivors.
    destruct (updated_docs_cases (getDocuments ls) doc)
      as [(l1 & d & l2 & Hdocs & _ & _ & ->) | (_ & ->)].
    - rewrite Hdocs in Hstore. apply Forall_app in Hstore. destruct Hstore as [H1 H2].
      apply Forall_app. split; [exact H1 |].
      constructor; [exact Hdoc | exact (Forall_inv_tail H2)].
    - constructor; assumption. }
  unfold getDocumentById. rewrite Hls'.
  destruct (updated_docs_cases (getDocuments ls) doc)
    as [(l1 & d & l2 & Hdocs & Hd & Hl1 & ->) | (Hnone & ->)].
  - split.
    + rewrite find_app_none by exact Hl1.
      simpl. rewrite String.eqb_refl. reflexivity.
    + intros other Hother. rewrite Hdocs. apply find_replace.
      * apply String.eqb_neq. intros E. apply Hother. symmetry. exact E.
      * apply String.eqb_eq in Hd. apply String.eqb_neq. intros E.
        apply Hother. rewrite <- E. exact Hd.
  - split.
    + simpl. rewrite String.eqb_refl. reflexivity.
    + intros other Hother. simpl.
      replace (DocumentMetadata.id doc =? other)%string with false; [reflexivity |].
      symmetry. apply String.eqb_neq. intros E. apply Hother. symmetry. exact E.
Qed.

Lemma save_then_lookup_witness :
  let record := fun (id title : string) (mark : option string) =>
    DocumentMetadata.mk id title "file.pdf" "2024-01-01T00:00:00.000Z"
      "unsigned" [] "" "data:application/pdf;base64,ONE" None
      [@scanned_placement float _ "a" 0 mark] in
  let quota := fun docs : list (DocumentMetadata.t float) =>
    (List.length docs <=? 3)%nat in
  let ls := Some (Json [record "x" "first" None; record "y" "second" None]) in
  let doc := record "y" "second, marked" (Some "data:image/png;base64,WIDE") in
  let ls' := fst (saveDocument quota ls doc) in
  JSON_read_back [record "x" "first" None; doc] = Some (getDocuments ls')
  /\ getDocumentById ls' "y" = Some doc
  /\ getDocumentById ls' "x" = Some (record "x" "first" None).
Proof.
  intros record quota ls doc ls'.
  destruct (@save_then_lookup float Number_float quota ls doc)
    as (Hread & Hsaved & Hothers).
  - repeat constructor.
  - repeat constructor.
  - reflexivity.
  - split; [exact Hread |]. split; [exact Hsaved |].
    unfold ls'. rewrite (Hothers "x"); [reflexivity | discriminate].
Defined.

(** X2. Saving the same record a second time changes nothing: the store
    is the one the first save left. *)
Theorem save_twice_is_save_once :
  forall (num : Type) (quota_ok : list (DocumentMetadata.t num) -> bool)
         (ls : local_storage) (doc : DocumentMetadata.t num),
    quota_ok (updated_docs (getDocuments ls) doc) = true ->
    saveDocument quota_ok (fst (saveDocument quota_ok ls doc)) doc
    = saveDocument quota_ok ls doc.
Proof.
  intros num quota_ok ls doc Hquota.
  assert (Hagain : updated_docs (updated_docs (getDocuments ls) doc) doc
                   = updated_docs (getDocuments ls) doc).
  { destruct (updated_docs_cases (getDocuments ls) doc)
      as [(l1 & d & l2 & _ & Hd & Hl1 & ->) | (_ & ->)].
    - destruct (updated_docs_cases (l1 ++ doc :: l2) doc)
        as [(m1 & e & m2 & Hsplit & He & Hm1 & ->) | (Hnone & _)].
      + (* the first match of the new list is the record just written *)
        assert (Hm : m1 = l1 /\ m2 = l2).
        { clear - Hsplit Hl1 Hm1 He. revert m1 Hsplit Hm1.
          induction l1 as [| a l1 IH]; intros [| b m1] Hsplit Hm1; simpl in *.
          - injection Hsplit as _ E. split; [reflexivity | symmetry; exact E].
          - injection Hsplit as E _. subst b.
            specialize (Hm1 doc (or_introl eq_refl)).
            rewrite String.eqb_refl in Hm1. discriminate Hm1.
          - injection Hsplit as E _. subst e.
            rewrite (Hl1 a (or_introl eq_refl)) in He. discriminate He.
          - injection Hsplit as <- Hrest.
            destruct (IH (fun x Hx => Hl1 x (or_intror Hx)) m1 Hrest
                         (fun x Hx => Hm1 x (or_intror Hx))) as [-> ->].
            split; reflexivity. }
        destruct Hm as [-> ->]. reflexivity.
      + exfalso. specialize (Hnone doc (in_elt doc l1 l2)).
        rewrite String.eqb_refl in Hnone. discriminate Hnone.
    - destruct (updated_docs_cases (doc :: getDocuments ls) doc)
        as [(m1 & e & m2 & Hsplit & He & Hm1 & ->) | (Hnone & _)].
      + destruct m1 as [| b m1]; simpl in Hsplit.
        * injection Hsplit as _ <-. reflexivity.
        * injection Hsplit as <- _.
          specialize (Hm1 doc (or_introl eq_refl)).
          rewrite String.eqb_refl in Hm1. discriminate Hm1.
      + exfalso. specialize (Hnone doc (or_introl eq_refl)).
        rewrite String.eqb_refl in Hnone. discriminate Hnone. }
  unfold saveDocument at 2 3. rewrite Hquota. cbn [fst].
  unfold saveDocument. cbn [getDocuments]. rewrite Hagain, Hquota. reflexivity.
Qed.

Lemma save_twice_is_save_once_witness :
  saveDocument sample_quota
    (fst (saveDocument sample_quota
            (Some (Json [sample_record "x" "first"])) (sample_record "y" "second")))
    (sample_record "y" "second")
  = saveDocument sample_quota
      (Some (Json [sample_record "x" "first"])) (sample_record "y" "second").
Proof.
  exact (@save_twice_is_save_once Q sample_quota
           (Some (Json [sample_record "x" "first"])) (sample_record "y" "second")
           eq_refl).
Defined.

(** X3. Identifiers that are pairwise distinct in the store stay so
    through [saveDocument] and through [deleteDocument], whether the
    browser accepts the write or not; a save changes the number of
    records by at most one. *)
Theorem store_ids_stay_distinct :
  forall (num : Type) (quota_ok : list (DocumentMetadata.t num) -> bool)
         (ls : local_storage) (doc : DocumentMetadata.t num) (id : string),
    NoDup (map DocumentMetadata.id (getDocuments ls)) ->
    NoDup (map DocumentMetadata.id
             (getDocuments (fst (saveDocument quota_ok ls doc))))
    /\ NoDup (map DocumentMetadata.id
                (getDocuments (fst (deleteDocument quota_ok ls id))))
    /\ (List.length (getDocuments (fst (saveDocument quota_ok ls doc)))
        = List.length (getDocuments ls)
        \/ List.length (getDocuments (fst (saveDocument quota_ok ls doc)))
           = S (List.length (getDocuments ls))).
Proof.
  intros num quota_ok ls doc id Hnd.
  assert (Hupd : NoDup (map DocumentMetadata.id (updated_docs (getDocuments ls) doc))
                 /\ (List.length (updated_docs (getDocuments ls) doc)
                     = List.length (getDocuments ls)
                     \/ List.length (updated_docs (getDocuments ls) doc)
                        = S (List.length (getDocuments ls)))).
  { destruct (updated_docs_cases (getDocuments ls) doc)
      as [(l1 & d & l2 & Hdocs & Hd & _ & ->) | (Hnone & ->)].
    - rewrite Hdocs in *. apply String.eqb_eq in Hd. split.
      + rewrite map_app in *. simpl in *. rewrite <- Hd. exact Hnd.
      + left. rewrite !length_app. reflexivity.
    - split; [| right; reflexivity].
      simpl. constructor; [| exact Hnd].
      intros Hin. apply in_map_iff in Hin. destruct Hin as (x & Hx & Hin).
      specialize (Hnone x Hin). apply String.eqb_neq in Hnone. contradiction. }
  destruct Hupd as [Hnd' Hlen].
  split; [| split].
  - unfold saveDocument. destruct (quota_ok _); [exact Hnd' | exact Hnd].
  - unfold deleteDocument. destruct (quota_ok _); [| exact Hnd].
    apply NoDup_map_filter. exact Hnd.
  - unfold saveDocument. destruct (quota_ok _); [exact Hlen | left; reflexivity].
Qed.

Lemma store_ids_stay_distinct_witness :
  NoDup (map DocumentMetadata.id
           (getDocuments
              (fst (saveDocument sample_quota
                      (Some (Json [sample_record "x" "first"; sample_record "y" "second"]))
                      (sample_record "y" "second, signed"))))).
Proof.
  refine (proj1 (@store_ids_stay_distinct Q sample_quota
                   (Some (Json [sample_record "x" "first"; sample_record "y" "second"]))
                   (sample_record "y" "second, signed") "x" _)).
  simpl. constructor; [| constructor; [| constructor]].
  - intros [E | []]. discriminate E.
  - intros [].
Defined.

(** X4. After a delete the browser accepts, no record with that
    identifier can be looked up, every other identifier looks up what it
    did before, and deleting an identifier that is not stored leaves the
    records as they were. *)
Theorem delete_then_lookup :
  forall (num : Type) (quota_ok : list (DocumentMetadata.t num) -> bool)
         (ls : local_storage) (id : string),
    quota_ok (filter (fun d => negb (DocumentMetadata.id d =? id)%string)
                     (getDocuments ls)) = true ->
    let ls' := fst (deleteDocument quota_ok ls id) in
    snd (deleteDocument quota_ok ls id) = None
    /\ getDocumentById ls' id = None
    /\ (forall other, other <> id ->
                      getDocumentById ls' other = getDocumentById ls other)
    /\ ((forall d, In d (getDocuments ls) -> DocumentMetadata.id d <> id) ->
        getDocuments ls' = getDocuments ls).
Proof.
  intros num quota_ok ls id Hquota ls'.
  assert (Hls' : getDocuments ls'
                 = filter (fun d => negb (DocumentMetadata.id d =? id)%string)
                          (getDocuments ls)).
  { unfold ls', deleteDocument. rewrite Hquota. reflexivity. }
  split; [unfold deleteDocument; rewrite Hquota; reflexivity |].
  unfold getDocumentById. rewrite Hls'. split; [| split].
  - apply find_filter_none. intros x Hx. rewrite Hx. reflexivity.
  - intros other Hother. apply find_filter_other. intros x Hx.
    apply String.eqb_eq in Hx. apply negb_true_iff. apply String.eqb_neq.
    intros E. apply Hother. rewrite <- Hx. exact E.
  - intros Habsent. apply filter_all. intros x Hx.
    apply negb_true_iff. apply String.eqb_neq. exact (Habsent x Hx).
Qed.

Lemma delete_then_lookup_witness :
  let ls := Some (Json [sample_record "x" "first"; sample_record "y" "second";
                        sample_record "x" "first again"]) in
  let ls' := fst (deleteDocument sample_quota ls "x") in
  getDocumentById ls' "x" = None
  /\ getDocumentById ls' "y" = Some (sample_record "y" "second").
Proof.
  destruct (@delete_then_lookup Q sample_quota
              (Some (Json [sample_record "x" "first"; sample_record "y" "second";
                           sample_record "x" "first again"]))
              "x" eq_refl)
    as (_ & Hgone & Hothers & _).
  split; [exact Hgone |].
  rewrite (Hothers "y"); [reflexivity | discriminate].
Defined.

(** X5. Deleting by the identifier of a record just saved gives the store
    that deleting by that identifier would have given without the save;
    when the identifier was new, that is the records as they were
    before the save. *)
Theorem delete_undoes_save :
  forall (num : Type) (quota_ok : list (DocumentMetadata.t num) -> bool)
         (ls : local_storage) (doc : DocumentMetadata.t num),
    quota_ok (updated_docs (getDocuments ls) doc) = true ->
    quota_ok (filter (fun d => negb (DocumentMetadata.id d
                                     =? DocumentMetadata.id doc)%string)
                     (getDocuments ls)) = true ->
    let saved := fst (saveDocument quota_ok ls doc) in
    deleteDocument quota_ok saved (DocumentMetadata.id doc)
    = deleteDocument quota_ok ls (DocumentMetadata.id doc)
    /\ ((forall d, In d (getDocuments ls) ->
                   DocumentMetadata.id d <> DocumentMetadata.id doc) ->
        getDocuments (fst (deleteDocument quota_ok saved (DocumentMetadata.id doc)))
        = getDocuments ls).
Proof.
  intros num quota_ok ls doc Hsave Hdelete saved.
  assert (Hsaved : getDocuments saved = updated_docs (getDocuments ls) doc).
  { unfold saved, saveDocument. rewrite Hsave. reflexivity. }
  assert (Hsame : deleteDocument quota_ok saved (DocumentMetadata.id doc)
                  = deleteDocument quota_ok ls (DocumentMetadata.id doc)).
  { unfold deleteDocument. rewrite Hsaved, filter_updated_docs, Hdelete.
    reflexivity. }
  split; [exact Hsame |].
  intros Hnew. rewrite Hsame. unfold deleteDocument. rewrite Hdelete. cbn [fst getDocuments].
  apply filter_all. intros x Hx.
  apply negb_true_iff. apply String.eqb_neq. exact (Hnew x Hx).
Qed.

Lemma delete_undoes_save_witness :
  getDocuments
    (fst (deleteDocument sample_quota
            (fst (saveDocument sample_quota
                    (Some (Json [sample_record "x" "first"]))
                    (sample_record "y" "second")))
            "y"))
  = [sample_record "x" "first"].
Proof.
  refine (proj2 (@delete_undoes_save Q sample_quota
                   (Some (Json [sample_record "x" "first"]))
                   (sample_record "y" "second") eq_refl eq_refl) _).
  intros d [<- | []]. discriminate.
Defined.

(** ** The embedding engine: what a run draws and when it is fulfilled *)

Lemma map_indexed_length {A B} (f : nat -> A -> B) (xs : list A) :
  forall i, List.length (map_indexed f i xs) = List.length xs.
Proof. induction xs as [| a rest IH]; intros i; simpl; [| rewrite IH]; reflexivity. Qed.

Lemma map_indexed_ext {A B} (f g : nat -> A -> B) (xs : list A) :
  (forall k a, f k a = g k a) ->
  forall i, map_indexed f i xs = map_indexed g i xs.
Proof.
  intros Hfg. induction xs as [| a rest IH]; intros i; simpl; [reflexivity |].
  rewrite Hfg, IH. reflexivity.
Qed.

Lemma map_indexed_compose {A B C} (f : nat -> B -> C) (g : nat -> A -> B)
    (xs : list A) :
  forall i, map_indexed f i (map_indexed g i xs)
            = map_indexed (fun k a => f k (g k a)) i xs.
Proof.
  induction xs as [| a rest IH]; intros i; simpl; [reflexivity |].
  rewrite IH. reflexivity.
Qed.

Lemma map_indexed_nth {A B} (f : nat -> A -> B) (xs : list A) :
  forall i k, nth_error (map_indexed f i xs) k = option_map (f (i + k)) (nth_error xs k).
Proof.
  induction xs as [| a rest IH]; intros i [| k]; simpl; try reflexivity.
  - rewrite Nat.add_0_r. reflexivity.
  - rewrite IH. rewrite Nat.add_succ_r. reflexivity.
Qed.

Lemma map_indexed_above {A} (g : A -> A) (t : nat) (xs : list A) :
  forall i, t < i ->
  map_indexed (fun k a => if (k =? t)%nat then g a else a) i xs = xs.
Proof.
  induction xs as [| a rest IH]; intros i Hi; simpl; [reflexivity |].
  replace (i =? t)%nat with false by (symmetry; apply Nat.eqb_neq; lia).
  f_equal. apply IH. lia.
Qed.

(** An assignment at an index of the array, seen as a map over it. *)
Lemma set_nth_map_indexed {A} (g : A -> A) (xs : list A) :
  forall i j p,
    nth_error xs j = Some p ->
    set_nth j (g p) xs
    = map_indexed (fun k a => if (k =? i + j)%nat then g a else a) i xs.
Proof.
  induction xs as [| a rest IH]; intros i [| j] p Hj; simpl in *; try discriminate.
  - injection Hj as ->. rewrite Nat.add_0_r, Nat.eqb_refl. f_equal.
    symmetry. apply map_indexed_above. lia.
  - replace (i =? i + S j)%nat with false by (symmetry; apply Nat.eqb_neq; lia).
    f_equal. rewrite (IH (S i) j p Hj).
    apply map_indexed_ext. intros k b.
    replace (S i + j) with (i + S j) by lia. reflexivity.
Qed.

Section DrawingFacts.
Context {num : Type} `{Number num}.
Variable embedPng : string -> option (PdfLib.image num).

Lemma with_drawings_nil (k : nat) (p : PdfLib.page num) :
  with_drawings embedPng [] k p = p.
Proof.
  unfold with_drawings. simpl. rewrite app_nil_r. destruct p. reflexivity.
Qed.

Lemma with_drawings_cons (sig : SignatureLocation.t num)
    (rest : list (SignatureLocation.t num)) (k : nat) (p : PdfLib.page num) :
  with_drawings embedPng rest k (with_drawings embedPng [sig] k p)
  = with_drawings embedPng (sig :: rest) k p.
Proof.
  unfold with_drawings, drawings_on. simpl. rewrite !app_nil_r, app_assoc.
  reflexivity.
Qed.

Lemma map_indexed_sizes (f : nat -> PdfLib.page num -> PdfLib.page num)
    (pages : list (PdfLib.page num)) :
  (forall k p, PdfLib.getSize (f k p) = PdfLib.getSize p) ->
  forall i, map PdfLib.getSize (map_indexed f i pages) = map PdfLib.getSize pages.
Proof.
  intros Hf. induction pages as [| a xs IH]; intros i; simpl; [reflexivity |].
  rewrite Hf, IH. reflexivity.
Qed.

Lemma map_indexed_id (pages : list (PdfLib.page num)) :
  forall i, map_indexed (fun _ p => p) i pages = pages.
Proof.
  induction pages as [| a xs IH]; intros i; simpl; [| rewrite IH]; reflexivity.
Qed.

(** One turn of the loop on a placement that can be processed. *)
Lemma embed_one_embeddable (sig : SignatureLocation.t num)
    (pages : list (PdfLib.page num)) :
  embeddable embedPng (map PdfLib.getSize pages) sig = true ->
  embed_one embedPng sig pages
  = (Returned tt, map_indexed (with_drawings embedPng [sig]) 0 pages).
Proof.
  unfold embeddable. intros Hok.
  destruct (mark_of sig) as [dataUrl |] eqn:Hm.
  - rewrite nth_error_map in Hok.
    destruct (nth_error pages (SignatureLocation.pageIndex sig)) as [page |] eqn:Hpage;
      [| discriminate Hok].
    simpl in Hok.
    destruct (embedPng dataUrl) as [img |] eqn:Himg; [| discriminate Hok].
    destruct (drawing (PdfLib.getSize page) img sig) as [d |] eqn:Hd;
      [| discriminate Hok].
    rewrite (embed_one_marked embedPng sig pages Hm Hpage Himg), Hd. f_equal.
    replace (PdfLib.mkPage (PdfLib.getSize page) (PdfLib.content page ++ [d]))
      with (with_drawings embedPng [sig] (SignatureLocation.pageIndex sig) page)
      by (unfold with_drawings, drawings_on, drawing_of; simpl;
          rewrite Nat.eqb_refl, Hm, Himg, Hd; reflexivity).
    rewrite (set_nth_map_indexed
               (fun a => with_drawings embedPng [sig]
                           (SignatureLocation.pageIndex sig) a)
               pages 0 (SignatureLocation.pageIndex sig) Hpage).
    + apply map_indexed_ext. intros k a. simpl.
      destruct (Nat.eqb_spec k (SignatureLocation.pageIndex sig)) as [-> | Hk];
        [reflexivity |].
      unfold with_drawings, drawings_on. simpl.
      replace (SignatureLocation.pageIndex sig =? k)%nat with false
        by (symmetry; apply Nat.eqb_neq; intros E; apply Hk; symmetry; exact E).
      simpl. rewrite app_nil_r. destruct a. reflexivity.
  - unfold embed_one. rewrite Hm. unfold ret. f_equal.
    symmetry. rewrite <- (map_indexed_id pages 0) at 2.
    apply map_indexed_ext. intros k a.
    unfold with_drawings, drawings_on, drawing_of. simpl.
    rewrite Hm. destruct (SignatureLocation.pageIndex sig =? k)%nat;
      simpl; rewrite app_nil_r; destruct a; reflexivity.
Qed.

(** One turn of the loop on a placement that cannot be processed. *)
Lemma embed_one_not_embeddable (sig : SignatureLocation.t num)
    (pages : list (PdfLib.page num)) :
  embeddable embedPng (map PdfLib.getSize pages) sig = false ->
  exists e, embed_one embedPng sig pages = (Thrown e, pages).
Proof.
  unfold embeddable. intros Hbad.
  destruct (mark_of sig) as [dataUrl |] eqn:Hm; [| discriminate Hbad].
  rewrite nth_error_map in Hbad.
  destruct (nth_error pages (SignatureLocation.pageIndex sig)) as [page |] eqn:Hpage.
  - simpl in Hbad.
    destruct (embedPng dataUrl) as [img |] eqn:Himg.
    + rewrite (embed_one_marked embedPng sig pages Hm Hpage Himg).
      destruct (drawing (PdfLib.getSize page) img sig) as [d | e];
        [discriminate Hbad |].
      exists e. reflexivity.
    + unfold embed_one. rewrite Hm. unfold bind, get. rewrite Hpage. simpl.
      rewrite Himg. eexists. reflexivity.
  - unfold embed_one. rewrite Hm. unfold bind, get. rewrite Hpage.
    eexists. reflexivity.
Qed.

Lemma with_drawings_size (signatures : list (SignatureLocation.t num)) (k : nat)
    (p : PdfLib.page num) :
  PdfLib.getSize (with_drawings embedPng signatures k p) = PdfLib.getSize p.
Proof. reflexivity. Qed.

(** The whole loop. *)
Lemma embed_loop_embeddable (signatures : list (SignatureLocation.t num)) :
  forall pages,
    forallb (embeddable embedPng (map PdfLib.getSize pages)) signatures = true ->
    for_of signatures (embed_one embedPng) pages
    = (Returned tt, embedded embedPng pages signatures).
Proof.
  unfold embedded.
  induction signatures as [| sig rest IH]; intros pages Hok; simpl.
  - unfold ret. f_equal. symmetry.
    rewrite (map_indexed_ext _ (fun _ p => p) pages with_drawings_nil).
    apply map_indexed_id.
  - simpl in Hok. apply andb_prop in Hok. destruct Hok as [Hsig Hrest].
    unfold bind. rewrite (embed_one_embeddable sig pages Hsig).
    rewrite IH
      by (rewrite map_indexed_sizes by (intros; apply with_drawings_size);
          exact Hrest).
    rewrite map_indexed_compose. f_equal.
    apply map_indexed_ext. intros k a. apply with_drawings_cons.
Qed.

Lemma embed_loop_not_embeddable (signatures : list (SignatureLocation.t num)) :
  forall pages,
    forallb (embeddable embedPng (map PdfLib.getSize pages)) signatures = false ->
    exists e, fst (for_of signatures (embed_one embedPng) pages) = Thrown e.
Proof.
  induction signatures as [| sig rest IH]; intros pages Hbad; simpl in *.
  - discriminate Hbad.
  - unfold bind.
    destruct (embeddable embedPng (map PdfLib.getSize pages) sig) eqn:Hsig;
      simpl in Hbad.
    + rewrite (embed_one_embeddable sig pages Hsig).
      apply IH.
      rewrite map_indexed_sizes by (intros; apply with_drawings_size).
      exact Hbad.
    + destruct (embed_one_not_embeddable sig pages Hsig) as [e He].
      rewrite He. exists e. reflexivity.
Qed.

End DrawingFacts.

(** X6. A document that does not load rejects the run.  On a document
    that loads, the run is fulfilled exactly when every placement with a
    mark names an existing page, carries a payload that decodes, and
    gives a box, a position and a size that pdf-lib accepts, that is,
    none of them NaN. *)
Theorem embed_fulfilled_iff :
  forall (num : Type) (N : Number num)
         (load : string -> option (list (PdfLib.page num)))
         (embedPng : string -> option (PdfLib.image num))
         (originalBase64 : string)
         (signatures : list (SignatureLocation.t num)),
    (load originalBase64 = None ->
     embedSignatures load embedPng originalBase64 signatures
     = Thrown DocumentLoadError)
    /\ (forall pages,
          load originalBase64 = Some pages ->
          ((exists out,
              embedSignatures load embedPng originalBase64 signatures
              = Returned out)
           <-> forallb (embeddable embedPng (map PdfLib.getSize pages)) signatures
               = true)).
Proof.
  intros num N load embedPng originalBase64 signatures.
  unfold embedSignatures, embed_body. split.
  - intros ->. reflexivity.
  - intros pages ->. unfold bind. split.
    + intros [out Hout].
      destruct (forallb (embeddable embedPng (map PdfLib.getSize pages)) signatures)
        eqn:Hok; [reflexivity |].
      destruct (embed_loop_not_embeddable embedPng signatures pages Hok) as [e He].
      destruct (for_of signatures (embed_one embedPng) pages) as [[[] | e'] s'];
        simpl in *; discriminate.
    + intros Hok. rewrite (embed_loop_embeddable embedPng signatures pages Hok).
      eexists. reflexivity.
Qed.

Lemma embed_fulfilled_iff_witness :
  embedSignatures sample_load sample_embedPng "not a document"
    [sample_placement "a" 0 None]
  = Thrown DocumentLoadError
  /\ ~ (exists out,
          embedSignatures sample_load sample_embedPng
            "data:application/pdf;base64,ONE"
            [sample_placement "a" 0 (Some "data:image/png;base64,BROKEN")]
          = Returned out).
Proof.
  split.
  - exact (proj1 (@embed_fulfilled_iff Q Number_Q sample_load sample_embedPng
                    "not a document" [sample_placement "a" 0 None])
                 eq_refl).
  - intros Hout.
    pose proof (proj1 (proj2 (@embed_fulfilled_iff Q Number_Q sample_load
                                sample_embedPng "data:application/pdf;base64,ONE"
                                [sample_placement "a" 0
                                   (Some "data:image/png;base64,BROKEN")])
                             _ eq_refl)
                      Hout) as Hok.
    discriminate Hok.
Defined.

(** X7. A fulfilled run keeps the number of pages and the size of every
    page, and adds to each page, after what the page held, the images of
    the marked placements that name it, in the order of the placement
    sequence (so the last one lies on top); a page that no marked
    placement names comes back as it was. *)
Theorem embed_draws_page_by_page :
  forall (num : Type) (N : Number num)
         (load : string -> option (list (PdfLib.page num)))
         (embedPng : string -> option (PdfLib.image num))
         (originalBase64 : string) (pages : list (PdfLib.page num))
         (signatures : list (SignatureLocation.t num)),
    load originalBase64 = Some pages ->
    forallb (embeddable embedPng (map PdfLib.getSize pages)) signatures = true ->
    exists out,
      embedSignatures load embedPng originalBase64 signatures = Returned out
      /\ List.length out = List.length pages
      /\ (forall k p,
            nth_error pages k = Some p ->
            nth_error out k
            = Some (PdfLib.mkPage (PdfLib.getSize p)
                      (PdfLib.content p
                       ++ drawings_on embedPng k (PdfLib.getSize p) signatures)))
      /\ (forall k p,
            nth_error pages k = Some p ->
            (forall sig, In sig signatures ->
                         SignatureLocation.pageIndex sig = k -> mark_of sig = None) ->
            nth_error out k = Some p).
Proof.
  intros num N load embedPng originalBase64 pages signatures Hload Hok.
  exists (embedded embedPng pages signatures).
  assert (Hnth : forall k p,
             nth_error pages k = Some p ->
             nth_error (embedded embedPng pages signatures) k
             = Some (with_drawings embedPng signatures k p)).
  { intros k p Hk. unfold embedded. rewrite map_indexed_nth, Hk. reflexivity. }
  split; [| split; [| split]].
  - unfold embedSignatures, embed_body. rewrite Hload. unfold bind.
    rewrite (embed_loop_embeddable embedPng signatures pages Hok). reflexivity.
  - apply map_indexed_length.
  - exact Hnth.
  - intros k p Hk Hnone. rewrite (Hnth k p Hk). f_equal.
    unfold with_drawings.
    replace (drawings_on embedPng k (PdfLib.getSize p) signatures)
      with (@nil (PdfLib.drawn num)).
    + rewrite app_nil_r. destruct p. reflexivity.
    + symmetry. unfold drawings_on. clear - Hnone.
      induction signatures as [| sig rest IH]; [reflexivity |].
      simpl. rewrite IH by (intros s Hs; apply Hnone; right; exact Hs).
      rewrite app_nil_r.
      destruct (Nat.eqb_spec (SignatureLocation.pageIndex sig) k) as [E | _];
        [| reflexivity].
      unfold drawing_of. rewrite (Hnone sig (or_introl eq_refl) E). reflexivity.
Qed.

Lemma embed_draws_page_by_page_witness :
  exists out : list (PdfLib.page float),
    embedSignatures sample_load sample_embedPng "data:application/pdf;base64,ONE"
      [scanned_placement "a" 0 (Some "data:image/png;base64,WIDE");
       scanned_placement "b" 0 None;
       scanned_placement "c" 0 (Some "data:image/png;base64,TALL")]
    = Returned out
    /\ List.length out = 1
    /\ option_map (fun p => map (fun d => PdfLib.payload (PdfLib.dimage d))
                               (PdfLib.content p))
                  (nth_error out 0)
       = Some ["data:image/png;base64,WIDE"; "data:image/png;base64,TALL"].
Proof.
  destruct (@embed_draws_page_by_page float Number_float sample_load sample_embedPng
              "data:application/pdf;base64,ONE"
              [PdfLib.mkPage (PdfLib.mkSize (lit 612) (lit 792)) []]
              [scanned_placement "a" 0 (Some "data:image/png;base64,WIDE");
               scanned_placement "b" 0 None;
               scanned_placement "c" 0 (Some "data:image/png;base64,TALL")])
    as (out & Hrun & Hlen & Hpages & _); [reflexivity | reflexivity |].
  exists out. split; [exact Hrun |]. split; [exact Hlen |].
  rewrite (Hpages 0 _ eq_refl). reflexivity.
Defined.

(** ** The scanner: the whole result *)

Lemma SSorted_app {A} (R : A -> A -> Prop) (l1 l2 : list A) :
  StronglySorted R l1 -> StronglySorted R l2 ->
  (forall x y, In x l1 -> In y l2 -> R x y) ->
  StronglySorted R (l1 ++ l2).
Proof.
  intros H1 H2 Hcross. induction H1 as [| a l1 Hl1 IH Ha]; simpl; [exact H2 |].
  constructor.
  - apply IH. intros x y Hx Hy. apply Hcross; [right; exact Hx | exact Hy].
  - apply Forall_app. split; [exact Ha |].
    apply Forall_forall. intros y Hy. apply Hcross; [left; reflexivity | exact Hy].
Qed.

Section ScanResultFacts.
Context {num : Type} `{Number num}.
Variable getDocument : string -> option (PdfJs.document num).
Variable random : nat -> num.
Variable toString36 : num -> string.

Lemma place_all_app (ms1 ms2 : list (@found num)) :
  forall k, place_all random toString36 k (ms1 ++ ms2)
            = place_all random toString36 k ms1
              ++ place_all random toString36 (k + List.length ms1) ms2.
Proof.
  induction ms1 as [| m ms1 IH]; intros k; simpl.
  - rewrite Nat.add_0_r. reflexivity.
  - rewrite IH. rewrite Nat.add_succ_r. reflexivity.
Qed.

(** The loop over the fragments of one page. *)
Lemma scan_items_run (i : nat) (viewport : PdfJs.viewport num)
    (items : list (PdfJs.item num)) :
  forall s,
    for_of items (scan_item random toString36 i viewport) s
    = (Returned tt,
       let ms := map (fun item => (i - 1, viewport, item)) (filter has_marker items) in
       mkScan (signatureLocations s ++ place_all random toString36 (randomCalls s) ms)
              (randomCalls s + List.length ms)).
Proof.
  induction items as [| item items IH]; intros s.
  - simpl. rewrite app_nil_r, Nat.add_0_r. destruct s. reflexivity.
  - cbn [for_of filter]. unfold bind. unfold scan_item at 1.
    destruct (has_marker item) eqn:Hm; unfold has_marker in Hm; rewrite Hm.
    + unfold bind, math_random, push, modify. rewrite IH.
      cbn [signatureLocations randomCalls map place_all List.length].
      f_equal. f_equal; [rewrite <- app_assoc; reflexivity | lia].
    + unfold ret. rewrite IH. reflexivity.
Qed.

(** The loop over the pages, from the page of index [j]. *)
Lemma scan_pages_run (pdf : PdfJs.document num) :
  forall j s,
    snd (scan_pages random toString36 pdf (S j) s)
    = let ms := marker_fragments pdf j in
      mkScan (signatureLocations s ++ place_all random toString36 (randomCalls s) ms)
             (randomCalls s + List.length ms).
Proof.
  induction pdf as [| p rest IH]; intros j s; simpl.
  - rewrite app_nil_r, Nat.add_0_r. destruct s. reflexivity.
  - unfold bind.
    destruct p as [page |]; simpl;
      [| rewrite app_nil_r, Nat.add_0_r; destruct s; reflexivity].
    destruct (PdfJs.textContent page) as [items |]; simpl;
      [| rewrite app_nil_r, Nat.add_0_r; destruct s; reflexivity].
    rewrite scan_items_run. rewrite IH. simpl. rewrite Nat.sub_0_r.
    rewrite place_all_app, length_app, <- app_assoc, Nat.add_assoc.
    reflexivity.
Qed.

Lemma scanForSignatures_is_place_all (base64Data : string) :
  scanForSignatures getDocument random toString36 base64Data
  = Returned
      (place_all random toString36 0
         match getDocument base64Data with
         | Some pdf => marker_fragments pdf 0
         | None => []
         end).
Proof.
  destruct (getDocument base64Data) as [pdf |] eqn:Hdoc.
  - rewrite (scanForSignatures_loaded _ _ _ _ Hdoc), scan_pages_run. reflexivity.
  - apply scanForSignatures_not_loaded. exact Hdoc.
Qed.

Lemma place_all_pageIndex (ms : list (@found num)) :
  forall k, map SignatureLocation.pageIndex (place_all random toString36 k ms)
            = map (fun m => fst (fst m)) ms.
Proof.
  induction ms as [| [[i vp] item] ms IH]; intros k; simpl; [reflexivity |].
  rewrite IH. reflexivity.
Qed.

Lemma place_all_unsigned (ms : list (@found num)) :
  forall k, Forall (fun l => SignatureLocation.value l = None)
                   (place_all random toString36 k ms).
Proof.
  induction ms as [| [[i vp] item] ms IH]; intros k; simpl; constructor;
    [reflexivity | apply IH].
Qed.

Lemma marker_fragments_indices (pdf : PdfJs.document num) :
  forall j,
    Forall (fun i => j <= i < j + List.length pdf)
           (map (fun m : @found num => fst (fst m)) (marker_fragments pdf j))
    /\ StronglySorted le
         (map (fun m : @found num => fst (fst m)) (marker_fragments pdf j)).
Proof.
  induction pdf as [| p rest IH]; intros j; simpl.
  - split; constructor.
  - destruct p as [page |]; [| split; constructor].
    destruct (PdfJs.textContent page) as [items |]; [| split; constructor].
    destruct (IH (S j)) as [Hbound Hsorted].
    rewrite map_app, map_map. simpl.
    assert (Hhere : Forall (fun i => i = j)
                      (map (fun _ : PdfJs.item num => j) (filter has_marker items))).
    { apply Forall_forall. intros i Hi. apply in_map_iff in Hi.
      destruct Hi as (x & <- & _). reflexivity. }
    split.
    + apply Forall_app. split.
      * eapply Forall_impl; [| exact Hhere]. intros i ->. lia.
      * eapply Forall_impl; [| exact Hbound]. intros i Hi. simpl in Hi. lia.
    + apply SSorted_app.
      * clear - Hhere. induction Hhere as [| i l Hi Hl IHl]; constructor;
          [exact IHl |].
        eapply Forall_impl; [| exact Hl]. intros i' ->. lia.
      * exact Hsorted.
      * intros x y Hx Hy.
        rewrite Forall_forall in Hhere, Hbound.
        rewrite (Hhere x Hx). specialize (Hbound y Hy). lia.
Qed.

End ScanResultFacts.

Lemma prefix_spec (t s : string) :
  String.prefix t s = true <-> exists post, s = (t ++ post)%string.
Proof.
  revert s. induction t as [| a t IH]; intros s.
  - split; [intros _; exists s; reflexivity | intros _; destruct s; reflexivity].
  - destruct s as [| b s]; simpl.
    + split; [discriminate | intros [post Hpost]; discriminate Hpost].
    + destruct (ascii_dec a b) as [-> | Hab].
      * rewrite IH. split; intros [post Hpost]; exists post.
        -- rewrite Hpost. reflexivity.
        -- injection Hpost as ->. reflexivity.
      * split; [discriminate |].
        intros [post Hpost]. injection Hpost as E _. contradiction Hab.
        symmetry. exact E.
Qed.

(** [includes] finds the search string anywhere in the text. *)
Lemma includes_spec (s t : string) :
  includes s t = true <-> exists pre post, s = (pre ++ t ++ post)%string.
Proof.
  induction s as [| c s IH].
  - change (includes "" t) with (String.prefix t "" || false).
    rewrite orb_false_r, prefix_spec. split.
    + intros [post Hpost]. exists "", post. exact Hpost.
    + intros (pre & post & Hs). destruct pre; [exists post; exact Hs |].
      discriminate Hs.
  - change (includes (String c s) t)
      with (String.prefix t (String c s) || includes s t).
    rewrite orb_true_iff, IH, prefix_spec. split.
    + intros [[post Hpost] | (pre & post & Hs)].
      * exists "", post. exact Hpost.
      * exists (String c pre), post. simpl. rewrite Hs. reflexivity.
    + intros (pre & post & Hs). destruct pre as [| c' pre].
      * left. exists post. exact Hs.
      * right. simpl in Hs. injection Hs as _ Hs. exists pre, post. exact Hs.
Qed.

(** X8. The scan returns, for the pages that come before the first page
    whose extraction fails, one placement for each fragment that
    contains the marker, in page order and then in the order of the text
    layer.  The k-th of them has the k-th identifier drawn, the index of
    its page, x = originX / pageWidth, y = (pageHeight - originY - h) /
    pageHeight with h the height of the fragment or 12, width
    150 / pageWidth, height 60 / pageHeight, and no mark. *)
Theorem scan_result_fragment_by_fragment :
  forall (num : Type) (N : Number num)
         (getDocument : string -> option (PdfJs.document num))
         (random : nat -> num) (toString36 : num -> string)
         (base64Data : string) (pdf : PdfJs.document num),
    getDocument base64Data = Some pdf ->
    scanForSignatures getDocument random toString36 base64Data
    = Returned (place_all random toString36 0 (marker_fragments pdf 0)).
Proof.
  intros num N getDocument random toString36 base64Data pdf Hdoc.
  rewrite scanForSignatures_is_place_all, Hdoc. reflexivity.
Qed.

Lemma scan_result_fragment_by_fragment_witness :
  scanForSignatures sample_getDocument halving_random sample_toString36
    "data:application/pdf;base64,TWO"
  = Returned
      [placement_of halving_random sample_toString36 0
         (0, letter_viewport, marker_item None None);
       placement_of halving_random sample_toString36 1
         (0, letter_viewport, marker_item None None)].
Proof.
  exact (@scan_result_fragment_by_fragment float Number_float sample_getDocument
           halving_random sample_toString36 "data:application/pdf;base64,TWO"
           [letter_page [marker_item None None; marker_item None None]] eq_refl).
Defined.

(** X9. Whatever the document and the generator, the placements a scan
    returns carry no mark, name pages of the document (page index below
    the page count), and come with page indices in non-decreasing
    order. *)
Theorem scan_placements_well_formed :
  forall (num : Type) (N : Number num)
         (getDocument : string -> option (PdfJs.document num))
         (random : nat -> num) (toString36 : num -> string)
         (base64Data : string),
    exists locs,
      scanForSignatures getDocument random toString36 base64Data = Returned locs
      /\ Forall (fun l => SignatureLocation.value l = None) locs
      /\ (forall pdf, getDocument base64Data = Some pdf ->
            Forall (fun l => SignatureLocation.pageIndex l < List.length pdf) locs)
      /\ StronglySorted le (map SignatureLocation.pageIndex locs).
Proof.
  intros num N getDocument random toString36 base64Data.
  rewrite scanForSignatures_is_place_all.
  eexists. split; [reflexivity |].
  split; [apply place_all_unsigned |].
  split.
  - intros pdf Hdoc. rewrite Hdoc.
    apply (proj1 (Forall_map SignatureLocation.pageIndex
                    (fun i => i < List.length pdf) _)).
    rewrite place_all_pageIndex.
    destruct (marker_fragments_indices pdf 0) as [Hbound _].
    eapply Forall_impl; [| exact Hbound]. intros i Hi. simpl in Hi. lia.
  - rewrite place_all_pageIndex.
    destruct (getDocument base64Data) as [pdf |]; [| constructor].
    apply (marker_fragments_indices pdf 0).
Qed.

(** X10. A page with a single fragment yields a placement exactly when
    the text of the fragment contains [$signature] as a run of
    consecutive characters, wherever in the text; otherwise the scan
    returns nothing. *)
Theorem scan_detects_substring :
  forall (num : Type) (N : Number num)
         (getDocument : string -> option (PdfJs.document num))
         (random : nat -> num) (toString36 : num -> string)
         (base64Data : string) (viewport : PdfJs.viewport num)
         (item : PdfJs.item num),
    getDocument base64Data = Some [Some (PdfJs.mkPage viewport (Some [item]))] ->
    ((exists pre post, PdfJs.str item = (pre ++ "$signature" ++ post)%string) ->
     scanForSignatures getDocument random toString36 base64Data
     = Returned [placement_of random toString36 0 (0, viewport, item)])
    /\ (~ (exists pre post, PdfJs.str item = (pre ++ "$signature" ++ post)%string) ->
        scanForSignatures getDocument random toString36 base64Data = Returned []).
Proof.
  intros num N getDocument random toString36 base64Data viewport item Hdoc.
  rewrite scanForSignatures_is_place_all, Hdoc. simpl.
  pose proof (includes_spec (PdfJs.str item) "$signature") as Hspec.
  unfold has_marker. split; intros Hsub.
  - apply Hspec in Hsub. rewrite Hsub. reflexivity.
  - destruct (includes (PdfJs.str item) "$signature"); [| reflexivity].
    exfalso. apply Hsub, Hspec. reflexivity.
Qed.

Lemma scan_detects_substring_witness :
  scanForSignatures
    (fun _ => Some [Some (PdfJs.mkPage letter_viewport
                            (Some [PdfJs.mkItem "Sign here: $signature."
                                     (PdfJs.mkTransform 12 0 0 12 72 144)%float
                                     None None]))])
    constant_random sample_toString36 "data:application/pdf;base64,INLINE"
  = Returned
      [placement_of constant_random sample_toString36 0
         (0, letter_viewport,
          PdfJs.mkItem "Sign here: $signature."
            (PdfJs.mkTransform 12 0 0 12 72 144)%float None None)].
Proof.
  refine (proj1 (@scan_detects_substring float Number_float _ constant_random
                   sample_toString36 "data:application/pdf;base64,INLINE"
                   letter_viewport
                   (PdfJs.mkItem "Sign here: $signature."
                      (PdfJs.mkTransform 12 0 0 12 72 144)%float None None)
                   eq_refl) _).
  exists "Sign here: ", ".". reflexivity.
Defined.

(** ** From scanning to embedding *)

Section PipelineFacts.
Context {num : Type} `{Number num}.
Variable embedPng : string -> option (PdfLib.image num).

Lemma embed_loop_unmarked (signatures : list (SignatureLocation.t num))
    (pages : list (PdfLib.page num)) :
  Forall (fun l => SignatureLocation.value l = None) signatures ->
  for_of signatures (embed_one embedPng) pages = (Returned tt, pages).
Proof.
  intros Hnone. induction Hnone as [| sig rest Hsig _ IH]; [reflexivity |].
  simpl. unfold bind. rewrite embed_one_skips; [exact IH |].
  unfold mark_of. rewrite Hsig. reflexivity.
Qed.

End PipelineFacts.

(** X11. Embedding what a scan has just returned draws nothing: when the
    document loads, the run is fulfilled with the loaded document as it
    is. *)
Theorem scan_then_embed_draws_nothing :
  forall (num : Type) (N : Number num)
         (getDocument : string -> option (PdfJs.document num))
         (random : nat -> num) (toString36 : num -> string)
         (load : string -> option (list (PdfLib.page num)))
         (embedPng : string -> option (PdfLib.image num))
         (base64Data : string),
    exists locs,
      scanForSignatures getDocument random toString36 base64Data = Returned locs
      /\ embedSignatures load embedPng base64Data locs
         = match load base64Data with
           | Some pages => Returned pages
           | None => Thrown DocumentLoadError
           end.
Proof.
  intros num N getDocument random toString36 load embedPng base64Data.
  rewrite scanForSignatures_is_place_all. eexists. split; [reflexivity |].
  unfold embedSignatures, embed_body.
  destruct (load base64Data) as [pages |]; [| reflexivity].
  unfold bind. rewrite embed_loop_unmarked; [reflexivity |].
  apply place_all_unsigned.
Qed.

(** X12. From marker to mark.  A page with one marker fragment is
    scanned, the placement found receives a mark, and the document is
    embedded on a page of the same size.  Then the mark is drawn once,
    with the size pdf-lib returns for the box
    ((150 / W) * W, (60 / H) * H), at x = (originX / W) * W and
    y = H - ((H - originY - h) / H) * H - returned height, h being the
    height of the fragment or 12: the expressions are evaluated in the
    arithmetic of the program, each operation as written. *)
Theorem mark_is_drawn_from_marker_origin :
  forall (num : Type) (N : Number num)
         (getDocument : string -> option (PdfJs.document num))
         (random : nat -> num) (toString36 : num -> string)
         (load : string -> option (list (PdfLib.page num)))
         (embedPng : string -> option (PdfLib.image num))
         (base64Data : string) (pageWidth pageHeight : num)
         (item : PdfJs.item num) (dataUrl : string) (img : PdfLib.image num)
         (scaled : PdfLib.size num),
    getDocument base64Data
    = Some [Some (PdfJs.mkPage (PdfJs.mkViewport pageWidth pageHeight)
                    (Some [item]))] ->
    has_marker item = true ->
    load base64Data = Some [PdfLib.mkPage (PdfLib.mkSize pageWidth pageHeight) []] ->
    dataUrl <> "" ->
    embedPng dataUrl = Some img ->
    let originX := PdfJs.tx4 (PdfJs.tx item) in
    let originY := PdfJs.tx5 (PdfJs.tx item) in
    let h := or_default (PdfJs.iheight item) (lit 12) in
    PdfLib.scaleToFit img (lit 150 / pageWidth * pageWidth)%js
                          (lit 60 / pageHeight * pageHeight)%js
    = Returned scaled ->
    let d := PdfLib.mkDrawn img
               (originX / pageWidth * pageWidth)%js
               (pageHeight - (pageHeight - originY - h) / pageHeight * pageHeight
                - PdfLib.sheight scaled)%js
               (PdfLib.swidth scaled) (PdfLib.sheight scaled) in
    PdfLib.check_options d = Returned tt ->
    exists loc,
      scanForSignatures getDocument random toString36 base64Data = Returned [loc]
      /\ embedSignatures load embedPng base64Data
           (attachMark (SignatureLocation.id loc) dataUrl [loc])
         = Returned [PdfLib.mkPage (PdfLib.mkSize pageWidth pageHeight) [d]].
Proof.
  intros num N getDocument random toString36 load embedPng base64Data
         pageWidth pageHeight item dataUrl img scaled
         Hdoc Hmarker Hload Hurl Hpng originX originY h Hscaled d Hoptions.
  set (loc := placement_of random toString36 0
                (0, PdfJs.mkViewport pageWidth pageHeight, item)).
  exists loc. split.
  - rewrite scanForSignatures_is_place_all, Hdoc. simpl. rewrite Hmarker. reflexivity.
  - unfold attachMark. simpl map. rewrite String.eqb_refl.
    assert (Hm : mark_of (SignatureLocation.with_value loc dataUrl) = Some dataUrl).
    { unfold mark_of. simpl.
      destruct (String.eqb_spec dataUrl "") as [E | _]; [contradiction | reflexivity]. }
    unfold embedSignatures, embed_body. rewrite Hload.
    simpl for_of. unfold bind at 1 2.
    rewrite (embed_one_marked embedPng (SignatureLocation.with_value loc dataUrl)
               [PdfLib.mkPage (PdfLib.mkSize pageWidth pageHeight) []]
               Hm eq_refl Hpng).
    unfold drawing.
    cbn [SignatureLocation.with_value SignatureLocation.width
         SignatureLocation.height SignatureLocation.x SignatureLocation.y
         SignatureLocation.pageIndex loc placement_of
         PdfLib.getSize PdfLib.swidth PdfLib.sheight PdfJs.vwidth PdfJs.vheight].
    rewrite Hscaled. unfold xPos, yPos, normalizedY, uiY.
    fold originX originY h. fold d. rewrite Hoptions. reflexivity.
Qed.

Lemma mark_is_drawn_from_marker_origin_witness :
  exists loc,
    scanForSignatures sample_getDocument constant_random sample_toString36
      "data:application/pdf;base64,ONE"
    = Returned [loc]
    /\ embedSignatures sample_load sample_embedPng "data:application/pdf;base64,ONE"
         (attachMark (SignatureLocation.id loc) "data:image/png;base64,WIDE" [loc])
       = Returned
           [PdfLib.mkPage (PdfLib.mkSize 612%float 792%float)
              [PdfLib.mkDrawn
                 (PdfLib.png "data:image/png;base64,WIDE" 400%float 100%float)
                 100%float 674.5%float 150%float 37.5%float]].
Proof.
  destruct (@mark_is_drawn_from_marker_origin float Number_float
              sample_getDocument constant_random sample_toString36
              sample_load sample_embedPng "data:application/pdf;base64,ONE"
              (lit 612) (lit 792) (marker_item None None)
              "data:image/png;base64,WIDE"
              (PdfLib.png "data:image/png;base64,WIDE" (lit 400) (lit 100))
              (PdfLib.mkSize 150%float 37.5%float))
    as (loc & Hscan & Hembed);
    [reflexivity | reflexivity | reflexivity | discriminate
     | reflexivity | reflexivity | reflexivity |].
  exists loc. split; [exact Hscan |].
  rewrite Hembed. vm_compute. reflexivity.
Defined.

(** ** The signing view *)

Section ViewFacts.
Context {num : Type}.

Lemma attachMark_overwrite (id first second : string)
    (signatures : list (SignatureLocation.t num)) :
  attachMark id second (attachMark id first signatures)
  = attachMark id second signatures.
Proof.
  unfold attachMark. rewrite map_map. apply map_ext. intros s.
  destruct (SignatureLocation.id s =? id)%string eqn:E; simpl; rewrite E; reflexivity.
Qed.

Lemma attachMark_commute (id1 id2 url1 url2 : string)
    (signatures : list (SignatureLocation.t num)) :
  id1 <> id2 ->
  attachMark id1 url1 (attachMark id2 url2 signatures)
  = attachMark id2 url2 (attachMark id1 url1 signatures).
Proof.
  intros Hne. unfold attachMark. rewrite !map_map. apply map_ext. intros s.
  destruct (SignatureLocation.id s =? id1)%string eqn:E1;
    destruct (SignatureLocation.id s =? id2)%string eqn:E2;
    simpl; rewrite ?E1, ?E2; try reflexivity.
  apply String.eqb_eq in E1, E2. exfalso. apply Hne. rewrite <- E1. exact E2.
Qed.

Lemma attachMark_geometry (id url : string)
    (signatures : list (SignatureLocation.t num)) :
  map geometry (attachMark id url signatures) = map geometry signatures.
Proof.
  unfold attachMark. rewrite map_map. apply map_ext. intros s.
  destruct (SignatureLocation.id s =? id)%string; reflexivity.
Qed.

Lemma attachMark_signed_count (id url : string)
    (signatures : list (SignatureLocation.t num)) :
  url <> "" ->
  signed_count signatures <= signed_count (attachMark id url signatures).
Proof.
  intros Hurl. unfold signed_count, attachMark.
  induction signatures as [| s rest IH]; [apply Nat.le_refl |].
  simpl.
  assert (Hkeep : has_mark s = true ->
                  has_mark (if (SignatureLocation.id s =? id)%string
                            then SignatureLocation.with_value s url else s) = true).
  { intros Hs. destruct (SignatureLocation.id s =? id)%string; [| exact Hs].
    unfold has_mark, mark_of. simpl.
    destruct (String.eqb_spec url "") as [E | _]; [contradiction | reflexivity]. }
  destruct (has_mark s).
  - rewrite (Hkeep eq_refl). simpl. lia.
  - destruct (has_mark _); simpl; lia.
Qed.

(** The handler after a click on a placement whose identifier is not
    empty, with a pad that holds a drawing. *)
Lemma confirm_after_click (sig : SignatureLocation.t num)
    (st : @signing_state num) (pad : signature_pad) :
  SignatureLocation.id sig <> "" ->
  isEmpty pad = false ->
  confirmSignature (Some pad) (handleBoxClick sig st)
  = mkSigning
      (with_signatures (currentDoc st)
         (attachMark (SignatureLocation.id sig) (toDataURL pad)
            (DocumentMetadata.signatures (currentDoc st))))
      None false (alerts st).
Proof.
  intros Hid Hpad. unfold confirmSignature, handleBoxClick. simpl.
  destruct (String.eqb_spec (SignatureLocation.id sig) "") as [E | _];
    [contradiction |].
  rewrite Hpad. reflexivity.
Qed.

Lemma signatures_with_signatures (doc : DocumentMetadata.t num)
    (updated : list (SignatureLocation.t num)) :
  DocumentMetadata.signatures (with_signatures doc updated) = updated.
Proof. reflexivity. Qed.

Lemma with_signatures_twice (doc : DocumentMetadata.t num)
    (first second : list (SignatureLocation.t num)) :
  with_signatures (with_signatures doc first) second = with_signatures doc second.
Proof. reflexivity. Qed.

Lemma forallb_has_mark_count (signatures : list (SignatureLocation.t num)) :
  forallb has_mark signatures = true
  <-> signed_count signatures = List.length signatures.
Proof.
  unfold signed_count. induction signatures as [| s rest IH]; simpl.
  - split; reflexivity.
  - pose proof (filter_length_le has_mark rest) as Hle.
    destruct (has_mark s); simpl.
    + rewrite IH. split; intros E; lia.
    + split; [discriminate | intros E; lia].
Qed.

End ViewFacts.

(** X13. Clicking a placement and applying a drawn signature gives the
    mark to every placement that carries the clicked identifier and
    closes the dialog.  When the identifier of the clicked placement is
    the empty string, applying does nothing at all: no placement
    receives the mark and the dialog stays open. *)
Theorem click_then_confirm :
  forall (num : Type) (sig : SignatureLocation.t num)
         (st : @signing_state num) (pad : signature_pad),
    isEmpty pad = false ->
    (SignatureLocation.id sig <> "" ->
     confirmSignature (Some pad) (handleBoxClick sig st)
     = mkSigning
         (with_signatures (currentDoc st)
            (attachMark (SignatureLocation.id sig) (toDataURL pad)
               (DocumentMetadata.signatures (currentDoc st))))
         None false (alerts st))
    /\ (SignatureLocation.id sig = "" ->
        confirmSignature (Some pad) (handleBoxClick sig st)
        = handleBoxClick sig st
        /\ isSigningModalOpen (confirmSignature (Some pad) (handleBoxClick sig st))
           = true).
Proof.
  intros num sig st pad Hpad. split.
  - intros Hid. apply confirm_after_click; assumption.
  - intros Hid. unfold confirmSignature, handleBoxClick. simpl.
    rewrite Hid. split; reflexivity.
Qed.

Lemma click_then_confirm_witness :
  DocumentMetadata.signatures
    (currentDoc (confirmSignature (Some sample_pad)
                   (handleBoxClick (sample_placement "b" 0 None)
                      (sample_signing None))))
  = [sample_placement "a" 0 None;
     sample_placement "b" 0 (Some "data:image/png;base64,WIDE")]
  /\ confirmSignature (Some sample_pad)
       (handleBoxClick (sample_placement "" 0 None) (sample_signing None))
     = handleBoxClick (sample_placement "" 0 None) (sample_signing None).
Proof.
  destruct (@click_then_confirm Q (sample_placement "b" 0 None)
              (sample_signing None) sample_pad eq_refl) as [Hsigned _].
  destruct (@click_then_confirm Q (sample_placement "" 0 None)
              (sample_signing None) sample_pad eq_refl) as [_ Hempty].
  split.
  - rewrite Hsigned; [reflexivity | discriminate].
  - exact (proj1 (Hempty eq_refl)).
Defined.

(** X14. Signing a placement a second time overwrites the first mark: the
    view ends as if only the second signature had been applied. *)
Theorem signing_again_overwrites :
  forall (num : Type) (sig : SignatureLocation.t num)
         (st : @signing_state num) (first second : signature_pad),
    SignatureLocation.id sig <> "" ->
    isEmpty first = false ->
    isEmpty second = false ->
    confirmSignature (Some second)
      (handleBoxClick sig (confirmSignature (Some first) (handleBoxClick sig st)))
    = confirmSignature (Some second) (handleBoxClick sig st).
Proof.
  intros num sig st first second Hid Hfirst Hsecond.
  rewrite (confirm_after_click sig st first Hid Hfirst).
  rewrite !confirm_after_click by assumption.
  cbn [currentDoc alerts].
  rewrite signatures_with_signatures, with_signatures_twice, attachMark_overwrite.
  reflexivity.
Qed.

Lemma signing_again_overwrites_witness :
  DocumentMetadata.signatures
    (currentDoc
       (confirmSignature (Some (mkPad false "data:image/png;base64,TALL"))
          (handleBoxClick (sample_placement "a" 0 None)
             (confirmSignature (Some sample_pad)
                (handleBoxClick (sample_placement "a" 0 None)
                   (sample_signing None))))))
  = [sample_placement "a" 0 (Some "data:image/png;base64,TALL");
     sample_placement "b" 0 None].
Proof.
  rewrite (@signing_again_overwrites Q (sample_placement "a" 0 None)
             (sample_signing None) sample_pad
             (mkPad false "data:image/png;base64,TALL")).
  - reflexivity.
  - discriminate.
  - reflexivity.
  - reflexivity.
Defined.

(** X15. Placements with different identifiers can be signed in either
    order: the view ends in the same state. *)
Theorem signing_order_is_irrelevant :
  forall (num : Type) (a b : SignatureLocation.t num)
         (st : @signing_state num) (padA padB : signature_pad),
    SignatureLocation.id a <> "" ->
    SignatureLocation.id b <> "" ->
    SignatureLocation.id a <> SignatureLocation.id b ->
    isEmpty padA = false ->
    isEmpty padB = false ->
    confirmSignature (Some padB)
      (handleBoxClick b (confirmSignature (Some padA) (handleBoxClick a st)))
    = confirmSignature (Some padA)
        (handleBoxClick a (confirmSignature (Some padB) (handleBoxClick b st))).
Proof.
  intros num a b st padA padB Ha Hb Hab HpadA HpadB.
  rewrite (confirm_after_click a st padA Ha HpadA).
  rewrite (confirm_after_click b st padB Hb HpadB).
  rewrite !confirm_after_click by assumption.
  cbn [currentDoc alerts].
  rewrite !signatures_with_signatures, !with_signatures_twice.
  rewrite (attachMark_commute (toDataURL padB) (toDataURL padA) _
             (fun E => Hab (eq_sym E))).
  reflexivity.
Qed.

Lemma signing_order_is_irrelevant_witness :
  confirmSignature (Some (mkPad false "data:image/png;base64,TALL"))
    (handleBoxClick (sample_placement "b" 0 None)
       (confirmSignature (Some sample_pad)
          (handleBoxClick (sample_placement "a" 0 None) (sample_signing None))))
  = confirmSignature (Some sample_pad)
      (handleBoxClick (sample_placement "a" 0 None)
         (confirmSignature (Some (mkPad false "data:image/png;base64,TALL"))
            (handleBoxClick (sample_placement "b" 0 None) (sample_signing None)))).
Proof.
  apply (@signing_order_is_irrelevant Q (sample_placement "a" 0 None)
           (sample_placement "b" 0 None) (sample_signing None) sample_pad
           (mkPad false "data:image/png;base64,TALL"));
    try discriminate; reflexivity.
Defined.

(** X16. Whatever the pad and the selection, [confirmSignature] changes
    of the document nothing but marks: identifiers, page indices and
    rectangles of the placements stay as they are, in order, and so do
    the other fields of the record.  When the pad yields a non-empty
    data URL, the number of signed placements does not go down. *)
Theorem confirm_signature_changes_marks_only :
  forall (num : Type) (sigPad : option signature_pad) (st : @signing_state num),
    let doc := currentDoc st in
    let doc' := currentDoc (confirmSignature sigPad st) in
    map geometry (DocumentMetadata.signatures doc')
    = map geometry (DocumentMetadata.signatures doc)
    /\ with_signatures doc' (DocumentMetadata.signatures doc) = doc
    /\ ((forall pad, sigPad = Some pad -> toDataURL pad <> "") ->
        signed_count (DocumentMetadata.signatures doc)
        <= signed_count (DocumentMetadata.signatures doc')).
Proof.
  intros num sigPad st doc doc'. unfold doc', confirmSignature.
  assert (Hself : with_signatures doc (DocumentMetadata.signatures doc) = doc)
    by (destruct doc; reflexivity).
  destruct sigPad as [pad |];
    [| repeat split; [exact Hself | intros _; apply Nat.le_refl]].
  destruct (truthy_id (activeSignId st)) as [active |];
    [| repeat split; [exact Hself | intros _; apply Nat.le_refl]].
  destruct (isEmpty pad);
    [repeat split; [exact Hself | intros _; apply Nat.le_refl] |].
  cbn [currentDoc]. fold doc. split; [| split].
  - apply attachMark_geometry.
  - destruct doc; reflexivity.
  - intros Hurl. unfold with_signatures. cbn [DocumentMetadata.signatures].
    apply attachMark_signed_count. exact (Hurl pad eq_refl).
Qed.

Lemma confirm_signature_changes_marks_only_witness :
  map geometry
    (DocumentMetadata.signatures
       (currentDoc (confirmSignature (Some sample_pad) (sample_signing (Some "b")))))
  = map geometry
      (DocumentMetadata.signatures (currentDoc (sample_signing (Some "b"))))
  /\ signed_count
       (DocumentMetadata.signatures (currentDoc (sample_signing (Some "b"))))
     <= signed_count
          (DocumentMetadata.signatures
             (currentDoc (confirmSignature (Some sample_pad)
                            (sample_signing (Some "b"))))).
Proof.
  destruct (@confirm_signature_changes_marks_only Q (Some sample_pad)
              (sample_signing (Some "b"))) as (Hgeometry & _ & Hcount).
  split; [exact Hgeometry |].
  apply Hcount. intros pad E. injection E as <-. discriminate.
Defined.

(** ** The final save *)

Lemma find_in_updated_docs (num : Type) (docs : list (DocumentMetadata.t num))
    (doc : DocumentMetadata.t num) :
  find (fun d => (DocumentMetadata.id d =? DocumentMetadata.id doc)%string)
       (updated_docs docs doc)
  = Some doc.
Proof.
  destruct (updated_docs_cases docs doc)
    as [(l1 & d & l2 & _ & _ & Hl1 & ->) | (_ & ->)].
  - rewrite find_app_none by exact Hl1. simpl. rewrite String.eqb_refl. reflexivity.
  - simpl. rewrite String.eqb_refl. reflexivity.
Qed.

Section FinalSaveFacts.
Context {num : Type} `{Number num}.
Variable load : string -> option (list (PdfLib.page num)).
Variable embedPng : string -> option (PdfLib.image num).
Variable serialize : list (PdfLib.page num) -> string.
Variable quota_ok : list (DocumentMetadata.t num) -> bool.

(** The record the handler hands to [saveDocument] when the embedding
    run on [pages] is fulfilled. *)
Lemma final_save_fulfilled (st : save_view) (pages : list (PdfLib.page num)) :
  let doc := currentDoc (signing st) in
  load (DocumentMetadata.originalPdfData doc) = Some pages ->
  forallb (embeddable embedPng (map PdfLib.getSize pages)) (DocumentMetadata.signatures doc)
  = true ->
  handleFinalSave load embedPng serialize quota_ok st
  = let updatedDoc :=
      with_status_and_signed doc
        (if forallb has_mark (DocumentMetadata.signatures doc)
         then "signed" else "unsigned")
        (signed_data_url serialize
           (embedded embedPng pages (DocumentMetadata.signatures doc))) in
    let (ls, raised) := saveDocument quota_ok (storage st) updatedDoc in
    mkSaveView
      (mkSigning doc (activeSignId (signing st)) (isSigningModalOpen (signing st))
         (alerts (signing st) ++ raised ++ ["Document saved successfully!"]))
      false true ls.
Proof.
  intros doc Hload Hok. unfold handleFinalSave. fold doc.
  unfold embedSignatures, embed_body. rewrite Hload. unfold bind.
  rewrite (embed_loop_embeddable embedPng _ pages Hok). reflexivity.
Qed.

End FinalSaveFacts.

(** X17. When the document loads, every marked placement can be embedded
    and the browser accepts the write, [handleFinalSave] stores, under
    the identifier of the document, the record with the embedded
    document as its signed data and with its original data and its
    placements untouched.  The stored status is 'signed' exactly when
    the header's counter of signed placements equals the number of
    placements (so also when there is no placement), else 'unsigned'.
    The view itself keeps its document as it was, raises the success
    alert, shows the share menu and is no longer saving. *)
Theorem final_save_stores_the_signed_document :
  forall (num : Type) (N : Number num)
         (load : string -> option (list (PdfLib.page num)))
         (embedPng : string -> option (PdfLib.image num))
         (serialize : list (PdfLib.page num) -> string)
         (quota_ok : list (DocumentMetadata.t num) -> bool)
         (st : save_view) (pages : list (PdfLib.page num)),
    let doc := currentDoc (signing st) in
    let signatures := DocumentMetadata.signatures doc in
    let updatedDoc :=
      with_status_and_signed doc
        (if forallb has_mark signatures then "signed" else "unsigned")
        (signed_data_url serialize (embedded embedPng pages signatures)) in
    load (DocumentMetadata.originalPdfData doc) = Some pages ->
    forallb (embeddable embedPng (map PdfLib.getSize pages)) signatures = true ->
    quota_ok (updated_docs (getDocuments (storage st)) updatedDoc) = true ->
    let st' := handleFinalSave load embedPng serialize quota_ok st in
    getDocumentById (storage st') (DocumentMetadata.id doc) = Some updatedDoc
    /\ (DocumentMetadata.status updatedDoc = "signed"
        <-> signed_count signatures = List.length signatures)
    /\ DocumentMetadata.originalPdfData updatedDoc = DocumentMetadata.originalPdfData doc
    /\ DocumentMetadata.signatures updatedDoc = signatures
    /\ currentDoc (signing st') = doc
    /\ alerts (signing st') = alerts (signing st) ++ ["Document saved successfully!"]
    /\ showShareMenu st' = true
    /\ isSaving st' = false.
Proof.
  intros num N load embedPng serialize quota_ok st pages doc signatures updatedDoc
         Hload Hok Hquota st'.
  assert (Hst' : st'
                 = mkSaveView
                     (mkSigning doc (activeSignId (signing st))
                        (isSigningModalOpen (signing st))
                        (alerts (signing st) ++ ["Document saved successfully!"]))
                     false true
                     (Some (Json (updated_docs (getDocuments (storage st)) updatedDoc)))).
  { unfold st'.
    rewrite (@final_save_fulfilled num N load embedPng serialize quota_ok st pages
               Hload Hok).
    fold doc signatures updatedDoc. cbv zeta. unfold saveDocument.
    rewrite Hquota. reflexivity. }
  rewrite Hst'. cbn [storage signing currentDoc alerts showShareMenu isSaving].
  split; [| split; [| repeat split]].
  - unfold getDocumentById. cbn [getDocuments].
    exact (find_in_updated_docs (getDocuments (storage st)) updatedDoc).
  - rewrite <- forallb_has_mark_count. unfold updatedDoc, with_status_and_signed.
    cbn [DocumentMetadata.status].
    destruct (forallb has_mark signatures); split; intros E;
      try reflexivity; discriminate E.
Qed.

Lemma final_save_stores_the_signed_document_witness :
  let st := sample_save_view
              [sample_placement "a" 0 (Some "data:image/png;base64,WIDE")]
              (Some (Json [sample_record "x" "first"])) in
  let st' := handleFinalSave sample_load sample_embedPng sample_serialize
               sample_quota st in
  option_map (fun d => (DocumentMetadata.status d, DocumentMetadata.signedPdfData d))
             (getDocumentById (storage st') "doc-1")
  = Some ("signed",
          Some "data:application/pdf;base64,data:image/png;base64,WIDE")
  /\ getDocumentById (storage st') "x" = Some (sample_record "x" "first")
  /\ alerts (signing st') = ["Document saved successfully!"].
Proof.
  intros st st'.
  destruct (@final_save_stores_the_signed_document Q Number_Q sample_load
              sample_embedPng sample_serialize sample_quota st
              [PdfLib.mkPage (PdfLib.mkSize (lit 612) (lit 792)) []])
    as (Hstored & _ & _ & _ & _ & Halerts & _);
    [reflexivity | vm_compute; reflexivity | reflexivity |].
  split; [| split].
  - change "doc-1" with (DocumentMetadata.id (currentDoc (signing st))).
    unfold st'. rewrite Hstored. reflexivity.
  - reflexivity.
  - exact Halerts.
Defined.

(** X18. When the document does not load, or some marked placement
    cannot be embedded (it names a page that does not exist, carries a
    payload that does not decode, or gives pdf-lib a NaN),
    [handleFinalSave] stores nothing: the store and the document of the
    view stay as they were, the error alert is raised, the share menu is
    not opened and the view is no longer saving. *)
Theorem final_save_rejected_stores_nothing :
  forall (num : Type) (N : Number num)
         (load : string -> option (list (PdfLib.page num)))
         (embedPng : string -> option (PdfLib.image num))
         (serialize : list (PdfLib.page num) -> string)
         (quota_ok : list (DocumentMetadata.t num) -> bool)
         (st : save_view),
    let doc := currentDoc (signing st) in
    (load (DocumentMetadata.originalPdfData doc) = None
     \/ exists pages,
          load (DocumentMetadata.originalPdfData doc) = Some pages
          /\ forallb (embeddable embedPng (map PdfLib.getSize pages))
                     (DocumentMetadata.signatures doc) = false) ->
    handleFinalSave load embedPng serialize quota_ok st
    = mkSaveView
        (mkSigning doc (activeSignId (signing st)) (isSigningModalOpen (signing st))
           (alerts (signing st) ++ ["Error saving document."]))
        false (showShareMenu st) (storage st).
Proof.
  intros num N load embedPng serialize quota_ok st doc Hcause.
  unfold handleFinalSave. fold doc.
  assert (Hthrown : exists e,
             embedSignatures load embedPng (DocumentMetadata.originalPdfData doc)
               (DocumentMetadata.signatures doc) = Thrown e).
  { unfold embedSignatures, embed_body.
    destruct Hcause as [-> | (pages & -> & Hbad)].
    - eexists. reflexivity.
    - destruct (embed_loop_not_embeddable embedPng _ pages Hbad) as [e He].
      exists e. unfold bind.
      destruct (for_of _ (embed_one embedPng) pages) as [[[] | e'] s'];
        simpl in *; [discriminate | congruence]. }
  destruct Hthrown as [e ->]. reflexivity.
Qed.

Lemma final_save_rejected_stores_nothing_witness :
  let st := sample_save_view
              [sample_placement "a" 3 (Some "data:image/png;base64,WIDE")]
              (Some (Json [sample_record "x" "first"])) in
  let st' := handleFinalSave sample_load sample_embedPng sample_serialize
               sample_quota st in
  storage st' = Some (Json [sample_record "x" "first"])
  /\ alerts (signing st') = ["Error saving document."].
Proof.
  intros st st'. unfold st'.
  rewrite (@final_save_rejected_stores_nothing Q Number_Q sample_load
             sample_embedPng sample_serialize sample_quota st).
  - split; reflexivity.
  - right. exists [PdfLib.mkPage (PdfLib.mkSize (lit 612) (lit 792)) []].
    split; reflexivity.
Defined.

(** X19. When the embedding run is fulfilled but the browser refuses the
    write, [handleFinalSave] leaves the store as it was and raises the
    storage alert, and then still raises the success alert and opens
    the share menu. *)
Theorem final_save_refused_write_is_announced_as_saved :
  forall (num : Type) (N : Number num)
         (load : string -> option (list (PdfLib.page num)))
         (embedPng : string -> option (PdfLib.image num))
         (serialize : list (PdfLib.page num) -> string)
         (quota_ok : list (DocumentMetadata.t num) -> bool)
         (st : save_view) (pages : list (PdfLib.page num)),
    let doc := currentDoc (signing st) in
    let signatures := DocumentMetadata.signatures doc in
    let updatedDoc :=
      with_status_and_signed doc
        (if forallb has_mark signatures then "signed" else "unsigned")
        (signed_data_url serialize (embedded embedPng pages signatures)) in
    load (DocumentMetadata.originalPdfData doc) = Some pages ->
    forallb (embeddable embedPng (map PdfLib.getSize pages)) signatures = true ->
    quota_ok (updated_docs (getDocuments (storage st)) updatedDoc) = false ->
    let st' := handleFinalSave load embedPng serialize quota_ok st in
    storage st' = storage st
    /\ alerts (signing st')
       = alerts (signing st)
         ++ ["Local storage full. Cannot save document.";
             "Document saved successfully!"]
    /\ showShareMenu st' = true.
Proof.
  intros num N load embedPng serialize quota_ok st pages doc signatures updatedDoc
         Hload Hok Hquota st'.
  unfold st'.
  rewrite (@final_save_fulfilled num N load embedPng serialize quota_ok st pages
             Hload Hok).
  fold doc signatures updatedDoc. cbv zeta. unfold saveDocument.
  rewrite Hquota. repeat split.
Qed.

Lemma final_save_refused_write_is_announced_as_saved_witness :
  let st := sample_save_view
              [sample_placement "a" 0 (Some "data:image/png;base64,WIDE")]
              (Some (Json [sample_record "x" "first"; sample_record "y" "second";
                           sample_record "z" "third"])) in
  let st' := handleFinalSave sample_load sample_embedPng sample_serialize
               sample_quota st in
  storage st' = storage st
  /\ alerts (signing st')
     = ["Local storage full. Cannot save document."; "Document saved successfully!"]
  /\ showShareMenu st' = true.
Proof.
  intros st st'.
  exact (@final_save_refused_write_is_announced_as_saved Q Number_Q sample_load
           sample_embedPng sample_serialize sample_quota st
           [PdfLib.mkPage (PdfLib.mkSize (lit 612) (lit 792)) []]
           eq_refl eq_refl eq_refl).
Defined.

(* ------------------------------------------------------------------ *)
(** ** The text sample *)

Lemma string_app_nil_r (s : string) : (s ++ "")%string = s.
Proof. induction s as [| c s IH]; simpl; [| rewrite IH]; reflexivity. Qed.

Lemma string_app_assoc (a b c : string) :
  ((a ++ b) ++ c)%string = (a ++ b ++ c)%string.
Proof. induction a as [| x a IH]; simpl; [| rewrite IH]; reflexivity. Qed.

Lemma concat_in_split (sep s : string) (l : list string) :
  In s l -> exists a b, String.concat sep l = (a ++ s ++ b)%string.
Proof.
  induction l as [| x l IH]; intros Hin; [destruct Hin |].
  destruct Hin as [-> | Hin].
  - destruct l as [| y l].
    + exists "", "". simpl. rewrite string_app_nil_r. reflexivity.
    + exists "", (sep ++ String.concat sep (y :: l))%string. reflexivity.
  - destruct (IH Hin) as (a & b & Heq).
    destruct l as [| y l]; [destruct Hin |].
    exists (x ++ sep ++ a)%string, b.
    change (String.concat sep (x :: y :: l))
      with (x ++ sep ++ String.concat sep (y :: l))%string.
    rewrite Heq, !string_app_assoc. reflexivity.
Qed.

Lemma includes_join (l : list string) (s t : string) :
  In s l -> includes s t = true -> includes (String.concat " " l) t = true.
Proof.
  intros Hin Hinc.
  apply includes_spec in Hinc. destruct Hinc as (pre & post & ->).
  destruct (concat_in_split " " _ _ Hin) as (a & b & ->).
  apply includes_spec. exists (a ++ pre)%string, (post ++ b)%string.
  rewrite !string_app_assoc. reflexivity.
Qed.

Section TextSampleFacts.
Context {num : Type} `{Number num}.
Variable getDocument : string -> option (PdfJs.document num).

Lemma extract_readable (base64Data : string) (page : PdfJs.page num)
    (rest : PdfJs.document num) (items : list (PdfJs.item num)) :
  getDocument base64Data = Some (Some page :: rest) ->
  PdfJs.textContent page = Some items ->
  extractTextFromFirstPage getDocument base64Data = Returned (join_items items).
Proof.
  intros Hdoc Htext.
  unfold extractTextFromFirstPage, extract_body, try_catch, bind, await, ret.
  rewrite Hdoc. simpl. rewrite Htext. reflexivity.
Qed.

Lemma marker_fragments_first (pdf : PdfJs.document num) (j : nat) (m : @found num) :
  In m (marker_fragments pdf j) -> fst (fst m) = j ->
  exists page rest items,
    pdf = Some page :: rest /\ PdfJs.textContent page = Some items
    /\ In (snd m) items /\ has_marker (snd m) = true.
Proof.
  destruct pdf as [| [page |] rest]; simpl; intros Hin Hj; try destruct Hin.
  destruct (PdfJs.textContent page) as [items |] eqn:Htext; [| destruct Hin].
  apply in_app_or in Hin. destruct Hin as [Hin | Hin].
  - apply in_map_iff in Hin. destruct Hin as (item & <- & Hitem).
    apply filter_In in Hitem. destruct Hitem as [Hitem Hm].
    exists page, rest, items. repeat split; assumption.
  - exfalso.
    destruct (marker_fragments_indices rest (S j)) as [Hbound _].
    rewrite Forall_forall in Hbound.
    specialize (Hbound (fst (fst m)) (in_map _ _ _ Hin)). lia.
Qed.

(** X20. [extractTextFromFirstPage]: when the document loads and the text
    layer of its first page can be read, the sample is the texts of the
    fragments of that page, in the order of the text layer, joined by
    single spaces; so whatever text one of those fragments contains, the
    sample contains too.  The pages after the first play no part. *)
Theorem text_sample_contains_fragments (base64Data : string)
    (page : PdfJs.page num) (rest : PdfJs.document num)
    (items : list (PdfJs.item num)) :
  getDocument base64Data = Some (Some page :: rest) ->
  PdfJs.textContent page = Some items ->
  extractTextFromFirstPage getDocument base64Data
  = Returned (String.concat " " (map PdfJs.str items))
  /\ forall item t,
       In item items -> includes (PdfJs.str item) t = true ->
       includes (String.concat " " (map PdfJs.str items)) t = true.
Proof.
  intros Hdoc Htext.
  split; [exact (extract_readable Hdoc Htext) |].
  intros item t Hin Hinc.
  apply (includes_join _ (PdfJs.str item)); [| exact Hinc].
  apply in_map. exact Hin.
Qed.

(** X21. [extractTextFromFirstPage] never rejects: its promise is always
    fulfilled with a string, and the string is empty when the document
    does not load, has no first page, or the text layer of the first page
    cannot be read. *)
Theorem text_sample_failure_is_empty (base64Data : string) :
  (exists sample, extractTextFromFirstPage getDocument base64Data = Returned sample)
  /\ ((forall page items,
         option_map getPage1 (getDocument base64Data) = Some (Some page) ->
         PdfJs.textContent page <> Some items)
      -> extractTextFromFirstPage getDocument base64Data = Returned "").
Proof.
  unfold extractTextFromFirstPage, extract_body, try_catch, bind, await, ret.
  destruct (getDocument base64Data) as [pdf |]; simpl.
  - destruct (getPage1 pdf) as [page |]; simpl.
    + destruct (PdfJs.textContent page) as [items |] eqn:Htext; simpl.
      * split; [eexists; reflexivity |]. intros Hno.
        exfalso. exact (Hno page items eq_refl Htext).
      * split; [eexists |]; reflexivity.
    + split; [eexists |]; reflexivity.
  - split; [eexists |]; reflexivity.
Qed.

Variable random : nat -> num.
Variable toString36 : num -> string.

(** X22. [scanForSignatures] and [extractTextFromFirstPage] on the same
    upload: when the scan reports a placement on the first page, the text
    sample that goes to the analysis contains the marker. *)
Theorem marker_on_first_page_is_in_sample (base64Data : string)
    (locations : list (SignatureLocation.t num)) (l : SignatureLocation.t num) :
  scanForSignatures getDocument random toString36 base64Data = Returned locations ->
  In l locations ->
  SignatureLocation.pageIndex l = 0 ->
  exists sample,
    extractTextFromFirstPage getDocument base64Data = Returned sample
    /\ includes sample "$signature" = true.
Proof.
  rewrite scanForSignatures_is_place_all. intros Hscan Hin Hpage.
  injection Hscan as <-.
  apply (in_map SignatureLocation.pageIndex) in Hin.
  rewrite place_all_pageIndex, Hpage in Hin.
  apply in_map_iff in Hin. destruct Hin as (m & Hm & Hin).
  destruct (getDocument base64Data) as [pdf |] eqn:Hdoc; [| destruct Hin].
  destruct (marker_fragments_first _ _ Hin Hm)
    as (page & rest & items & -> & Htext & Hitem & Hmark).
  exists (join_items items). split; [exact (extract_readable Hdoc Htext) |].
  unfold join_items.
  apply (includes_join _ (PdfJs.str (snd m))); [| exact Hmark].
  apply in_map. exact Hitem.
Qed.

End TextSampleFacts.

Lemma text_sample_contains_fragments_witness :
  extractTextFromFirstPage (@sample_getDocument float _)
    "data:application/pdf;base64,TWO"
  = Returned "$signature $signature".
Proof.
  exact (proj1 (@text_sample_contains_fragments float
                  (@sample_getDocument float _) "data:application/pdf;base64,TWO"
                  (PdfJs.mkPage letter_viewport
                     (Some [marker_item None None; marker_item None None]))
                  [] [marker_item None None; marker_item None None]
                  eq_refl eq_refl)).
Defined.

Lemma marker_on_first_page_is_in_sample_witness :
  exists sample,
    extractTextFromFirstPage (@sample_getDocument float _)
      "data:application/pdf;base64,ONE" = Returned sample
    /\ includes sample "$signature" = true.
Proof.
  apply (@marker_on_first_page_is_in_sample float _
           (@sample_getDocument float _) constant_random sample_toString36
           "data:application/pdf;base64,ONE"
           [letter_placement_binary64 "i"]
           (letter_placement_binary64 "i")).
  - vm_compute. reflexivity.
  - left. reflexivity.
  - reflexivity.
Defined.

Lemma text_sample_failure_is_empty_witness :
  extractTextFromFirstPage (@sample_getDocument float _)
    "data:application/pdf;base64,BROKEN-FIRST" = Returned "".
Proof.
  apply (@text_sample_failure_is_empty float (@sample_getDocument float _)
           "data:application/pdf;base64,BROKEN-FIRST").
  intros page items Hpage. vm_compute in Hpage. injection Hpage as <-.
  discriminate.
Defined.

(* ------------------------------------------------------------------ *)
(** ** The metadata analysis *)

Lemma substring_app (n : nat) :
  forall s t : string,
    n <= String.length s ->
    String.substring 0 n (s ++ t) = String.substring 0 n s.
Proof.
  induction n as [| n IH]; intros s t Hlen.
  - destruct s, t; reflexivity.
  - destruct s as [| c s]; simpl in Hlen; [lia |].
    simpl. rewrite IH by lia. reflexivity.
Qed.


Section AnalyzeFacts.
Variable API_KEY : option string.
Variable generateContent : string -> option (option string).
Variable JSON_parse : string -> option Gemini.value.


(** X24. [analyzeDocumentContent] reads the first 2000 characters of the
    text sample and nothing after them: text appended to a sample of 2000
    characters or more does not change the analysis. *)
Theorem analysis_reads_first_2000_characters (textSample more : string) :
  2000 <= String.length textSample ->
  Gemini.analyzeDocumentContent API_KEY generateContent JSON_parse
    (textSample ++ more)
  = Gemini.analyzeDocumentContent API_KEY generateContent JSON_parse textSample.
Proof.
  intros Hlen. unfold Gemini.analyzeDocumentContent, Gemini.contents, substr.
  rewrite (@substring_app 2000 textSample more Hlen). reflexivity.
Qed.

End AnalyzeFacts.

Lemma analysis_reads_first_2000_characters_witness :
  let long := String.concat "" (repeat "0123456789" 200) in
  let service := fun contents : string =>
    Some (Some (substr contents (String.length contents - 1) 1)) in
  let parse := fun text : string =>
    Some (Gemini.Obj [("title", Gemini.Str text)]) in
  2000 <= String.length long
  /\ Gemini.analyzeDocumentContent (Some "key") service parse (long ++ "tail")
     = Gemini.analyzeDocumentContent (Some "key") service parse long.
Proof.
  intros long service parse.
  assert (Hlen : 2000 <= String.length long) by (apply Nat.leb_le; vm_compute; reflexivity).
  split; [exact Hlen |].
  exact (@analysis_reads_first_2000_characters (Some "key") service parse
           long "tail" Hlen).
Defined.

(* ------------------------------------------------------------------ *)
(** ** The dashboard list *)

Lemma includes_empty (s : string) : includes s "" = true.
Proof. apply includes_spec. exists "", s. reflexivity. Qed.

Lemma filter_true {A} (p : A -> bool) (l : list A) :
  (forall a, In a l -> p a = true) -> List.filter p l = l.
Proof.
  induction l as [| a l IH]; intros Hall; simpl; [reflexivity |].
  rewrite (Hall a (or_introl eq_refl)), IH; [reflexivity |].
  intros b Hb. apply Hall. right. exact Hb.
Qed.

Section DashboardFacts.
Context {num : Type}.
Variable toLowerCase : string -> string.

(** X25. The dashboard list ([filteredDocs]): with an empty search box the
    search hides nothing, so the status filter alone decides; with the
    filter on [all] as well, every stored document is listed, in the stored
    order. *)
Theorem empty_search_hides_nothing (documents : list (DocumentMetadata.t num))
    (filter : string) :
  toLowerCase "" = "" ->
  filteredDocs toLowerCase documents "" "all" = documents
  /\ filteredDocs toLowerCase documents "" filter
     = List.filter
         (fun doc => (filter =? "all")%string
                     || (DocumentMetadata.status doc =? filter)%string)
         documents.
Proof.
  intros Hlower. unfold filteredDocs. rewrite Hlower. split.
  - apply filter_true. intros doc _. rewrite includes_empty. reflexivity.
  - apply filter_ext. intros doc. rewrite includes_empty. reflexivity.
Qed.

End DashboardFacts.

Lemma empty_search_hides_nothing_witness :
  let docs := [sample_record "a" "Lease"; sample_record "b" "Offer"] in
  filteredDocs (fun s => s) docs "" "all" = docs
  /\ filteredDocs (fun s => s) docs "" "signed" = [].
Proof.
  intros docs.
  destruct (@empty_search_hides_nothing Q (fun s => s) docs "signed" eq_refl)
    as [Hall Hsigned].
  split; [exact Hall |]. rewrite Hsigned. reflexivity.
Defined.

(* ------------------------------------------------------------------ *)
(** ** The application shell *)

Section AppShellFacts.
Context {num : Type}.

Lemma app_step_keeps (st : @app_state num) (ev : app_event) :
  view_matches_document st -> view_matches_document (app_step st ev).
Proof.
  destruct ev; unfold view_matches_document; simpl; intros Hst;
    solve [exact I | exact Hst].
Qed.

Lemma app_run_keeps (events : list (@app_event num)) :
  forall st, view_matches_document st ->
             view_matches_document (fold_left app_step events st).
Proof.
  induction events as [| ev events IH]; intros st Hst; simpl; [exact Hst |].
  apply IH, app_step_keeps, Hst.
Qed.

(** X26. The shell ([App]): after any sequence of its handlers being
    called, from the state on mount, exactly one of the two screens is
    rendered: the view is [SIGNING] exactly when there is an active
    document, so the signing screen is never left blank by a missing
    document and the dashboard is never shown with a document still
    active. *)
Theorem shell_shows_exactly_one_screen (events : list (@app_event num)) :
  let st := fold_left app_step events app_initial in
  (shows_dashboard st = true <-> shows_signing st = None)
  /\ (shows_dashboard st = true <-> activeDocument st = None).
Proof.
  intros st.
  assert (Hinv : view_matches_document st)
    by (apply app_run_keeps; exact I).
  unfold view_matches_document in Hinv. unfold shows_dashboard, shows_signing.
  destruct (currentView st), (activeDocument st); try destruct Hinv;
    split; split; intros Heq; try reflexivity; discriminate Heq.
Qed.

End AppShellFacts.

(* ------------------------------------------------------------------ *)
(** ** Sharing after a save *)

Section ShareFacts.
Context {num : Type} `{Number num}.
Variable load : string -> option (list (PdfLib.page num)).
Variable embedPng : string -> option (PdfLib.image num).
Variable serialize : list (PdfLib.page num) -> string.
Variable quota_ok : list (DocumentMetadata.t num) -> bool.

(** Whatever its outcome, the handler leaves the document of the view as
    it was: it never calls [setCurrentDoc]. *)
Lemma final_save_keeps_view_document (st : save_view) :
  currentDoc (signing (handleFinalSave load embedPng serialize quota_ok st))
  = currentDoc (signing st).
Proof.
  unfold handleFinalSave.
  destruct (embedSignatures _ _ _ _) as [pages | e]; [| reflexivity].
  destruct (saveDocument _ _ _) as [ls raised]. reflexivity.
Qed.

(** X27. [handleFinalSave], then [handleShare]: the save puts the signed
    document in the store but not in the view, so for a document opened
    without signed data the share menu that the save opens sends the
    original upload, without the marks; the stored record, were it opened
    again, would send the signed document. *)
Theorem share_after_save_sends_the_original (st : save_view)
    (pages : list (PdfLib.page num)) :
  let doc := currentDoc (signing st) in
  let signatures := DocumentMetadata.signatures doc in
  let signed := signed_data_url serialize (embedded embedPng pages signatures) in
  load (DocumentMetadata.originalPdfData doc) = Some pages ->
  forallb (embeddable embedPng (map PdfLib.getSize pages)) signatures = true ->
  quota_ok (updated_docs (getDocuments (storage st))
              (with_status_and_signed doc
                 (if forallb has_mark signatures then "signed" else "unsigned")
                 signed)) = true ->
  DocumentMetadata.signedPdfData doc = None ->
  DocumentMetadata.originalPdfData doc <> "" ->
  let st' := handleFinalSave load embedPng serialize quota_ok st in
  showShareMenu st' = true
  /\ dataToShare (currentDoc (signing st'))
     = Some (DocumentMetadata.originalPdfData doc)
  /\ option_map dataToShare
       (getDocumentById (storage st') (DocumentMetadata.id doc))
     = Some (Some signed).
Proof.
  intros doc signatures signed Hload Hok Hquota Hnone Horig st'.
  split; [| split].
  - unfold st'.
    rewrite (@final_save_fulfilled num _ load embedPng serialize quota_ok st pages
               Hload Hok).
    cbv zeta. destruct (saveDocument quota_ok _ _). reflexivity.
  - unfold st'. rewrite final_save_keeps_view_document. fold doc.
    unfold dataToShare. rewrite Hnone. cbn [truthy_id].
    destruct (String.eqb_spec (DocumentMetadata.originalPdfData doc) "");
      [contradiction | reflexivity].
  - unfold st'.
    rewrite (@final_save_fulfilled num _ load embedPng serialize quota_ok st pages
               Hload Hok).
    fold doc signatures signed. cbv zeta. unfold saveDocument.
    rewrite Hquota. cbn [storage]. unfold getDocumentById. cbn [getDocuments].
    set (updatedDoc := with_status_and_signed doc _ signed).
    change (DocumentMetadata.id doc) with (DocumentMetadata.id updatedDoc).
    rewrite find_in_updated_docs. unfold updatedDoc, dataToShare. cbn.
    unfold signed, signed_data_url. reflexivity.
Qed.

End ShareFacts.

Lemma share_after_save_sends_the_original_witness :
  let st := sample_save_view
              [sample_placement "a" 0 (Some "data:image/png;base64,WIDE")]
              (Some (Json [sample_record "x" "first"])) in
  let st' := handleFinalSave sample_load sample_embedPng sample_serialize
               sample_quota st in
  dataToShare (currentDoc (signing st')) = Some "data:application/pdf;base64,ONE"
  /\ option_map dataToShare (getDocumentById (storage st') "doc-1")
     = Some (Some "data:application/pdf;base64,data:image/png;base64,WIDE").
Proof.
  intros st st'.
  destruct (@share_after_save_sends_the_original Q Number_Q sample_load
              sample_embedPng sample_serialize sample_quota st
              [PdfLib.mkPage (PdfLib.mkSize (lit 612) (lit 792)) []])
    as (_ & Hview & Hstored).
  - reflexivity.
  - reflexivity.
  - reflexivity.
  - reflexivity.
  - discriminate.
  - split; [exact Hview | exact Hstored].
Defined.
